(** * CapstoneTSU: sensor/video alignment and side-by-side compositing

    A shallow embedding of the Python scripts of the repository and the
    properties checked against them.

    Conventions of the embedding.
    - Python [int] is [Z]; sequence positions and frame counts are [nat].
    - In main.py and in the two compositing scripts a Python [float] (and
      a NumPy [float64]) is a binary64 number, [Binary64.float]: a finite
      value, an infinity or NaN.  Every arithmetic operation rounds its
      exact result to the nearest binary64 value, ties to even, and
      overflows to an infinity.  The sign of a zero is not kept; no
      operation of these scripts depends on it.
    - In the two animation scripts the times and the samples are rationals
      and the arithmetic is exact; the statements about these scripts are
      about the order of the computed times, not about their last digit.
    - pandas [datetime64[ns]] and [Timedelta] values are [Z] nanoseconds;
      arithmetic on them is checked against the int64 range.  NaT is
      outside the model.
    - A raised Python exception is [Raise e]; a normal return is [Ok v].
    - OpenCV pixel buffers, the drawing functions, the formatting of a
      float and the pandas seconds-to-Timedelta conversion are library
      code: they are parameters of the development. *)

From Stdlib Require Import ZArith QArith Qabs Qround Qminmax Qpower Qreduction.
From Stdlib Require Import List Bool Lia Lqa Sorted.
From Stdlib Require SpecFloat.
From Stdlib Require String.
From Equations Require Import Equations.
From Equations.Prop Require Import Logic.
Import ListNotations.

Set Implicit Arguments.

Close Scope Q_scope.
Open Scope Z_scope.
Open Scope nat_scope.

(* ===================================================================== *)
(** * Part I: the programs                                                *)
(* ===================================================================== *)

(** ** Python runtime: exceptions *)

Inductive exn : Set :=
| KeyError
| ValueError
| IndexError
| ZeroDivisionError
| OverflowError
| OutOfBoundsTimedelta
| cv2_error.

Inductive result (A : Type) : Type :=
| Ok (a : A)
| Raise (e : exn).

Arguments Ok {A} a.
Arguments Raise {A} e.

Definition bind {A B : Type} (m : result A) (k : A -> result B) : result B :=
  match m with
  | Ok a => k a
  | Raise e => Raise e
  end.

Notation "x <- m ;; k" := (bind m (fun x => k))
  (at level 61, m at next level, right associativity).
Notation "' p <- m ;; k" := (bind m (fun p => k))
  (at level 61, p pattern, m at next level, right associativity).

Definition is_ok {A : Type} (m : result A) : bool :=
  match m with Ok _ => true | Raise _ => false end.

(** [mapM f l]: apply [f] from left to right, stop at the first
    exception. *)
Fixpoint mapM {A B : Type} (f : A -> result B) (l : list A) : result (list B) :=
  match l with
  | [] => Ok []
  | a :: l' => b <- f a ;; bs <- mapM f l' ;; Ok (b :: bs)
  end.

(** ** Binary64 floating point

    A finite float is the rational it denotes.  [round] maps a rational to
    the nearest binary64 value: 53 bits of precision, exponents of the
    last bit from -1074 (subnormal numbers) up, an infinity from 2^1024
    on. *)

Module Binary64.

Inductive float : Type :=
| fin (q : Q)
| inf (negative : bool)
| nan.

Definition pow2 (e : Z) : Q := (2 ^ e)%Q.

(** [floor (log2 x)] for [x > 0]. *)
Definition ilog2 (x : Q) : Z :=
  let k := (Z.log2 (Qnum x) - Z.log2 (Zpos (Qden x)))%Z in
  if Qle_bool (pow2 k) x then k else (k - 1)%Z.

(** The nearest integer, halves to the even one. *)
Definition rne (y : Q) : Z :=
  let f := Qfloor y in
  match (y - inject_Z f ?= 1 # 2)%Q with
  | Lt => f
  | Gt => (f + 1)%Z
  | Eq => if Z.even f then f else (f + 1)%Z
  end.

(** The exponent of the last bit of the binary64 numbers around [a > 0]. *)
Definition exponent (a : Q) : Z := Z.max (ilog2 a - 52) (-1074).

(** [a > 0] rounded to a multiple of its last bit. *)
Definition magnitude (a : Q) : Q :=
  (inject_Z (rne (a / pow2 (exponent a))) * pow2 (exponent a))%Q.

Definition round (x : Q) : float :=
  if Qeq_bool x 0 then fin 0
  else
    let r := magnitude (Qabs x) in
    if Qle_bool (pow2 1024) r then inf (negb (Qle_bool 0 x))
    else fin (Qred (if Qle_bool 0 x then r else - r)).

Definition is_nan (x : float) : bool :=
  match x with nan => true | _ => false end.

Definition is_finite (x : float) : bool :=
  match x with fin _ => true | _ => false end.

(** [x < y], [x <= y], [x == y]: false when an operand is NaN. *)
Definition ltb (x y : float) : bool :=
  match x, y with
  | fin a, fin b => negb (Qle_bool b a)
  | fin _, inf s => negb s
  | inf s, fin _ => s
  | inf s, inf s' => s && negb s'
  | _, _ => false
  end.

Definition leb (x y : float) : bool :=
  match x, y with
  | fin a, fin b => Qle_bool a b
  | fin _, inf s => negb s
  | inf s, fin _ => s
  | inf s, inf s' => s || negb s'
  | _, _ => false
  end.

Definition eqb (x y : float) : bool :=
  match x, y with
  | fin a, fin b => Qeq_bool a b
  | inf s, inf s' => Bool.eqb s s'
  | _, _ => false
  end.

Definition opp (x : float) : float :=
  match x with
  | fin a => fin (- a)
  | inf s => inf (negb s)
  | nan => nan
  end.

Definition abs (x : float) : float :=
  match x with
  | fin a => fin (Qabs a)
  | inf _ => inf false
  | nan => nan
  end.

Definition add (x y : float) : float :=
  match x, y with
  | fin a, fin b => round (a + b)
  | fin _, inf s | inf s, fin _ => inf s
  | inf s, inf s' => if Bool.eqb s s' then inf s else nan
  | _, _ => nan
  end.

Definition sub (x y : float) : float := add x (opp y).

Definition mul (x y : float) : float :=
  match x, y with
  | fin a, fin b => round (a * b)
  | fin a, inf s | inf s, fin a =>
      if Qeq_bool a 0 then nan else inf (xorb s (negb (Qle_bool 0 a)))
  | inf s, inf s' => inf (xorb s s')
  | _, _ => nan
  end.

(** IEEE division, as NumPy does it: a finite number divided by zero is
    an infinity (positive zero is meant), 0 / 0 is NaN. *)
Definition div (x y : float) : float :=
  match x, y with
  | fin a, fin b =>
      if Qeq_bool b 0
      then if Qeq_bool a 0 then nan else inf (negb (Qle_bool 0 a))
      else round (a / b)
  | fin _, inf _ => fin 0
  | inf s, fin b => inf (xorb s (negb (Qle_bool 0 b)))
  | _, _ => nan
  end.

(** The float nearest to an integer, and the float that a decimal
    literal denotes. *)
Definition of_Z (z : Z) : float := round (inject_Z z).

Definition of_Q (q : Q) : float := round q.

End Binary64.

(** ** Python runtime: [int()], [float()], [/], [min], indexing *)

Module Py.

(** [x < y] on rationals. *)
Definition Qltb (x y : Q) : bool := negb (Qle_bool y x).

(** [int(x)] for the value [x] of a finite float: truncation toward
    zero. *)
Definition int (x : Q) : Z :=
  if (0 <=? Qnum x)%Z then Qfloor x else Qceiling x.

(** [a / b] (true division) in exact arithmetic: raises on a zero
    divisor. *)
Definition truediv (a b : Q) : result Q :=
  if Qeq_bool b 0 then Raise ZeroDivisionError else Ok (a / b)%Q.

(** [min(a, b)]: the first argument unless the second is smaller. *)
Definition min2 (a b : Q) : Q := if Qltb b a then b else a.

(** [max(a, b)] on ints. *)
Definition max2 (a b : Z) : Z := if (a <? b)%Z then b else a.

(** [seq[i]] for [i >= 0]. *)
Definition getitem {A : Type} (l : list A) (i : nat) : result A :=
  match nth_error l i with
  | Some a => Ok a
  | None => Raise IndexError
  end.

(** [seq[-1]]. *)
Definition getlast {A : Type} (l : list A) : result A :=
  match rev l with
  | a :: _ => Ok a
  | [] => Raise IndexError
  end.

End Py.

(** Python on binary64 floats. *)
Module PyFloat.
Import Binary64.

(** [float(n)], also the conversion of the int operand of a mixed
    operation: [OverflowError] when [n] is too large. *)
Definition of_int (n : Z) : result float :=
  match of_Z n with
  | fin q => Ok (fin q)
  | _ => Raise OverflowError
  end.

(** [int(x)]: truncation toward zero; [ValueError] on NaN,
    [OverflowError] on an infinity. *)
Definition int (x : float) : result Z :=
  match x with
  | fin q => Ok (Py.int q)
  | inf _ => Raise OverflowError
  | nan => Raise ValueError
  end.

(** [a / b] on Python floats: raises on a zero divisor. *)
Definition truediv (a b : float) : result float :=
  if eqb b (fin 0) then Raise ZeroDivisionError else Ok (div a b).

(** [min(a, b)]: the first argument unless the second is smaller. *)
Definition min2 (a b : float) : float := if ltb b a then b else a.

End PyFloat.

(** ** main.py: synchronisation and nearest-sample lookup *)

(** The part of pandas that main.py relies on and does not define:
    [pd.to_timedelta(x, unit='s')], the conversion of a float number of
    seconds to a Timedelta in nanoseconds; it raises when the result does
    not fit. *)
Class Pandas : Type := {
  to_timedelta : Binary64.float -> result Z
}.

Module Main.
Import Binary64.

(** One row of the table read from ACCEL_CSV_PATH. *)
Record Reading : Type := mkReading {
  Timestamp : Z;                     (* TIME_COL, datetime64[ns] *)
  ACCEL_X : float;                   (* ACCEL_X_COL *)
  ACCEL_Y : float;                   (* ACCEL_Y_COL *)
  ACCEL_Z : float                    (* ACCEL_Z_COL *)
}.

(** A DataFrame with the default RangeIndex: the label of a row is its
    position.  The two columns that the script adds are kept apart from
    the columns of the file; [None] is a column that is not there.  A
    column that is there has one entry per row. *)
Record DataFrame : Type := mkDataFrame {
  readings : list Reading;
  adjusted_timestamp : option (list Z);      (* df['adjusted_timestamp'] *)
  relative_sec : option (list float)         (* df['relative_sec'] *)
}.

(** [df[name]] for one of the two added columns: [KeyError] when the
    column is missing. *)
Definition column {A : Type} (c : option (list A)) : result (list A) :=
  match c with
  | Some values => Ok values
  | None => Raise KeyError
  end.

(** The values of [datetime64[ns]] and of [timedelta64[ns]]: the int64
    numbers but the least, which is NaT. *)
Definition int64 (z : Z) : bool := ((- 2 ^ 63 <? z) && (z <? 2 ^ 63))%Z.

(** The result of an addition or subtraction on such values: pandas
    raises when it does not fit. *)
Definition checked (z : Z) : result Z :=
  if int64 z then Ok z else Raise OverflowError.

(** [Series.min()]; [None] is NaT, the minimum of an empty column. *)
Definition series_min (s : list Z) : option Z :=
  match s with
  | [] => None
  | a :: s' => Some (fold_left Z.min s' a)
  end.

(** [Timedelta.total_seconds()]: the nanoseconds, converted to float64,
    divided by 10^9. *)
Definition total_seconds (ns : Z) : float :=
  div (of_Z ns) (fin 1000000000).

(** [Series.idxmin()]: the label of the first occurrence of the least
    value, NaN entries being skipped; [ValueError] on an empty series,
    NA ([None]) when every entry is NaN. *)
Fixpoint idxmin_from (best : option (nat * float)) (i : nat) (s : list float)
  : option nat :=
  match s with
  | [] => option_map fst best
  | v :: s' =>
      if is_nan v then idxmin_from best (S i) s'
      else
        match best with
        | None => idxmin_from (Some (i, v)) (S i) s'
        | Some (_, b) =>
            if ltb v b then idxmin_from (Some (i, v)) (S i) s'
            else idxmin_from best (S i) s'
        end
  end.

Definition idxmin (s : list float) : result (option nat) :=
  match s with
  | [] => Raise ValueError
  | _ :: _ => Ok (idxmin_from None 0 s)
  end.

(** A row taken out of a table: the values of the columns of the file and
    of the added columns that are there. *)
Record Row : Type := mkRow {
  row_reading : Reading;
  row_adjusted_timestamp : option Z;
  row_relative_sec : option float
}.

(** Such a row is a pandas Series: it carries the label of the row as
    its [name]. *)
Record Series : Type := mkSeries {
  name : nat;
  values : Row
}.

Definition cell {A : Type} (c : option (list A)) (i : nat) : option A :=
  match c with
  | Some values => nth_error values i
  | None => None
  end.

(** [df.loc[idx]]: [KeyError] for NA and for a label that is not in the
    index. *)
Definition loc (df : DataFrame) (idx : option nat) : result Series :=
  match idx with
  | None => Raise KeyError
  | Some i =>
      match nth_error (readings df) i with
      | Some r =>
          Ok (mkSeries i (mkRow r (cell (adjusted_timestamp df) i)
                                (cell (relative_sec df) i)))
      | None => Raise KeyError
      end
  end.

Section WithPandas.
Context {pandas : Pandas}.

(** [synchronize_timestamps(df, video_info, manual_offset)]: the column
    'adjusted_timestamp' is (re)computed from TIME_COL.  The function
    updates [df] in place and returns it; the embedding returns the table
    after the update.  [video_info] is not used by the function. *)
Definition synchronize_timestamps (df : DataFrame) (manual_offset : float)
  : result DataFrame :=
  offset <- to_timedelta manual_offset ;;
  adjusted <- mapM (fun r => checked (Timestamp r + offset)%Z) (readings df) ;;
  Ok (mkDataFrame (readings df) (Some adjusted) (relative_sec df)).

(** [get_accel_at_time(df, target_time)]: returns the table, which now
    carries the column 'relative_sec', and the selected row.  On an
    empty table the minimum is NaT, 'relative_sec' is an empty column
    and [idxmin] raises. *)
Definition get_accel_at_time (df : DataFrame) (target_time : float)
  : result (DataFrame * Series) :=
  adjusted <- column (adjusted_timestamp df) ;;
  deltas <-
    match series_min adjusted with
    | None => Ok []
    | Some min_time => mapM (fun a => checked (a - min_time)%Z) adjusted
    end ;;
  let rel := map total_seconds deltas in
  let df := mkDataFrame (readings df) (adjusted_timestamp df) (Some rel) in
  idx <- idxmin (map (fun r => abs (sub r target_time)) rel) ;;
  row <- loc df idx ;;
  Ok (df, row).

End WithPandas.

End Main.

(** ** OpenCV: frames, captures, writers *)

(** Pixel buffers and the two pixel operations the scripts call are
    OpenCV's: the interpolation done by [cv2.resize] and the buffer built by
    [cv2.hconcat]. *)
Class OpenCV : Type := {
  Pixels : Type;
  resize_pixels : Pixels -> Z * Z -> Pixels;
  hconcat_pixels : list Pixels -> Pixels
}.

Module cv2.
Import Binary64.
Section WithOpenCV.
Context {opencv : OpenCV}.

(** A decoded frame; [frame.shape] is [(height, width, _)]. *)
Record Frame : Type := mkFrame {
  height : Z;
  width : Z;
  data : Pixels
}.

(** A video file: what the container reports about the stream, and the
    frames that decoding delivers, each with its own size. *)
Record Video : Type := mkVideo {
  video_fps : float;                 (* CAP_PROP_FPS *)
  video_width : Z;                   (* CAP_PROP_FRAME_WIDTH *)
  video_height : Z;                  (* CAP_PROP_FRAME_HEIGHT *)
  video_frame_count : Z;             (* CAP_PROP_FRAME_COUNT *)
  video_frames : list Frame
}.

(** [cv2.VideoCapture]: a video and the index of the next frame to
    decode. *)
Record VideoCapture : Type := mkCapture {
  source : Video;
  CAP_PROP_POS_FRAMES : nat
}.

(** [cv2.VideoCapture(path)]. *)
Definition VideoCapture_open (v : Video) : VideoCapture := mkCapture v 0.

(** [cap.get(cv2.CAP_PROP_FPS)]. *)
Definition CAP_PROP_FPS (cap : VideoCapture) : float := video_fps (source cap).

(** [cap.set(cv2.CAP_PROP_POS_FRAMES, n)]. *)
Definition set_POS_FRAMES (cap : VideoCapture) (n : Z) : VideoCapture :=
  mkCapture (source cap) (Z.to_nat n).

(** [cap.read()]: [(ret, frame)] and the capture after the call. *)
Definition read (cap : VideoCapture) : option Frame * VideoCapture :=
  match nth_error (video_frames (source cap)) (CAP_PROP_POS_FRAMES cap) with
  | Some frame =>
      (Some frame, mkCapture (source cap) (S (CAP_PROP_POS_FRAMES cap)))
  | None => (None, cap)
  end.

(** Frames still to be decoded. *)
Definition remaining (cap : VideoCapture) : nat :=
  length (video_frames (source cap)) - CAP_PROP_POS_FRAMES cap.

(** [cv2.resize(src, (w, h))]: fails on an empty source or an empty
    destination size. *)
Definition resize (src : Frame) (dsize : Z * Z) : result Frame :=
  let '(w, h) := dsize in
  if ((0 <? width src) && (0 <? height src) && (0 <? w) && (0 <? h))%Z
  then Ok (mkFrame h w (resize_pixels (data src) dsize))
  else Raise cv2_error.

(** [cv2.hconcat(frames)]: all frames must have the same number of
    rows. *)
Definition hconcat (frames : list Frame) : result Frame :=
  match frames with
  | [] => Raise cv2_error
  | f :: fs =>
      if forallb (fun g => (height g =? height f)%Z) fs
      then Ok (mkFrame (height f)
                       (fold_left Z.add (map width fs) (width f))
                       (hconcat_pixels (map data frames)))
      else Raise cv2_error
  end.

(** [cv2.VideoWriter(path, fourcc, fps, frameSize)] and the frames
    handed to [write] so far, oldest first. *)
Record VideoWriter : Type := mkWriter {
  writer_fps : float;
  frameSize : Z * Z;
  written : list Frame
}.

Definition VideoWriter_open (fps : float) (size : Z * Z) : VideoWriter :=
  mkWriter fps size [].

(** [out.write(frame)]. *)
Definition write (out : VideoWriter) (frame : Frame) : VideoWriter :=
  mkWriter (writer_fps out) (frameSize out) (written out ++ [frame]).

End WithOpenCV.
End cv2.

(** ** combine_three_videos.py *)

Module CombineThreeVideos.
Import Binary64 cv2.
Section WithOpenCV.
Context {opencv : OpenCV}.

(** [ratio = target_height / float(h)] and [new_width = int(w * ratio)]:
    the ints are converted to floats, the quotient and the product are
    rounded. *)
Definition resize_to_height (frame : Frame) (target_height : Z)
  : result Frame :=
  let h := height frame in
  let w := width frame in
  if (h =? target_height)%Z then Ok frame
  else
    float_h <- PyFloat.of_int h ;;
    float_target_height <- PyFloat.of_int target_height ;;
    ratio <- PyFloat.truediv float_target_height float_h ;;
    float_w <- PyFloat.of_int w ;;
    new_width <- PyFloat.int (mul float_w ratio) ;;
    resize frame (new_width, target_height).

(** [cap.get(cv2.CAP_PROP_FPS) or 30]: 30 when the rate is 0. *)
Definition fps_or_30 (cap : VideoCapture) : float :=
  if eqb (CAP_PROP_FPS cap) (fin 0) then fin 30 else CAP_PROP_FPS cap.

(** [if start_offset > 0: cap.set(cv2.CAP_PROP_POS_FRAMES,
    int(start_offset * fps))]. *)
Definition skip_offset (cap : VideoCapture) (start_offset fps : float)
  : result VideoCapture :=
  if ltb (fin 0) start_offset
  then
    n <- PyFloat.int (mul start_offset fps) ;;
    Ok (set_POS_FRAMES cap n)
  else Ok cap.

(** The variables live across the iterations of the main loop. *)
Record LoopState : Type := mkState {
  cap1 : VideoCapture;
  cap2 : VideoCapture;
  cap3 : VideoCapture;
  out : VideoWriter
}.

(** One iteration of [while True]: [Ok None] is [break]. *)
Definition loop_body (target_height : Z) (s : LoopState)
  : result (option LoopState) :=
  let '(ret1, cap1') := read (cap1 s) in
  let '(ret2, cap2') := read (cap2 s) in
  let '(ret3, cap3') := read (cap3 s) in
  match ret1, ret2, ret3 with
  | Some frame1, Some frame2, Some frame3 =>
      frame2 <- resize_to_height frame2 target_height ;;
      frame3 <- resize_to_height frame3 target_height ;;
      composite_frame <- hconcat [frame1; frame2; frame3] ;;
      Ok (Some (mkState cap1' cap2' cap3' (write (out s) composite_frame)))
  | _, _, _ => Ok None
  end.

(** [while True: ...] until one video ends; the writer at loop exit. *)
Equations? main_loop (target_height : Z) (s : LoopState)
  : result VideoWriter by wf (remaining (cap1 s)) lt :=
  main_loop target_height s with inspect (loop_body target_height s) := {
    | exist _ (Raise e) _ := Raise e;
    | exist _ (Ok None) _ := Ok (out s);
    | exist _ (Ok (Some s')) H := main_loop target_height s' }.
Proof.
  clear main_loop. revert H. unfold loop_body, read, remaining.
  destruct (nth_error (video_frames (source (cap1 s))) _) eqn:E1;
    destruct (nth_error (video_frames (source (cap2 s))) _);
    destruct (nth_error (video_frames (source (cap3 s))) _);
    try discriminate.
  destruct (resize_to_height _ _); try discriminate; cbn [bind].
  destruct (resize_to_height _ _); try discriminate; cbn [bind].
  destruct (hconcat _); try discriminate; cbn [bind].
  intros [= <-]. cbn.
  assert (CAP_PROP_POS_FRAMES (cap1 s)
          < length (video_frames (source (cap1 s)))).
  { apply nth_error_Some. rewrite E1. discriminate. }
  lia.
Qed.

(** [create_three_video_composite]: [Ok None] is the early return after
    "Error reading initial frames", [Ok (Some out)] the released
    writer. *)
Definition create_three_video_composite
           (video1 video2 video3 : Video)
           (start_offset1 start_offset2 start_offset3 : float)
  : result (option VideoWriter) :=
  let cap1 := VideoCapture_open video1 in
  let cap2 := VideoCapture_open video2 in
  let cap3 := VideoCapture_open video3 in
  let fps1 := fps_or_30 cap1 in
  let fps2 := fps_or_30 cap2 in
  let fps3 := fps_or_30 cap3 in
  let fps := PyFloat.min2 (PyFloat.min2 fps1 fps2) fps3 in
  cap1 <- skip_offset cap1 start_offset1 fps1 ;;
  cap2 <- skip_offset cap2 start_offset2 fps2 ;;
  cap3 <- skip_offset cap3 start_offset3 fps3 ;;
  let '(ret1, cap1) := read cap1 in
  let '(ret2, cap2) := read cap2 in
  let '(ret3, cap3) := read cap3 in
  match ret1, ret2, ret3 with
  | Some frame1, Some frame2, Some frame3 =>
      let target_height := height frame1 in
      frame2 <- resize_to_height frame2 target_height ;;
      frame3 <- resize_to_height frame3 target_height ;;
      let composite_width := (width frame1 + width frame2 + width frame3)%Z in
      let composite_height := target_height in
      let out := VideoWriter_open fps (composite_width, composite_height) in
      composite_frame <- hconcat [frame1; frame2; frame3] ;;
      let out := write out composite_frame in
      out <- main_loop target_height (mkState cap1 cap2 cap3 out) ;;
      Ok (Some out)
  | _, _, _ => Ok None
  end.

End WithOpenCV.
End CombineThreeVideos.

(** ** create_side_by_side_video_offset.py *)

Module CreateSideBySideVideoOffset.
Import Binary64 cv2.
Section WithOpenCV.
Context {opencv : OpenCV}.

(** [fps = cap.get(cv2.CAP_PROP_FPS); if fps <= 0: fps = 30]. *)
Definition fps_or_30 (cap : VideoCapture) : float :=
  if leb (CAP_PROP_FPS cap) (fin 0) then fin 30 else CAP_PROP_FPS cap.

(** [if start_offset > 0: skip_frames = int(start_offset * fps);
    cap.set(cv2.CAP_PROP_POS_FRAMES, skip_frames)]. *)
Definition skip_offset (cap : VideoCapture) (start_offset fps : float)
  : result VideoCapture :=
  if ltb (fin 0) start_offset
  then
    skip_frames <- PyFloat.int (mul start_offset fps) ;;
    Ok (set_POS_FRAMES cap skip_frames)
  else Ok cap.

(** "Match heights without distorting the second frame": the block
    [if h1 != h2: ...], which the script has once before the loop and
    once inside it. *)
Definition match_heights (frame1 frame2 : Frame) : result Frame :=
  let h1 := height frame1 in
  let h2 := height frame2 in
  let w2 := width frame2 in
  if negb (h1 =? h2)%Z then
    float_h2 <- PyFloat.of_int h2 ;;
    float_h1 <- PyFloat.of_int h1 ;;
    ratio <- PyFloat.truediv float_h1 float_h2 ;;
    float_w2 <- PyFloat.of_int w2 ;;
    new_w2 <- PyFloat.int (mul float_w2 ratio) ;;
    resize frame2 (new_w2, h1)
  else Ok frame2.

Record LoopState : Type := mkState {
  cap1 : VideoCapture;
  cap2 : VideoCapture;
  out : VideoWriter
}.

(** One iteration of [while True]: [Ok None] is [break]. *)
Definition loop_body (s : LoopState) : result (option LoopState) :=
  let '(ret1, cap1') := read (cap1 s) in
  let '(ret2, cap2') := read (cap2 s) in
  match ret1, ret2 with
  | Some frame1, Some frame2 =>
      frame2 <- match_heights frame1 frame2 ;;
      combined <- hconcat [frame1; frame2] ;;
      Ok (Some (mkState cap1' cap2' (write (out s) combined)))
  | _, _ => Ok None
  end.

Equations? main_loop (s : LoopState)
  : result VideoWriter by wf (remaining (cap1 s)) lt :=
  main_loop s with inspect (loop_body s) := {
    | exist _ (Raise e) _ := Raise e;
    | exist _ (Ok None) _ := Ok (out s);
    | exist _ (Ok (Some s')) H := main_loop s' }.
Proof.
  clear main_loop. revert H. unfold loop_body, read, remaining.
  destruct (nth_error (video_frames (source (cap1 s))) _) eqn:E1;
    destruct (nth_error (video_frames (source (cap2 s))) _);
    try discriminate.
  destruct (match_heights _ _); try discriminate; cbn [bind].
  destruct (hconcat _); try discriminate; cbn [bind].
  intros [= <-]. cbn.
  assert (CAP_PROP_POS_FRAMES (cap1 s)
          < length (video_frames (source (cap1 s)))).
  { apply nth_error_Some. rewrite E1. discriminate. }
  lia.
Qed.

(** [create_side_by_side_video]: [Ok None] is the early return after
    "One of the videos has no frames after skipping offsets". *)
Definition create_side_by_side_video
           (video1 video2 : Video)
           (start_offset_video1 start_offset_video2 : float)
  : result (option VideoWriter) :=
  let cap1 := VideoCapture_open video1 in
  let cap2 := VideoCapture_open video2 in
  let fps1 := fps_or_30 cap1 in
  let fps2 := fps_or_30 cap2 in
  let fps := PyFloat.min2 fps1 fps2 in
  cap1 <- skip_offset cap1 start_offset_video1 fps1 ;;
  cap2 <- skip_offset cap2 start_offset_video2 fps2 ;;
  let '(ret1, cap1) := read cap1 in
  let '(ret2, cap2) := read cap2 in
  match ret1, ret2 with
  | Some frame1, Some frame2 =>
      let h1 := height frame1 in
      let w1 := width frame1 in
      frame2 <- match_heights frame1 frame2 ;;
      let h2 := height frame2 in
      let w2 := width frame2 in
      let out_width := (w1 + w2)%Z in
      let out_height := Py.max2 h1 h2 in
      let out := VideoWriter_open fps (out_width, out_height) in
      combined <- hconcat [frame1; frame2] ;;
      let out := write out combined in
      out <- main_loop (mkState cap1 cap2 out) ;;
      Ok (Some out)
  | _, _ => Ok None
  end.

End WithOpenCV.
End CreateSideBySideVideoOffset.

(** ** animate_sensor_data.py and animate_single_axis_data.py

    Both scripts map the index of an animation frame to a time between the
    first and the last entry of [time_data].  Of [update] the embedding
    keeps the time [t] at which the data are cut and the cursor is drawn;
    the matplotlib calls are outside the model. *)

Definition FPS : Z := 30.

Module AnimateSensorData.

(** The module-level computation of [num_frames]. *)
Definition num_frames (time_data : list Q) : result Z :=
  last <- Py.getlast time_data ;;
  first <- Py.getitem time_data 0 ;;
  let total_time := (last - first)%Q in
  let total_time :=
    if Qle_bool total_time 0 then inject_Z (Z.of_nat (length time_data))
    else total_time in
  let num_frames :=
    if Py.Qltb 0 total_time then Py.int (inject_Z FPS * total_time)%Q
    else Z.of_nat (length time_data) in
  let num_frames :=
    if (num_frames <? 1)%Z then Z.of_nat (length time_data) else num_frames in
  Ok num_frames.

(** [update(frame_idx)]: the time [t]. *)
Definition update (time_data : list Q) (num_frames : Z) (frame_idx : Z)
  : result Q :=
  t0 <- Py.getitem time_data 0 ;;
  last <- Py.getlast time_data ;;
  t0' <- Py.getitem time_data 0 ;;
  frac <- Py.truediv (inject_Z frame_idx) (inject_Z (num_frames - 1)) ;;
  Ok (t0 + (last - t0') * frac)%Q.

End AnimateSensorData.

Module AnimateSingleAxisData.

(** The module-level computation of [num_frames]. *)
Definition num_frames (time_data : list Q) : result Z :=
  total_time <-
    (if (1 <? length time_data)%nat then
       last <- Py.getlast time_data ;;
       first <- Py.getitem time_data 0 ;;
       Ok (last - first)%Q
     else Ok 0%Q) ;;
  let total_time :=
    if Qle_bool total_time 0 then inject_Z (Z.of_nat (length time_data))
    else total_time in
  let num_frames :=
    if Py.Qltb 0 total_time then Py.int (inject_Z FPS * total_time)%Q
    else Z.of_nat (length time_data) in
  let num_frames :=
    if (num_frames <? 1)%Z then Z.of_nat (length time_data) else num_frames in
  Ok num_frames.

(** [update(frame_idx)]: the time [t]. *)
Definition update (time_data : list Q) (num_frames : Z) (frame_idx : Z)
  : result Q :=
  if (1 <? num_frames)%Z then
    t0 <- Py.getitem time_data 0 ;;
    last <- Py.getlast time_data ;;
    t0' <- Py.getitem time_data 0 ;;
    frac <- Py.truediv (inject_Z frame_idx) (inject_Z (num_frames - 1)) ;;
    Ok (t0 + (last - t0') * frac)%Q
  else Py.getitem time_data 0.

End AnimateSingleAxisData.

(** ** main.py: video metadata, the annotated video, the plain
    side-by-side video *)

(** Python's formatting of a float: [format_f w p x] is
    [format(x, 'w.pf')]. *)
Class PyFormat : Type := {
  format_f : nat -> nat -> Binary64.float -> String.string
}.

(** The drawing functions of OpenCV that main.py calls.  Both draw into the
    image they are given and leave its size as it is.  The font is always
    FONT_HERSHEY_SIMPLEX; the last argument of [putText] tells whether the
    call asks for LINE_AA. *)
Class Drawing {opencv : OpenCV} : Type := {
  putText : Pixels -> String.string -> Z * Z -> Binary64.float -> Z * Z * Z
            -> Z -> bool -> Pixels;
  line : Pixels -> Z * Z -> Z * Z -> Z * Z * Z -> Z -> Pixels
}.

Module MainVideo.
Import Binary64 cv2 Main.
Import String.

(** What [video_path] names on disk. *)
Inductive VideoFile {opencv : OpenCV} : Type :=
| NoFile                      (* os.path.exists is False *)
| NotAVideo                   (* the file cannot be opened as a video *)
| VideoAt (v : Video).

(** The exceptions of [get_video_info]. *)
Inductive OSError : Set :=
| FileNotFoundError
| IOError.

(** The dictionary [info]. *)
Record VideoInfo : Type := mkInfo {
  info_fps : float;
  info_frame_count : Z;
  info_width : Z;
  info_height : Z;
  info_duration : float
}.

Section WithOpenCV.
Context {opencv : OpenCV} {drawing : Drawing} {fmt : PyFormat}.

(** [get_video_info(video_path)].  The frame count, the width and the
    height are what the container reports; [frame_count / fps] converts
    the count to a float. *)
Definition get_video_info (video_path : VideoFile) : OSError + VideoInfo :=
  match video_path with
  | NoFile => inl FileNotFoundError
  | NotAVideo => inl IOError
  | VideoAt v =>
      let cap := VideoCapture_open v in
      let fps := CAP_PROP_FPS cap in
      let frame_count := video_frame_count (source cap) in
      let width := video_width (source cap) in
      let height := video_height (source cap) in
      let duration :=
        if negb (Binary64.eqb fps (fin 0)) then div (of_Z frame_count) fps
        else fin 0 in
      inr (mkInfo fps frame_count width height duration)
  end.

(** The overlay drawn on one frame: the text line, then one segment and
    one label per axis.  [int] raises on an acceleration that is NaN or
    infinite. *)
Definition draw_overlay (frame : Frame) (current_time_s : float)
           (accel_row : Row) : result Frame :=
  let ax := ACCEL_X (row_reading accel_row) in
  let ay := ACCEL_Y (row_reading accel_row) in
  let az := ACCEL_Z (row_reading accel_row) in
  let text :=
    ("t=" ++ format_f 4 2 current_time_s ++ "s, Ax=" ++ format_f 0 2 ax
          ++ ", Ay=" ++ format_f 0 2 ay ++ ", Az=" ++ format_f 0 2 az)%string in
  let img := data frame in
  let img := putText img text (30, 50)%Z (fin 1) (0, 255, 0)%Z 2%Z true in
  let scale := fin 20 in
  let center_x := 100%Z in
  let center_y := 150%Z in
  x_scaled <- PyFloat.int (mul ax scale) ;;
  let x_endpoint := (center_x + x_scaled)%Z in
  let img := line img (center_x, center_y) (x_endpoint, center_y)
                  (255, 0, 0)%Z 2%Z in
  let img := putText img "Ax" (x_endpoint + 5, center_y)%Z (fin (1 # 2))
                     (255, 0, 0)%Z 2%Z false in
  y_scaled <- PyFloat.int (mul ay scale) ;;
  let y_endpoint := (center_y - y_scaled)%Z in
  let img := line img (center_x, center_y) (center_x, y_endpoint)
                  (0, 255, 0)%Z 2%Z in
  let img := putText img "Ay" (center_x, y_endpoint - 5)%Z (fin (1 # 2))
                     (0, 255, 0)%Z 2%Z false in
  z_scaled_x <- PyFloat.int (mul (mul az scale) (of_Q (7 # 10))) ;;
  let z_endpoint_x := (center_x + z_scaled_x)%Z in
  z_scaled_y <- PyFloat.int (mul (mul az scale) (of_Q (7 # 10))) ;;
  let z_endpoint_y := (center_y + z_scaled_y)%Z in
  let img := line img (center_x, center_y) (z_endpoint_x, z_endpoint_y)
                  (0, 0, 255)%Z 2%Z in
  let img := putText img "Az" (z_endpoint_x + 5, z_endpoint_y)%Z (fin (1 # 2))
                     (0, 0, 255)%Z 2%Z false in
  Ok (mkFrame (height frame) (width frame) img).

(** [frame_index / video_info['fps']]: the int is converted to a
    float. *)
Definition frame_time (frame_index : Z) (fps : float) : result float :=
  float_index <- PyFloat.of_int frame_index ;;
  PyFloat.truediv float_index fps.

(** The variables live across the iterations of the loop of
    [create_annotated_video]; [df] is the table, which [get_accel_at_time]
    updates. *)
Record AnnotateState : Type := mkAnnotate {
  cap : VideoCapture;
  out : VideoWriter;
  frame_index : Z;
  df : DataFrame
}.

(** One iteration of [while True]: [Ok None] is [break]. *)
Definition annotate_body (video_info : VideoInfo) (s : AnnotateState)
  : result (option AnnotateState) :=
  let '(ret, cap') := read (cap s) in
  match ret with
  | None => Ok None
  | Some frame =>
      current_time_s <- frame_time (frame_index s) (info_fps video_info) ;;
      ' (df', accel_row) <- get_accel_at_time (df s) current_time_s ;;
      frame <- draw_overlay frame current_time_s (values accel_row) ;;
      Ok (Some (mkAnnotate cap' (write (out s) frame)
                           (frame_index s + 1)%Z df'))
  end.

Equations? annotate_loop (video_info : VideoInfo) (s : AnnotateState)
  : result (DataFrame * VideoWriter) by wf (remaining (cap s)) lt :=
  annotate_loop video_info s with inspect (annotate_body video_info s) := {
    | exist _ (Raise e) _ := Raise e;
    | exist _ (Ok None) _ := Ok (df s, out s);
    | exist _ (Ok (Some s')) H := annotate_loop video_info s' }.
Proof.
  clear annotate_loop. revert H. unfold annotate_body, read, remaining.
  destruct (nth_error (video_frames (source (cap s))) _) eqn:E1;
    try discriminate.
  destruct (frame_time _ _); try discriminate; cbn [bind].
  destruct (get_accel_at_time _ _) as [[df' row]|]; try discriminate;
    cbn [bind].
  destruct (draw_overlay _ _ _); try discriminate; cbn [bind].
  intros [= <-]. cbn.
  assert (CAP_PROP_POS_FRAMES (cap s)
          < List.length (video_frames (source (cap s)))).
  { apply nth_error_Some. rewrite E1. discriminate. }
  lia.
Qed.

(** [create_annotated_video(df, video_info, video_path, output_path)]:
    the table after the run and the released writer.  The minimum of
    'adjusted_timestamp' is taken before the loop and not used; taking it
    raises [KeyError] when the column is missing. *)
Definition create_annotated_video (df : DataFrame) (video_info : VideoInfo)
           (video : Video) : result (DataFrame * VideoWriter) :=
  let cap := VideoCapture_open video in
  let out := VideoWriter_open (info_fps video_info)
                              (info_width video_info, info_height video_info) in
  let frame_index := 0%Z in
  adjusted <- column (adjusted_timestamp df) ;;
  let min_time := series_min adjusted in
  annotate_loop video_info (mkAnnotate cap out frame_index df).

(** The variables live across the iterations of the loop of
    [create_side_by_side_video]. *)
Record PairState : Type := mkPair {
  cap1 : VideoCapture;
  cap2 : VideoCapture;
  pair_out : VideoWriter
}.

(** One iteration of [while True]: [Ok None] is [break]. *)
Definition pair_body (width1 height1 height2 : Z) (s : PairState)
  : result (option PairState) :=
  let '(ret1, cap1') := read (cap1 s) in
  let '(ret2, cap2') := read (cap2 s) in
  match ret1, ret2 with
  | Some frame1, Some frame2 =>
      frame2 <-
        (if negb (height1 =? height2)%Z
         then resize frame2 (width1, height1)
         else Ok frame2) ;;
      combined <- hconcat [frame1; frame2] ;;
      Ok (Some (mkPair cap1' cap2' (write (pair_out s) combined)))
  | _, _ => Ok None
  end.

Equations? pair_loop (width1 height1 height2 : Z) (s : PairState)
  : result VideoWriter by wf (remaining (cap1 s)) lt :=
  pair_loop width1 height1 height2 s
    with inspect (pair_body width1 height1 height2 s) := {
    | exist _ (Raise e) _ := Raise e;
    | exist _ (Ok None) _ := Ok (pair_out s);
    | exist _ (Ok (Some s')) H := pair_loop width1 height1 height2 s' }.
Proof.
  clear pair_loop. revert H. unfold pair_body, read, remaining.
  destruct (nth_error (video_frames (source (cap1 s))) _) eqn:E1;
    destruct (nth_error (video_frames (source (cap2 s))) _);
    try discriminate.
  destruct (if negb _ then _ else _); try discriminate; cbn [bind].
  destruct (hconcat _); try discriminate; cbn [bind].
  intros [= <-]. cbn.
  assert (CAP_PROP_POS_FRAMES (cap1 s)
          < List.length (video_frames (source (cap1 s)))).
  { apply nth_error_Some. rewrite E1. discriminate. }
  lia.
Qed.

(** [create_side_by_side_video(video_path1, video_path2, output_path)] of
    main.py: no start offsets, the writer is opened before the first
    read, with the sizes that the containers report. *)
Definition create_side_by_side_video (video1 video2 : Video)
  : result VideoWriter :=
  let cap1 := VideoCapture_open video1 in
  let cap2 := VideoCapture_open video2 in
  let fps1 := CAP_PROP_FPS cap1 in
  let fps2 := CAP_PROP_FPS cap2 in
  let fps := PyFloat.min2 fps1 fps2 in
  let width1 := video_width (source cap1) in
  let height1 := video_height (source cap1) in
  let width2 := video_width (source cap2) in
  let height2 := video_height (source cap2) in
  let out_width := (width1 + width2)%Z in
  let out_height := Py.max2 height1 height2 in
  let out := VideoWriter_open fps (out_width, out_height) in
  pair_loop width1 height1 height2 (mkPair cap1 cap2 out).

End WithOpenCV.
End MainVideo.

(** ** The animation scripts: what a frame shows, the axis limits *)

(** The part of NumPy that the animation scripts rely on and do not
    define: [np.searchsorted(a, v, side='right')]. *)
Class NumPy : Type := {
  searchsorted_right : list Q -> Q -> nat
}.

Module Np.

(** [max(a, b)] on floats: the first argument unless the second is
    greater. *)
Definition max2 (a b : Q) : Q := if Py.Qltb a b then b else a.

(** [a.min()] and [np.min(a)]: [ValueError] on an empty array. *)
Definition amin (a : list Q) : result Q :=
  match a with
  | [] => Raise ValueError
  | x :: a' => Ok (fold_left Py.min2 a' x)
  end.

(** [a.max()] and [np.max(a)]. *)
Definition amax (a : list Q) : result Q :=
  match a with
  | [] => Raise ValueError
  | x :: a' => Ok (fold_left max2 a' x)
  end.

End Np.

Module AnimateSensorDataPlot.
Section WithNumPy.
Context {numpy : NumPy}.

(** [update(frame_idx)]: the time [t] and the data handed to the three
    lines, [time_data[:idx]] with [x_data[:idx]], [y_data[:idx]] and
    [z_data[:idx]]. *)
Definition update (time_data x_data y_data z_data : list Q)
           (num_frames frame_idx : Z)
  : result (Q * (list Q * list Q) * (list Q * list Q) * (list Q * list Q)) :=
  t <- AnimateSensorData.update time_data num_frames frame_idx ;;
  let idx := searchsorted_right time_data t in
  Ok (t,
      (firstn idx time_data, firstn idx x_data),
      (firstn idx time_data, firstn idx y_data),
      (firstn idx time_data, firstn idx z_data)).

End WithNumPy.

(** The limits given to [ax.set_ylim]. *)
Definition ylim (x_data y_data z_data : list Q) : result (Q * Q) :=
  x_min <- Np.amin x_data ;;
  y_min <- Np.amin y_data ;;
  z_min <- Np.amin z_data ;;
  let y_min := (Py.min2 (Py.min2 x_min y_min) z_min * (11 # 10))%Q in
  x_max <- Np.amax x_data ;;
  y_max <- Np.amax y_data ;;
  z_max <- Np.amax z_data ;;
  let y_max := (Np.max2 (Np.max2 x_max y_max) z_max * (11 # 10))%Q in
  Ok (y_min, y_max).

End AnimateSensorDataPlot.

Module AnimateSingleAxisDataPlot.
Section WithNumPy.
Context {numpy : NumPy}.

(** [update(frame_idx)]: the time [t] and the data handed to the line,
    [time_data[:idx]] with [y_data[:idx]]. *)
Definition update (time_data y_data : list Q) (num_frames frame_idx : Z)
  : result (Q * (list Q * list Q)) :=
  t <- AnimateSingleAxisData.update time_data num_frames frame_idx ;;
  let idx := searchsorted_right time_data t in
  Ok (t, (firstn idx time_data, firstn idx y_data)).

End WithNumPy.

(** The limits given to [ax.set_ylim]. *)
Definition ylim (y_data : list Q) : result (Q * Q) :=
  y_min <- Np.amin y_data ;;
  y_max <- Np.amax y_data ;;
  let padding :=
    if Py.Qltb 0 (y_max - y_min) then ((1 # 10) * (y_max - y_min))%Q
    else 1%Q in
  Ok (y_min - padding, y_max + padding)%Q.

End AnimateSingleAxisDataPlot.

(** ** Vocabulary of the statements *)

(** Python's [round(x)] on the value of a finite float: to the nearest
    integer, halves to the even one.  The scripts never call it; the
    statements about rounding are compared against it. *)
Definition py_round (x : Q) : Z := Binary64.rne x.

Module MainSpec.
Import Binary64 Main.

(** The columns read from the CSV file. *)
Definition sample (r : Row) : Reading := row_reading r.

(** Distance, in seconds, between the query time [t] and the instant [a]
    counted from the instant [origin], as the lookup computes it: the
    difference of the timestamps is exact, the division by 10^9 and the
    subtraction of [t] are rounded. *)
Definition distance (origin : Z) (t : float) (a : Z) : float :=
  abs (sub (total_seconds (a - origin)) t).

(** The differences between the timestamps of a column are
    timedeltas. *)
Definition span_fits (timestamps : list Z) : Prop :=
  forall a b, In a timestamps -> In b timestamps -> int64 (a - b) = true.

(** A column of timestamps in ascending order; equal timestamps are
    allowed. *)
Definition sorted (timestamps : list Z) : Prop :=
  StronglySorted Z.le timestamps.

(** A row of the CSV file with a timestamp in whole seconds. *)
Definition raw (seconds : Z) (x : Q) : Reading :=
  mkReading (seconds * 1000000000) (of_Q x) (fin 0) (fin 0).

(** The table as read from the CSV file, before the script adds a
    column. *)
Definition loaded (rs : list Reading) : DataFrame := mkDataFrame rs None None.

(** What a lookup returns, the column 'adjusted_timestamp' put aside:
    the label and the values of the other columns of the row, the other
    columns of the table. *)
Definition drop_adjusted (r : result (DataFrame * Series))
  : result (list Reading * option (list float) * nat * Reading * option float) :=
  ' (df, s) <- r ;;
  Ok (readings df, relative_sec df, name s, row_reading (values s),
      row_relative_sec (values s)).

End MainSpec.

(** A conversion for the concrete examples: to the nearest nanosecond,
    [OutOfBoundsTimedelta] outside the int64 range. *)
Definition pandas_ns : Pandas :=
  {| to_timedelta := fun seconds =>
       match seconds with
       | Binary64.fin q =>
           let ns := Binary64.rne (q * inject_Z 1000000000)%Q in
           if Main.int64 ns then Ok ns else Raise OutOfBoundsTimedelta
       | Binary64.inf _ => Raise OverflowError
       | Binary64.nan => Raise ValueError
       end |}.

Module VideoSpec.
Import Binary64 cv2.
Section WithOpenCV.
Context {opencv : OpenCV}.

(** The frames a capture has not decoded yet. *)
Definition rest (cap : VideoCapture) : list Frame :=
  skipn (CAP_PROP_POS_FRAMES cap) (video_frames (source cap)).

(** The capture after one successful [read]. *)
Definition advance (cap : VideoCapture) : VideoCapture :=
  mkCapture (source cap) (S (CAP_PROP_POS_FRAMES cap)).

(** Number of frames that decoding a video delivers. *)
Definition frame_count (v : Video) : nat := length (video_frames v).

(** Number of leading frames that a start offset of [start_offset]
    seconds skips at [fps] frames per second: none unless the offset is
    positive, else [int(start_offset * fps)], the binary64 product
    truncated (0 where [int] raises or gives a negative number). *)
Definition offset_frames (start_offset fps : float) : nat :=
  if ltb (fin 0) start_offset then
    match PyFloat.int (mul start_offset fps) with
    | Ok n => Z.to_nat n
    | Raise _ => 0
    end
  else 0.

(** Number of frames in the output of a run; an aborted run writes no
    file. *)
Definition frames_written (r : option VideoWriter) : nat :=
  match r with
  | None => 0
  | Some out => length (written out)
  end.

Definition zip3 {A B C : Type} (a : list A) (b : list B) (c : list C)
  : list (A * B * C) :=
  combine (combine a b) c.

(** The composite of one frame of each of three videos, as
    combine_three_videos.py builds it. *)
Definition compose3 (target_height : Z) (p : Frame * Frame * Frame)
  : result Frame :=
  let '(frame1, frame2, frame3) := p in
  frame2 <- CombineThreeVideos.resize_to_height frame2 target_height ;;
  frame3 <- CombineThreeVideos.resize_to_height frame3 target_height ;;
  hconcat [frame1; frame2; frame3].

(** The composite of one frame of each of two videos, as
    create_side_by_side_video_offset.py builds it. *)
Definition compose2 (p : Frame * Frame) : result Frame :=
  let '(frame1, frame2) := p in
  frame2 <- CreateSideBySideVideoOffset.match_heights frame1 frame2 ;;
  hconcat [frame1; frame2].

(** The size of a frame as OpenCV gives a size: width first. *)
Definition size (f : Frame) : Z * Z := (width f, height f).

(** Every frame that decoding delivers has the size that the container
    reports. *)
Definition uniform (v : Video) : Prop :=
  Forall (fun f => size f = (video_width v, video_height v)) (video_frames v).

(** A frame dimension that OpenCV can hold: a positive C int. *)
Definition dimension (n : Z) : Prop := (0 < n < 2 ^ 31)%Z.

(** An int that [float()] represents exactly. *)
Definition exact_int (n : Z) : Prop := (Z.abs n < 2 ^ 53)%Z.

End WithOpenCV.
End VideoSpec.

(** What a run of a compositor writes, given the output rate [fps] and,
    for each video, the frames left after its start offset: nothing when
    one video has no frame left, else the composites of the frames taken
    in lock-step, in a writer opened with the size of the first composite.
    An exception in a composite ends the run. *)
Module CompositeSpec.
Import Binary64 cv2 VideoSpec.
Section WithOpenCV.
Context {opencv : OpenCV}.

Definition append_frames (out : VideoWriter) (fs : list Frame) : VideoWriter :=
  mkWriter (writer_fps out) (frameSize out) (written out ++ fs).

Definition first_size (fs : list Frame) : Z * Z :=
  match fs with
  | c :: _ => size c
  | [] => (0, 0)%Z
  end.

Definition composite {A : Type} (compose : A -> result Frame) (fps : float)
           (ps : list A) : result (option VideoWriter) :=
  match ps with
  | [] => Ok None
  | _ :: _ =>
      fs <- mapM compose ps ;;
      Ok (Some (mkWriter fps (first_size fs) fs))
  end.

(** The height of the first frame of the first video is the target
    height of the run. *)
Definition target_height (l1 : list Frame) : Z :=
  match l1 with
  | frame1 :: _ => height frame1
  | [] => 0%Z
  end.

Definition composite3 (fps : float) (l1 l2 l3 : list Frame)
  : result (option VideoWriter) :=
  composite (compose3 (target_height l1)) fps (zip3 l1 l2 l3).

Definition composite2 (fps : float) (l1 l2 : list Frame)
  : result (option VideoWriter) :=
  composite compose2 fps (combine l1 l2).

(** Every frame of the list can be brought to the height [h]. *)
Definition resizable (h : Z) (l : list Frame) : Prop :=
  Forall (fun f => is_ok (CombineThreeVideos.resize_to_height f h) = true) l.

(** Every frame of the list has the height [h]. *)
Definition level (h : Z) (l : list Frame) : Prop :=
  Forall (fun f => height f = h) l.

(** The start offset can be turned into a number of frames: it is not
    positive, or its product with the rate is finite. *)
Definition skippable (start_offset fps : float) : Prop :=
  ltb (fin 0) start_offset = true ->
  is_finite (mul start_offset fps) = true.

End WithOpenCV.
End CompositeSpec.

(** Pixel buffers for the concrete examples: a buffer is the list of the
    tags of the source frames it was made from. *)
Definition opencv_tags : OpenCV :=
  {| Pixels := list nat;
     resize_pixels := fun px _ => px;
     hconcat_pixels := @concat nat |}.

(** Further vocabulary for the compositors. *)
Module CompositeVocabulary.
Import Binary64 cv2 VideoSpec.
Section WithOpenCV.
Context {opencv : OpenCV}.

(** The video [v] with the frame rate [fps]. *)
Definition with_fps (fps : float) (v : Video) : Video :=
  mkVideo fps (video_width v) (video_height v) (video_frame_count v)
          (video_frames v).

(** A start offset with the values that are not positive replaced
    by 0. *)
Definition clamp_offset (o : float) : float :=
  if ltb (fin 0) o then o else fin 0.

End WithOpenCV.
End CompositeVocabulary.

(** Vocabulary for the videos of main.py. *)
Module MainVideoSpec.
Import Binary64 cv2 Main VideoSpec MainVideo.
Section WithOpenCV.
Context {opencv : OpenCV} {drawing : Drawing} {fmt : PyFormat}.

(** The annotated frames of the frames [fs], the first of which is the
    frame of index [i], and the table after the lookups. *)
Fixpoint annotate_frames (video_info : VideoInfo) (df : DataFrame) (i : Z)
         (fs : list Frame) : result (DataFrame * list Frame) :=
  match fs with
  | [] => Ok (df, [])
  | frame :: fs' =>
      t <- frame_time i (info_fps video_info) ;;
      ' (df', row) <- get_accel_at_time df t ;;
      frame <- draw_overlay frame t (values row) ;;
      ' (df'', annotated) <- annotate_frames video_info df' (i + 1)%Z fs' ;;
      Ok (df'', frame :: annotated)
  end.

(** An acceleration that the overlay can draw: a finite float of a
    magnitude up to 2^1000. *)
Definition drawable (a : float) : Prop :=
  exists q, a = fin q /\ (Qabs q <= pow2 1000)%Q.

Definition drawable_reading (r : Reading) : Prop :=
  drawable (ACCEL_X r) /\ drawable (ACCEL_Y r) /\ drawable (ACCEL_Z r).

(** The combined frame that main.py's [create_side_by_side_video] makes of
    one frame of each video. *)
Definition compose_pair (v1 v2 : Video) (p : Frame * Frame) : result Frame :=
  let '(frame1, frame2) := p in
  frame2 <-
    (if negb (video_height v1 =? video_height v2)%Z
     then resize frame2 (video_width v1, video_height v1)
     else Ok frame2) ;;
  hconcat [frame1; frame2].

(** What a run leaves of its result when the table is put aside. *)
Definition video_of {A B : Type} (r : result (A * B)) : result B :=
  ' (_, out) <- r ;; Ok out.

End WithOpenCV.
End MainVideoSpec.

(** Vocabulary for the animation scripts. *)
Module AnimationSpec.

(** An array of floats in ascending order. *)
Definition ascending (a : list Q) : Prop := StronglySorted Qle a.

(** What NumPy documents for [searchsorted(a, v, side='right')] on an
    array in ascending order: the index [i] with [a[:i] <= v < a[i:]]. *)
Definition searchsorted_right_spec (search : list Q -> Q -> nat) : Prop :=
  forall a v,
    ascending a ->
    search a v <= length a
    /\ (forall j x, j < search a v -> nth_error a j = Some x -> (x <= v)%Q)
    /\ (forall j x, search a v <= j -> nth_error a j = Some x -> (v < x)%Q).

(** A search by scanning from the left, for the concrete examples. *)
Fixpoint scan_right (a : list Q) (v : Q) : nat :=
  match a with
  | [] => 0
  | x :: a' => if Qle_bool x v then S (scan_right a' v) else 0
  end.

End AnimationSpec.

Definition numpy_scan : NumPy :=
  {| searchsorted_right := AnimationSpec.scan_right |}.

(** Drawing and formatting for the concrete examples: a drawing call
    appends a mark to the buffer, 1 for a text and 2 for a segment; the
    formatter keeps the sign only. *)
Definition drawing_marks : @Drawing opencv_tags :=
  {| putText := fun (img : @Pixels opencv_tags) _ _ _ _ _ _ => img ++ [1];
     line := fun (img : @Pixels opencv_tags) _ _ _ _ => img ++ [2] |}.

Module ExampleFormat.
Import String.

Definition format_sign : PyFormat :=
  {| format_f := fun _ _ x =>
       if Binary64.ltb x (Binary64.fin 0) then "-"%string else "+"%string |}.

End ExampleFormat.

(** The binary64 operations of the Standard Library's [SpecFloat], read
    as values of [Binary64.float], to compare [Binary64] with. *)
Module Reference.
Import SpecFloat Binary64.

Definition value (x : spec_float) : float :=
  match x with
  | S754_zero _ => fin 0
  | S754_infinity s => inf s
  | S754_nan => nan
  | S754_finite s m e =>
      fin (Qred ((if s then -1 else 1) * inject_Z (Zpos m) * pow2 e))
  end.

(** The binary64 number nearest to [m * 2^e]. *)
Definition nearest (m e : Z) : spec_float := binary_normalize 53 1024 m e false.

Definition same (x y : float) : bool :=
  match x, y with
  | fin a, fin b => Qeq_bool a b
  | inf s, inf s' => Bool.eqb s s'
  | nan, nan => true
  | _, _ => false
  end.

(** [Binary64] and [SpecFloat] give the same rounded value of [m * 2^e]
    and, on the two numbers nearest to [m1 * 2^e1] and [m2 * 2^e2], the
    same sum, difference, product and quotient. *)
Definition agree_on_round (c : Z * Z) : bool :=
  let '(m, e) := c in
  same (round (inject_Z m * pow2 e)) (value (nearest m e)).

Definition agree_on_operations (c : (Z * Z) * (Z * Z)) : bool :=
  let '((m1, e1), (m2, e2)) := c in
  let x := nearest m1 e1 in
  let y := nearest m2 e2 in
  same (add (value x) (value y)) (value (SFadd 53 1024 x y))
  && same (sub (value x) (value y)) (value (SFsub 53 1024 x y))
  && same (mul (value x) (value y)) (value (SFmul 53 1024 x y))
  && same (div (value x) (value y)) (value (SFdiv 53 1024 x y)).

End Reference.

(* ===================================================================== *)
(** * Part II: properties                                                 *)
(* ===================================================================== *)

(** ** Binary64 *)

Import Binary64.

(** *** Powers of two *)

Lemma pow2_pos (e : Z) : (0 < pow2 e)%Q.
Proof. apply Qpower_0_lt. reflexivity. Qed.

Lemma pow2_plus (a b : Z) : (pow2 (a + b) == pow2 a * pow2 b)%Q.
Proof. apply Qpower_plus. discriminate. Qed.

Lemma pow2_le (a b : Z) : (a <= b)%Z -> (pow2 a <= pow2 b)%Q.
Proof. intro H. apply Qpower_le_compat_l; [exact H|discriminate]. Qed.

Lemma pow2_lt (a b : Z) : (a < b)%Z -> (pow2 a < pow2 b)%Q.
Proof. intro H. apply Qpower_lt_compat_l; [exact H|reflexivity]. Qed.

Lemma pow2_lt_inv (a b : Z) : (pow2 a < pow2 b)%Q -> (a < b)%Z.
Proof. intro H. apply (Qpower_lt_compat_l_inv _ _ _ H). reflexivity. Qed.

Lemma pow2_inject_Z (n : Z) : (0 <= n)%Z -> (pow2 n == inject_Z (2 ^ n))%Q.
Proof. intro H. unfold pow2. rewrite Zpower_Qpower by exact H. reflexivity. Qed.

(** *** [ilog2] *)

Lemma Qmake_as_div (n : Z) (d : positive) :
  (n # d == inject_Z n / inject_Z (Zpos d))%Q.
Proof. apply Qmake_Qdiv. Qed.

Lemma ilog2_spec (x : Q) :
  (0 < x)%Q -> (pow2 (ilog2 x) <= x /\ x < pow2 (ilog2 x + 1))%Q.
Proof.
  intro Hx. destruct x as [n d].
  assert (Hn : (0 < n)%Z) by (unfold Qlt in Hx; cbn in Hx; lia).
  unfold ilog2. cbn [Qnum Qden].
  set (ln := Z.log2 n). set (ld := Z.log2 (Zpos d)).
  pose proof (Z.log2_spec n Hn) as [Hn1 Hn2]. fold ln in Hn1, Hn2.
  pose proof (Z.log2_spec (Zpos d) eq_refl) as [Hd1 Hd2]. fold ld in Hd1, Hd2.
  pose proof (Z.log2_nonneg n) as Hln. fold ln in Hln.
  pose proof (Z.log2_nonneg (Zpos d)) as Hld. fold ld in Hld.
  assert (Hup : (n # d < pow2 (ln - ld + 1))%Q).
  { replace (ln - ld + 1)%Z with ((ln + 1) + - ld)%Z by lia.
    rewrite pow2_plus. unfold pow2 at 2. rewrite Qpower_opp.
    fold (pow2 ld). rewrite !pow2_inject_Z by lia.
    rewrite Qmake_as_div. unfold Qdiv.
    assert (H1 : (inject_Z n < inject_Z (2 ^ (ln + 1)))%Q)
      by (rewrite <- Zlt_Qlt; replace (ln + 1)%Z with (Z.succ ln) by lia; exact Hn2).
    assert (H2 : (inject_Z (2 ^ ld) <= inject_Z (Zpos d))%Q)
      by (rewrite <- Zle_Qle; exact Hd1).
    assert (H3 : (0 < inject_Z (2 ^ ld))%Q).
    { change 0%Q with (inject_Z 0). rewrite <- Zlt_Qlt.
      apply Z.pow_pos_nonneg; lia. }
    assert (H4 : (0 < inject_Z (Zpos d))%Q) by reflexivity.
    assert (H5 : (0 < inject_Z n)%Q)
      by (change 0%Q with (inject_Z 0); rewrite <- Zlt_Qlt; exact Hn).
    apply Qle_lt_trans with (inject_Z n * / inject_Z (2 ^ ld))%Q.
    - apply Qmult_le_l; [exact H5|].
      apply Qle_shift_inv_l; [exact H3|].
      rewrite Qmult_comm. apply Qle_shift_div_r; [exact H4|].
      rewrite Qmult_1_l. exact H2.
    - apply Qmult_lt_compat_r; [|exact H1].
      apply Qinv_lt_0_compat. exact H3. }
  assert (Hlow : (pow2 (ln - ld - 1) <= n # d)%Q).
  { replace (ln - ld - 1)%Z with (ln + - (ld + 1))%Z by lia.
    rewrite pow2_plus. unfold pow2 at 2. rewrite Qpower_opp.
    fold (pow2 (ld + 1)). rewrite !pow2_inject_Z by lia.
    rewrite Qmake_as_div. unfold Qdiv.
    assert (H1 : (inject_Z (2 ^ ln) <= inject_Z n)%Q)
      by (rewrite <- Zle_Qle; exact Hn1).
    assert (H2 : (inject_Z (Zpos d) <= inject_Z (2 ^ (ld + 1)))%Q).
    { rewrite <- Zle_Qle. replace (ld + 1)%Z with (Z.succ ld) by lia. lia. }
    assert (H3 : (0 < inject_Z (2 ^ ln))%Q).
    { change 0%Q with (inject_Z 0). rewrite <- Zlt_Qlt.
      apply Z.pow_pos_nonneg; lia. }
    assert (H4 : (0 < inject_Z (Zpos d))%Q) by reflexivity.
    assert (H5 : (0 < inject_Z (2 ^ (ld + 1)))%Q).
    { change 0%Q with (inject_Z 0). rewrite <- Zlt_Qlt.
      apply Z.pow_pos_nonneg; lia. }
    apply Qle_trans with (inject_Z (2 ^ ln) * / inject_Z (Zpos d))%Q.
    - apply Qmult_le_l; [exact H3|].
      apply Qle_shift_inv_l; [exact H4|].
      rewrite Qmult_comm. apply Qle_shift_div_r; [exact H5|].
      rewrite Qmult_1_l. exact H2.
    - apply Qmult_le_compat_r; [exact H1|].
      apply Qlt_le_weak, Qinv_lt_0_compat. exact H4. }
  destruct (Qle_bool (pow2 (ln - ld)) (n # d)) eqn:E.
  - apply Qle_bool_iff in E. split; assumption.
  - split; [exact Hlow|].
    replace (ln - ld - 1 + 1)%Z with (ln - ld)%Z by lia.
    apply Qnot_le_lt. intro H. apply Qle_bool_iff in H. congruence.
Qed.

Lemma ilog2_unique (x : Q) (k : Z) :
  (pow2 k <= x)%Q -> (x < pow2 (k + 1))%Q -> ilog2 x = k.
Proof.
  intros H1 H2.
  assert (Hx : (0 < x)%Q) by (eapply Qlt_le_trans; [apply pow2_pos|exact H1]).
  destruct (ilog2_spec Hx) as [H3 H4].
  assert (A : (ilog2 x < k + 1)%Z)
    by (apply pow2_lt_inv; eapply Qle_lt_trans; eassumption).
  assert (B : (k < ilog2 x + 1)%Z)
    by (apply pow2_lt_inv; eapply Qle_lt_trans; eassumption).
  lia.
Qed.

Lemma ilog2_le (x y : Q) : (0 < x)%Q -> (x <= y)%Q -> (ilog2 x <= ilog2 y)%Z.
Proof.
  intros Hx Hxy.
  assert (Hy : (0 < y)%Q) by (eapply Qlt_le_trans; eassumption).
  destruct (ilog2_spec Hx) as [H1 _]. destruct (ilog2_spec Hy) as [_ H2].
  assert (A : (ilog2 x < ilog2 y + 1)%Z).
  { apply pow2_lt_inv. eapply Qle_lt_trans; [exact H1|].
    eapply Qle_lt_trans; eassumption. }
  lia.
Qed.

(** *** [rne] *)

Lemma rne_floor (y : Q) : (Qfloor y <= rne y <= Qfloor y + 1)%Z.
Proof.
  unfold rne. destruct (_ ?= _)%Q; [destruct (Z.even _)| |]; lia.
Qed.

Lemma rne_inject_Z (k : Z) : rne (inject_Z k) = k.
Proof.
  unfold rne. rewrite Qfloor_Z.
  assert (H : (inject_Z k - inject_Z k ?= 1 # 2)%Q = Lt).
  { apply Qlt_alt. ring_simplify (inject_Z k - inject_Z k)%Q. reflexivity. }
  now rewrite H.
Qed.

Lemma rne_comp (x y : Q) : (x == y)%Q -> rne x = rne y.
Proof.
  intro H. unfold rne. rewrite (Qfloor_comp _ _ H).
  assert (E : (x - inject_Z (Qfloor y) ?= 1 # 2)%Q
              = (y - inject_Z (Qfloor y) ?= 1 # 2)%Q).
  { apply Qcompare_comp; [now rewrite H|reflexivity]. }
  now rewrite E.
Qed.

Lemma rne_le (x y : Q) : (x <= y)%Q -> (rne x <= rne y)%Z.
Proof.
  intro H. pose proof (Qfloor_resp_le _ _ H) as Hf.
  pose proof (rne_floor x) as Hx. pose proof (rne_floor y) as Hy.
  destruct (Z.eq_dec (Qfloor x) (Qfloor y)) as [E|E]; [|lia].
  unfold rne. rewrite E.
  destruct (x - inject_Z (Qfloor y) ?= 1 # 2)%Q eqn:Cx;
    destruct (y - inject_Z (Qfloor y) ?= 1 # 2)%Q eqn:Cy;
    try (destruct (Z.even (Qfloor y))); try lia; exfalso;
    repeat match goal with
      | C : (_ ?= _)%Q = Eq |- _ => apply Qeq_alt in C
      | C : (_ ?= _)%Q = Lt |- _ => apply Qlt_alt in C
      | C : (_ ?= _)%Q = Gt |- _ => apply Qgt_alt in C
      end; lra.
Qed.

Lemma rne_ge (x : Q) (k : Z) : (inject_Z k <= x)%Q -> (k <= rne x)%Z.
Proof. intro H. rewrite <- (rne_inject_Z k). now apply rne_le. Qed.

Lemma rne_le_Z (x : Q) (k : Z) : (x <= inject_Z k)%Q -> (rne x <= k)%Z.
Proof. intro H. rewrite <- (rne_inject_Z k). now apply rne_le. Qed.


(** *** Rounding *)

Lemma exponent_le (a b : Q) :
  (0 < a)%Q -> (a <= b)%Q -> (exponent a <= exponent b)%Z.
Proof.
  intros Ha Hab. unfold exponent. pose proof (ilog2_le Ha Hab). lia.
Qed.

Lemma magnitude_nonneg (a : Q) : (0 <= a)%Q -> (0 <= magnitude a)%Q.
Proof.
  intro Ha. unfold magnitude. apply Qmult_le_0_compat.
  - change 0%Q with (inject_Z 0). rewrite <- Zle_Qle. apply rne_ge.
    apply Qle_shift_div_l; [apply pow2_pos|]. now rewrite Qmult_0_l.
  - apply Qlt_le_weak, pow2_pos.
Qed.

Lemma div_pow2_le (a b : Q) (e : Z) :
  (a <= b)%Q -> (a / pow2 e <= b / pow2 e)%Q.
Proof.
  intro H. unfold Qdiv. apply Qmult_le_compat_r; [exact H|].
  apply Qlt_le_weak, Qinv_lt_0_compat, pow2_pos.
Qed.

Lemma magnitude_le (a b : Q) :
  (0 < a)%Q -> (a <= b)%Q -> (magnitude a <= magnitude b)%Q.
Proof.
  intros Ha Hab.
  assert (Hb : (0 < b)%Q) by (eapply Qlt_le_trans; eassumption).
  pose proof (exponent_le Ha Hab) as He.
  unfold magnitude.
  destruct (Z.eq_dec (exponent a) (exponent b)) as [E|E].
  - rewrite E. apply Qmult_le_compat_r; [|apply Qlt_le_weak, pow2_pos].
    rewrite <- Zle_Qle. apply rne_le. now apply div_pow2_le.
  - assert (Hlt : (exponent a < exponent b)%Z) by lia.
    assert (Eb : exponent b = (ilog2 b - 52)%Z) by (unfold exponent in *; lia).
    assert (Ea : (ilog2 a - 52 <= exponent a)%Z) by (unfold exponent; lia).
    destruct (ilog2_spec Ha) as [_ Ha2]. destruct (ilog2_spec Hb) as [Hb1 _].
    apply Qle_trans with (pow2 53 * pow2 (exponent a))%Q.
    + apply Qmult_le_compat_r; [|apply Qlt_le_weak, pow2_pos].
      rewrite (pow2_inject_Z (n := 53)) by lia. rewrite <- Zle_Qle.
      apply rne_le_Z. rewrite <- pow2_inject_Z by lia.
      apply Qle_shift_div_r; [apply pow2_pos|].
      rewrite <- pow2_plus. apply Qlt_le_weak.
      eapply Qlt_le_trans; [exact Ha2|]. apply pow2_le. lia.
    + apply Qle_trans with (pow2 52 * pow2 (exponent b))%Q.
      * rewrite <- !pow2_plus. apply pow2_le. lia.
      * apply Qmult_le_compat_r; [|apply Qlt_le_weak, pow2_pos].
        rewrite (pow2_inject_Z (n := 52)) by lia. rewrite <- Zle_Qle.
        apply rne_ge. rewrite <- pow2_inject_Z by lia.
        apply Qle_shift_div_l; [apply pow2_pos|].
        rewrite <- pow2_plus. eapply Qle_trans; [|exact Hb1].
        apply pow2_le. lia.
Qed.

(** The value of a rounded number, by sign. *)
Lemma round_zero (x : Q) : (x == 0)%Q -> round x = fin 0.
Proof.
  intro H. unfold round. apply Qeq_bool_iff in H. now rewrite H.
Qed.

Lemma round_pos (x : Q) :
  (0 < x)%Q ->
  round x = if Qle_bool (pow2 1024) (magnitude x) then inf false
            else fin (Qred (magnitude x)).
Proof.
  intro H. unfold round.
  assert (E0 : Qeq_bool x 0 = false).
  { destruct (Qeq_bool x 0) eqn:E; [|reflexivity].
    apply Qeq_bool_iff in E. rewrite E in H. discriminate. }
  assert (E1 : Qle_bool 0 x = true) by (apply Qle_bool_iff; lra).
  rewrite E0, E1. cbn [negb].
  assert (Ea : Qabs x = x \/ True) by auto.
  assert (Hq : (Qabs x == x)%Q) by (apply Qabs_pos; lra).
  assert (Hm : magnitude (Qabs x) = magnitude x).
  { destruct x as [n d]. unfold Qlt in H. cbn in H.
    destruct n; try lia. reflexivity. }
  now rewrite Hm.
Qed.

Lemma round_neg (x : Q) :
  (x < 0)%Q ->
  round x = if Qle_bool (pow2 1024) (magnitude (- x)) then inf true
            else fin (Qred (- magnitude (- x))).
Proof.
  intro H. unfold round.
  assert (E0 : Qeq_bool x 0 = false).
  { destruct (Qeq_bool x 0) eqn:E; [|reflexivity].
    apply Qeq_bool_iff in E. rewrite E in H. discriminate. }
  assert (E1 : Qle_bool 0 x = false).
  { destruct (Qle_bool 0 x) eqn:E; [|reflexivity].
    apply Qle_bool_iff in E. lra. }
  rewrite E0, E1. cbn [negb].
  assert (Hm : magnitude (Qabs x) = magnitude (- x)).
  { destruct x as [n d]. unfold Qlt in H. cbn in H.
    destruct n; try lia. reflexivity. }
  now rewrite Hm.
Qed.

Lemma round_cases (x : Q) :
  (x == 0)%Q \/ (0 < x)%Q \/ (x < 0)%Q.
Proof.
  destruct (Qlt_le_dec 0 x) as [H|H]; [auto|].
  destruct (Qlt_le_dec x 0) as [H'|H']; [auto|].
  left. lra.
Qed.

Lemma leb_fin (a b : Q) : leb (fin a) (fin b) = true <-> (a <= b)%Q.
Proof. apply Qle_bool_iff. Qed.

Lemma round_le (x y : Q) : (x <= y)%Q -> leb (round x) (round y) = true.
Proof.
  intro Hxy.
  destruct (round_cases x) as [Hx|[Hx|Hx]];
    destruct (round_cases y) as [Hy|[Hy|Hy]]; try (exfalso; lra).
  - rewrite (round_zero Hx), (round_zero Hy). reflexivity.
  - rewrite (round_zero Hx), (round_pos Hy).
    destruct (Qle_bool _ _); [reflexivity|]. apply leb_fin. rewrite Qred_correct.
    apply magnitude_nonneg. lra.
  - rewrite (round_pos Hx), (round_pos Hy).
    pose proof (magnitude_le Hx Hxy) as Hm.
    destruct (Qle_bool (pow2 1024) (magnitude y)) eqn:Ey.
    + destruct (Qle_bool _ (magnitude x)); reflexivity.
    + destruct (Qle_bool (pow2 1024) (magnitude x)) eqn:Ex.
      * apply Qle_bool_iff in Ex.
        assert (H : Qle_bool (pow2 1024) (magnitude y) = true)
          by (apply Qle_bool_iff; lra).
        congruence.
      * apply leb_fin. now rewrite !Qred_correct.
  - rewrite (round_neg Hx), (round_zero Hy).
    destruct (Qle_bool _ _); [reflexivity|]. apply leb_fin. rewrite Qred_correct.
    assert (H : (0 <= magnitude (- x))%Q) by (apply magnitude_nonneg; lra).
    lra.
  - rewrite (round_neg Hx), (round_pos Hy).
    assert (H1 : (0 <= magnitude (- x))%Q) by (apply magnitude_nonneg; lra).
    assert (H2 : (0 <= magnitude y)%Q) by (apply magnitude_nonneg; lra).
    destruct (Qle_bool _ (magnitude (- x)));
      destruct (Qle_bool _ (magnitude y)); try reflexivity.
    apply leb_fin. rewrite !Qred_correct. lra.
  - rewrite (round_neg Hx), (round_neg Hy).
    assert (Hy' : (0 < - y)%Q) by lra.
    assert (Hyx : (- y <= - x)%Q) by lra.
    pose proof (magnitude_le Hy' Hyx) as Hm.
    destruct (Qle_bool (pow2 1024) (magnitude (- x))) eqn:Ex.
    + destruct (Qle_bool _ (magnitude (- y))); reflexivity.
    + destruct (Qle_bool (pow2 1024) (magnitude (- y))) eqn:Ey.
      * apply Qle_bool_iff in Ey.
        assert (H : Qle_bool (pow2 1024) (magnitude (- x)) = true)
          by (apply Qle_bool_iff; lra).
        congruence.
      * apply leb_fin. rewrite !Qred_correct. lra.
Qed.

Lemma round_not_nan (x : Q) : is_nan (round x) = false.
Proof.
  unfold round. destruct (Qeq_bool x 0); [reflexivity|].
  cbv zeta. destruct (Qle_bool _ _); reflexivity.
Qed.

(** A number [m * 2^e] with [|m| < 2^53] and [e >= -1074], below the
    overflow threshold, is a binary64 value: rounding leaves it as it
    is. *)
Lemma magnitude_exact (m e : Z) :
  (0 < m < 2 ^ 53)%Z -> (-1074 <= e)%Z ->
  (magnitude (inject_Z m * pow2 e) == inject_Z m * pow2 e)%Q.
Proof.
  intros Hm He.
  set (a := (inject_Z m * pow2 e)%Q).
  assert (Hm0 : (0 < inject_Z m)%Q)
    by (change 0%Q with (inject_Z 0); rewrite <- Zlt_Qlt; lia).
  assert (Ha : (0 < a)%Q).
  { unfold a. apply Qmult_lt_0_compat; [exact Hm0|apply pow2_pos]. }
  destruct (ilog2_spec Ha) as [H1 _].
  assert (Hlt : (a < pow2 (e + 53))%Q).
  { unfold a. rewrite Z.add_comm, pow2_plus.
    apply Qmult_lt_compat_r; [apply pow2_pos|].
    rewrite (pow2_inject_Z (n := 53)) by lia. rewrite <- Zlt_Qlt. lia. }
  assert (Hlog : (ilog2 a < e + 53)%Z).
  { apply pow2_lt_inv. eapply Qle_lt_trans; eassumption. }
  assert (HE : (exponent a <= e)%Z) by (unfold exponent; lia).
  unfold magnitude.
  set (E := exponent a) in *.
  assert (Hq : (a / pow2 E == inject_Z (m * 2 ^ (e - E)))%Q).
  { unfold a. rewrite inject_Z_mult, <- pow2_inject_Z by lia.
    replace e with ((e - E) + E)%Z at 1 by lia. rewrite pow2_plus.
    field. apply Qnot_eq_sym, Qlt_not_eq, pow2_pos. }
  rewrite (rne_comp Hq), rne_inject_Z.
  rewrite inject_Z_mult, <- pow2_inject_Z by lia.
  unfold a. replace e with ((e - E) + E)%Z at 2 by lia. rewrite pow2_plus.
  ring.
Qed.

Lemma round_exact (m e : Z) :
  (Z.abs m < 2 ^ 53)%Z -> (-1074 <= e)%Z ->
  (Qabs (inject_Z m * pow2 e) < pow2 1024)%Q ->
  round (inject_Z m * pow2 e) = fin (Qred (inject_Z m * pow2 e)).
Proof.
  intros Hm He Hmax.
  destruct (Z.lt_trichotomy m 0) as [Hneg|[H0|Hpos]].
  - assert (Hx : (inject_Z m * pow2 e < 0)%Q).
    { assert (H : (inject_Z m < 0)%Q)
        by (change 0%Q with (inject_Z 0); rewrite <- Zlt_Qlt; lia).
      pose proof (pow2_pos e). nra. }
    rewrite (round_neg Hx).
    assert (Eq1 : (- (inject_Z m * pow2 e) == inject_Z (- m) * pow2 e)%Q)
      by (rewrite inject_Z_opp; ring).
    assert (Hmag : (magnitude (- (inject_Z m * pow2 e))
                    == inject_Z (- m) * pow2 e)%Q).
    { rewrite <- (@magnitude_exact (- m) e) by lia.
      unfold magnitude.
      assert (Ex : exponent (- (inject_Z m * pow2 e))
                   = exponent (inject_Z (- m) * pow2 e)).
      { unfold exponent. f_equal. f_equal.
        assert (P1 : (0 < - (inject_Z m * pow2 e))%Q) by lra.
        destruct (ilog2_spec P1) as [A B].
        symmetry. apply ilog2_unique; rewrite <- Eq1; assumption. }
      rewrite Ex.
      rewrite (rne_comp (x := - (inject_Z m * pow2 e) / _)
                        (y := inject_Z (- m) * pow2 e / pow2
                                (exponent (inject_Z (- m) * pow2 e))));
        [reflexivity|]. now rewrite Eq1. }
    rewrite Qabs_neg in Hmax by lra.
    assert (Ov : Qle_bool (pow2 1024) (magnitude (- (inject_Z m * pow2 e)))
                 = false).
    { destruct (Qle_bool _ _) eqn:E; [|reflexivity].
      apply Qle_bool_iff in E. rewrite Hmag, <- Eq1 in E. lra. }
    rewrite Ov. f_equal. apply Qred_complete. rewrite Hmag, <- Eq1. ring.
  - subst m. rewrite round_zero by ring. reflexivity.
  - assert (Hx : (0 < inject_Z m * pow2 e)%Q).
    { assert (H : (0 < inject_Z m)%Q)
        by (change 0%Q with (inject_Z 0); rewrite <- Zlt_Qlt; lia).
      pose proof (pow2_pos e). nra. }
    rewrite (round_pos Hx).
    pose proof (@magnitude_exact m e ltac:(lia) He) as Hmag.
    rewrite Qabs_pos in Hmax by lra.
    assert (Ov : Qle_bool (pow2 1024) (magnitude (inject_Z m * pow2 e))
                 = false).
    { destruct (Qle_bool _ _) eqn:E; [|reflexivity].
      apply Qle_bool_iff in E. rewrite Hmag in E. lra. }
    rewrite Ov. f_equal. now apply Qred_complete.
Qed.

(** Rounding depends on the value of the rational only, not on the
    fraction that denotes it. *)
Lemma ilog2_comp (x y : Q) : (0 < x)%Q -> (x == y)%Q -> ilog2 x = ilog2 y.
Proof.
  intros Hx Hxy. assert (Hy : (0 < y)%Q) by lra.
  destruct (ilog2_spec Hy) as [A B].
  apply ilog2_unique; rewrite Hxy; assumption.
Qed.

Lemma magnitude_comp (a b : Q) :
  (0 < a)%Q -> (a == b)%Q -> magnitude a = magnitude b.
Proof.
  intros Ha Hab. unfold magnitude, exponent.
  rewrite (ilog2_comp Ha Hab).
  f_equal. f_equal. apply rne_comp. now rewrite Hab.
Qed.

Lemma round_comp (x y : Q) : (x == y)%Q -> round x = round y.
Proof.
  intro Hxy.
  destruct (round_cases x) as [Hx|[Hx|Hx]].
  - rewrite (round_zero Hx). symmetry. apply round_zero. lra.
  - assert (Hy : (0 < y)%Q) by lra.
    rewrite (round_pos Hx), (round_pos Hy), (magnitude_comp Hx Hxy).
    reflexivity.
  - assert (Hy : (y < 0)%Q) by lra.
    assert (Hx' : (0 < - x)%Q) by lra.
    assert (Hxy' : (- x == - y)%Q) by lra.
    rewrite (round_neg Hx), (round_neg Hy), (magnitude_comp Hx' Hxy').
    reflexivity.
Qed.

(** An integer below 2^53 in absolute value is a binary64 value. *)
Lemma round_inject_Z (z : Z) :
  (Z.abs z < 2 ^ 53)%Z -> round (inject_Z z) = fin (Qred (inject_Z z)).
Proof.
  intro Hz.
  assert (E : (inject_Z z == inject_Z z * pow2 0)%Q)
    by (unfold pow2; cbn; ring).
  rewrite (round_comp E), round_exact; try lia.
  - f_equal. apply Qred_complete. now rewrite <- E.
  - rewrite <- E.
    apply Qlt_le_trans with (inject_Z (2 ^ 53)).
    + destruct (Z.abs_spec z) as [[_ Ha]|[_ Ha]].
      * rewrite Qabs_pos; [rewrite <- Zlt_Qlt; lia|].
        change 0%Q with (inject_Z 0). rewrite <- Zle_Qle. lia.
      * rewrite Qabs_neg; [rewrite <- inject_Z_opp, <- Zlt_Qlt; lia|].
        change 0%Q with (inject_Z 0). rewrite <- Zle_Qle. lia.
    + rewrite <- pow2_inject_Z by lia. apply pow2_le. lia.
Qed.

(** *** The order on floats *)

Lemma Qle_bool_false (a b : Q) : Qle_bool a b = false <-> (b < a)%Q.
Proof.
  split; intro H.
  - apply Qnot_le_lt. intro Hle. apply Qle_bool_iff in Hle. congruence.
  - destruct (Qle_bool a b) eqn:E; [|reflexivity].
    apply Qle_bool_iff in E. lra.
Qed.

Lemma ltb_fin (a b : Q) : ltb (fin a) (fin b) = true <-> (a < b)%Q.
Proof.
  cbn. rewrite negb_true_iff. apply Qle_bool_false.
Qed.

Ltac float_order :=
  repeat match goal with
         | x : float |- _ => destruct x as [?|[]|]
         end;
  cbn in *; try discriminate; try reflexivity; try tauto;
  rewrite ?negb_true_iff, ?negb_false_iff in *;
  repeat match goal with
         | H : Qle_bool _ _ = true |- _ => apply Qle_bool_iff in H
         | H : Qle_bool _ _ = false |- _ => apply Qle_bool_false in H
         | H : Qeq_bool _ _ = true |- _ => apply Qeq_bool_iff in H
         end;
  try (apply Qle_bool_iff); try (apply Qle_bool_false);
  try (apply Qeq_bool_iff); try lra.

Lemma leb_refl (x : float) : is_nan x = false -> leb x x = true.
Proof. intros. float_order. Qed.

Lemma leb_trans (x y z : float) :
  leb x y = true -> leb y z = true -> leb x z = true.
Proof. intros. float_order. Qed.

Lemma ltb_trans (x y z : float) :
  ltb x y = true -> ltb y z = true -> ltb x z = true.
Proof. intros. float_order. Qed.

Lemma ltb_leb_trans (x y z : float) :
  ltb x y = true -> leb y z = true -> ltb x z = true.
Proof. intros. float_order. Qed.

Lemma leb_ltb_trans (x y z : float) :
  leb x y = true -> ltb y z = true -> ltb x z = true.
Proof. intros. float_order. Qed.

Lemma ltb_leb (x y : float) : ltb x y = true -> leb x y = true.
Proof. intros. float_order. Qed.

Lemma ltb_not_leb (x y : float) : ltb x y = true -> leb y x = false.
Proof.
  intros. float_order.
Qed.

Lemma not_ltb_leb (x y : float) :
  is_nan x = false -> is_nan y = false -> ltb x y = false -> leb y x = true.
Proof. intros. float_order. Qed.

Lemma leb_not_nan (x y : float) :
  leb x y = true -> is_nan x = false /\ is_nan y = false.
Proof. intros. float_order. Qed.

Lemma ltb_not_nan (x y : float) :
  ltb x y = true -> is_nan x = false /\ is_nan y = false.
Proof. intros. float_order. Qed.

Lemma leb_antisym (x y : float) :
  leb x y = true -> leb y x = true -> eqb x y = true.
Proof. intros. float_order. Qed.

Lemma eqb_leb (x y : float) : eqb x y = true -> leb x y = true.
Proof. intros. float_order. Qed.

(** A float between two finite floats is finite. *)
Lemma leb_fin_between (x : float) (a b : Q) :
  leb (fin a) x = true -> leb x (fin b) = true ->
  exists q, x = fin q /\ (a <= q <= b)%Q.
Proof.
  intros H1 H2. destruct x as [q|[]|]; try discriminate.
  exists q. apply leb_fin in H1. apply leb_fin in H2. auto.
Qed.

Lemma round_between (a b x a' b' : Q) :
  round a = fin a' -> round b = fin b' -> (a <= x <= b)%Q ->
  exists q, round x = fin q /\ (a' <= q <= b')%Q.
Proof.
  intros Ha Hb [H1 H2].
  apply leb_fin_between; [rewrite <- Ha | rewrite <- Hb]; now apply round_le.
Qed.

(** A rational of magnitude up to [2^k] rounds to a finite float of
    magnitude up to [2^k]. *)
Lemma round_pow2 (k : Z) :
  (-1074 <= k <= 1023)%Z -> round (pow2 k) = fin (Qred (pow2 k)).
Proof.
  intro Hk.
  assert (E : (pow2 k == inject_Z 1 * pow2 k)%Q) by ring.
  rewrite (round_comp E), round_exact; try lia.
  - f_equal. apply Qred_complete. now rewrite <- E.
  - rewrite <- E. rewrite Qabs_pos by (apply Qlt_le_weak, pow2_pos).
    apply pow2_lt. lia.
Qed.

Lemma round_opp_pow2 (k : Z) :
  (-1074 <= k <= 1023)%Z -> round (- pow2 k) = fin (Qred (- pow2 k)).
Proof.
  intro Hk.
  assert (E : (- pow2 k == inject_Z (-1) * pow2 k)%Q) by ring.
  rewrite (round_comp E), round_exact; try lia.
  - apply f_equal. apply Qred_complete. now rewrite <- E.
  - rewrite <- E. rewrite Qabs_opp.
    rewrite Qabs_pos by (apply Qlt_le_weak, pow2_pos).
    apply pow2_lt. lia.
Qed.

Lemma round_bounded (k : Z) (x : Q) :
  (-1074 <= k <= 1023)%Z -> (Qabs x <= pow2 k)%Q ->
  exists q, round x = fin q /\ (Qabs q <= pow2 k)%Q.
Proof.
  intros Hk Hx.
  apply Qabs_Qle_condition in Hx.
  destruct (round_between (round_opp_pow2 Hk) (round_pow2 Hk) Hx)
    as (q & Hq & Hb).
  exists q. split; [assumption|].
  rewrite !Qred_correct in Hb. now apply Qabs_Qle_condition.
Qed.

(** *** Python on floats *)

Lemma int_nonneg (x : Q) : (0 <= x)%Q -> Py.int x = Qfloor x.
Proof.
  intro H. unfold Py.int.
  destruct (0 <=? Qnum x)%Z eqn:E; [reflexivity|].
  apply Z.leb_gt in E. unfold Qle in H. cbn in H. lia.
Qed.

Lemma int_ge (x : Q) (k : Z) : (0 <= k)%Z -> (inject_Z k <= x)%Q -> (k <= Py.int x)%Z.
Proof.
  intros Hk Hx.
  assert (H0 : (0 <= x)%Q).
  { apply Qle_trans with (inject_Z k); [|assumption].
    change 0%Q with (inject_Z 0). rewrite <- Zle_Qle. lia. }
  rewrite (int_nonneg H0).
  rewrite <- (Qfloor_Z k). now apply Qfloor_resp_le.
Qed.

Lemma of_int_small (z : Z) :
  (Z.abs z < 2 ^ 53)%Z -> PyFloat.of_int z = Ok (fin (Qred (inject_Z z))).
Proof.
  intro Hz. unfold PyFloat.of_int, of_Z. now rewrite round_inject_Z.
Qed.

Lemma float_min2_cases (a b : float) :
  PyFloat.min2 a b = a \/ PyFloat.min2 a b = b.
Proof. unfold PyFloat.min2. destruct (ltb b a); auto. Qed.

Lemma min2_leb_l (a b : float) :
  is_nan a = false -> is_nan b = false -> leb (PyFloat.min2 a b) a = true.
Proof.
  intros Ha Hb. unfold PyFloat.min2. destruct (ltb b a) eqn:E.
  - now apply ltb_leb.
  - now apply leb_refl.
Qed.

Lemma min2_leb_r (a b : float) :
  is_nan a = false -> is_nan b = false -> leb (PyFloat.min2 a b) b = true.
Proof.
  intros Ha Hb. unfold PyFloat.min2. destruct (ltb b a) eqn:E.
  - now apply leb_refl.
  - now apply not_ltb_leb.
Qed.

(** ** Python runtime on rationals *)

Lemma Qltb_lt (x y : Q) : Py.Qltb x y = true <-> (x < y)%Q.
Proof.
  unfold Py.Qltb. rewrite negb_true_iff. apply Qle_bool_false.
Qed.

Lemma Qltb_ge (x y : Q) : Py.Qltb x y = false <-> (y <= x)%Q.
Proof.
  unfold Py.Qltb. rewrite negb_false_iff. apply Qle_bool_iff.
Qed.

Lemma min2_le_l (a b : Q) : (Py.min2 a b <= a)%Q.
Proof.
  unfold Py.min2. destruct (Py.Qltb b a) eqn:E.
  - apply Qltb_lt in E. now apply Qlt_le_weak.
  - apply Qle_refl.
Qed.

Lemma min2_le_r (a b : Q) : (Py.min2 a b <= b)%Q.
Proof.
  unfold Py.min2. destruct (Py.Qltb b a) eqn:E.
  - apply Qle_refl.
  - now apply Qltb_ge in E.
Qed.

Lemma min2_cases (a b : Q) : Py.min2 a b = a \/ Py.min2 a b = b.
Proof. unfold Py.min2. destruct (Py.Qltb b a); auto. Qed.

Lemma truediv_inject_Z (a : Q) (h : Z) :
  Py.truediv a (inject_Z h)
  = if (h =? 0)%Z then Raise ZeroDivisionError else Ok (a / inject_Z h)%Q.
Proof.
  unfold Py.truediv, Qeq_bool. cbn.
  rewrite Z.mul_1_r. reflexivity.
Qed.

(** [mapM] *)

Lemma mapM_length {A B : Type} (f : A -> result B) (l : list A) :
  forall bs, mapM f l = Ok bs -> length bs = length l.
Proof.
  induction l as [|a l IH]; cbn; intros bs.
  - now intros [= <-].
  - destruct (f a); [|discriminate]. cbn [bind].
    destruct (mapM f l) as [bs'|]; [|discriminate]. cbn [bind].
    intros [= <-]. cbn. now rewrite (IH bs').
Qed.

Lemma mapM_nth_error {A B : Type} (f : A -> result B) (l : list A) :
  forall bs k b,
    mapM f l = Ok bs -> nth_error bs k = Some b ->
    exists a, nth_error l k = Some a /\ f a = Ok b.
Proof.
  induction l as [|a l IH]; cbn; intros bs k b.
  - intros [= <-]. destruct k; discriminate.
  - destruct (f a) as [b0|] eqn:Ea; [|discriminate]. cbn [bind].
    destruct (mapM f l) as [bs'|]; [|discriminate]. cbn [bind].
    intros [= <-]. destruct k as [|k]; cbn.
    + intros [= <-]. eauto.
    + intro Hk. apply (IH bs' k b eq_refl Hk).
Qed.

Lemma mapM_ok {A B : Type} (f : A -> result B) (l : list A) :
  Forall (fun a => is_ok (f a) = true) l -> exists bs, mapM f l = Ok bs.
Proof.
  induction 1 as [|a l Ha _ IH]; cbn.
  - eauto.
  - destruct (f a); [|discriminate]. cbn [bind].
    destruct IH as [bs ->]. cbn [bind]. eauto.
Qed.

Lemma mapM_ext {A B : Type} (f g : A -> result B) (l : list A) :
  (forall a, In a l -> f a = g a) -> mapM f l = mapM g l.
Proof.
  induction l as [|a l IH]; cbn; intro H; [reflexivity|].
  rewrite (H a) by auto. rewrite IH by auto. reflexivity.
Qed.

(** ** main.py *)

Section MainProofs.
Import Main MainSpec.
Context {pandas : Pandas}.

Lemma mapM_checked {A : Type} (f : A -> Z) (l : list A) (ds : list Z) :
  mapM (fun a => checked (f a)) l = Ok ds ->
  ds = map f l /\ Forall (fun a => int64 (f a) = true) l.
Proof.
  revert ds. induction l as [|a l IH]; cbn; intros ds.
  - intros [= <-]. split; constructor.
  - unfold checked at 1. destruct (int64 (f a)) eqn:E; [|discriminate].
    cbn [bind]. destruct (mapM _ l) as [ds'|]; [|discriminate]. cbn [bind].
    intros [= <-]. destruct (IH ds' eq_refl) as [-> H].
    split; [reflexivity | now constructor].
Qed.

Lemma mapM_checked_ok {A : Type} (f : A -> Z) (l : list A) :
  Forall (fun a => int64 (f a) = true) l ->
  mapM (fun a => checked (f a)) l = Ok (map f l).
Proof.
  induction 1 as [|a l Ha _ IH]; cbn; [reflexivity|].
  unfold checked at 1. rewrite Ha. cbn [bind]. rewrite IH. reflexivity.
Qed.

Lemma mapM_map {A B C : Type} (g : A -> B) (f : B -> result C) (l : list A) :
  mapM f (map g l) = mapM (fun a => f (g a)) l.
Proof.
  induction l as [|a l IH]; cbn; [reflexivity|]. now rewrite IH.
Qed.

Lemma fold_min_shift (d : Z) (s : list Z) (a : Z) :
  fold_left Z.min (map (fun v => v + d)%Z s) (a + d)%Z
  = (fold_left Z.min s a + d)%Z.
Proof.
  revert a. induction s as [|v s IH]; intro a; cbn; [reflexivity|].
  rewrite <- IH. f_equal. lia.
Qed.

Lemma series_min_shift (d : Z) (s : list Z) :
  series_min (map (fun v => v + d)%Z s)
  = option_map (fun m => m + d)%Z (series_min s).
Proof.
  destruct s as [|a s]; cbn; [reflexivity|]. now rewrite fold_min_shift.
Qed.

Lemma fold_min_le (s : list Z) (a : Z) :
  (fold_left Z.min s a <= a)%Z
  /\ forall v, In v s -> (fold_left Z.min s a <= v)%Z.
Proof.
  revert a. induction s as [|u s IH]; intro a; cbn.
  - split; [lia | tauto].
  - destruct (IH (Z.min a u)) as [H1 H2]. split; [lia|].
    intros v [<- | Hv]; [lia | auto].
Qed.

Lemma fold_min_in (s : list Z) (a : Z) :
  fold_left Z.min s a = a \/ In (fold_left Z.min s a) s.
Proof.
  revert a. induction s as [|u s IH]; intro a; cbn; [now left|].
  destruct (IH (Z.min a u)) as [H | H]; [|now right; right].
  rewrite H. destruct (Z.min_spec a u) as [[_ ->] | [_ ->]]; auto.
Qed.

(** [series_min] is the least element of a non-empty column. *)
Lemma series_min_spec (s : list Z) :
  s <> [] ->
  exists m, series_min s = Some m /\ In m s
            /\ forall v, In v s -> (m <= v)%Z.
Proof.
  destruct s as [|a s]; [congruence | intros _].
  exists (fold_left Z.min s a). cbn.
  destruct (fold_min_le s a) as [H1 H2].
  repeat split.
  - destruct (fold_min_in s a) as [-> | H]; auto.
  - intros v [<- | Hv]; auto.
Qed.

Lemma series_min_none (s : list Z) : series_min s = None -> s = [].
Proof. destruct s; [reflexivity | discriminate]. Qed.

(** [idxmin_from]: the running minimum is kept unless a strictly smaller
    value is met; NaN entries are passed over. *)
Lemma idxmin_from_spec (s : list float) :
  forall (best : option (nat * float)) (i : nat),
    match best with Some (_, b) => is_nan b = false | None => True end ->
    (idxmin_from best i s = option_map fst best
     /\ forall u, In u s -> is_nan u = false ->
                  match best with
                  | Some (_, b) => leb b u = true
                  | None => False
                  end)
    \/ exists k v,
        idxmin_from best i s = Some (i + k)
        /\ nth_error s k = Some v
        /\ is_nan v = false
        /\ match best with Some (_, b) => ltb v b = true | None => True end
        /\ (forall j u, nth_error s j = Some u -> is_nan u = false ->
                        leb v u = true)
        /\ (forall j u, j < k -> nth_error s j = Some u ->
                        is_nan u = false -> ltb v u = true).
Proof.
  induction s as [|w s IH]; intros best i Hbest; cbn [idxmin_from].
  - left. split; [reflexivity | intros u []].
  - destruct (is_nan w) eqn:Ew.
    + destruct (IH best (S i) Hbest)
        as [[Hr Hall] | (k & v & Hr & Hk & Hv & Hlt & Hle & Hfirst)].
      * left. split; [exact Hr|].
        intros u [<- | Hu] Hn; [congruence | now apply Hall].
      * right. exists (S k), v. rewrite Hr.
        split; [f_equal; lia|]. split; [assumption|].
        split; [assumption|]. split; [assumption|]. split.
        -- intros [|j] u Hj Hn; cbn in Hj; [|eauto].
           injection Hj as <-. congruence.
        -- intros [|j] u Hjk Hj Hn; cbn in Hj.
           ++ injection Hj as <-. congruence.
           ++ apply (Hfirst j); auto; lia.
    + assert (Hnew :
                forall r,
                  idxmin_from (Some (i, w)) (S i) s = r ->
                  exists k v,
                    r = Some (i + k)
                    /\ nth_error (w :: s) k = Some v
                    /\ is_nan v = false
                    /\ leb v w = true
                    /\ (forall j u, nth_error (w :: s) j = Some u ->
                                    is_nan u = false -> leb v u = true)
                    /\ (forall j u, j < k -> nth_error (w :: s) j = Some u ->
                                    is_nan u = false -> ltb v u = true)).
      { intros r <-.
        destruct (IH (Some (i, w)) (S i) Ew)
          as [[Hr Hall] | (k & v & Hr & Hk & Hv & Hlt & Hle & Hfirst)].
        - exists 0, w. rewrite Hr. cbn [option_map fst].
          split; [f_equal; lia|]. split; [reflexivity|].
          split; [assumption|]. split; [now apply leb_refl|]. split.
          + intros [|j] u Hj Hn; cbn in Hj.
            * injection Hj as <-. now apply leb_refl.
            * apply Hall; [eapply nth_error_In; eauto | assumption].
          + intros j u Hj. lia.
        - exists (S k), v. rewrite Hr.
          split; [f_equal; lia|]. split; [assumption|].
          split; [assumption|]. split; [now apply ltb_leb|]. split.
          + intros [|j] u Hj Hn; cbn in Hj; [|eauto].
            injection Hj as <-. now apply ltb_leb.
          + intros [|j] u Hjk Hj Hn; cbn in Hj.
            * now injection Hj as <-.
            * apply (Hfirst j); auto; lia. }
      destruct best as [[bi b]|].
      * destruct (ltb w b) eqn:E.
        -- right. destruct (Hnew _ eq_refl)
             as (k & v & Hr & Hk & Hv & Hvw & Hle & Hfirst).
           exists k, v. do 3 (split; [assumption|]).
           split; [eapply leb_ltb_trans; eauto | split; assumption].
        -- destruct (IH (Some (bi, b)) (S i) Hbest)
             as [[Hr Hall] | (k & v & Hr & Hk & Hv & Hlt & Hle & Hfirst)].
           ++ left. split; [assumption|].
              intros u [<- | Hu] Hn; [|auto]. now apply not_ltb_leb.
           ++ right. exists (S k), v. rewrite Hr.
              assert (Hvw : ltb v w = true).
              { eapply ltb_leb_trans; [exact Hlt|]. now apply not_ltb_leb. }
              split; [f_equal; lia|]. split; [assumption|].
              split; [assumption|]. split; [assumption|]. split.
              ** intros [|j] u Hj Hn; cbn in Hj; [|eauto].
                 injection Hj as <-. now apply ltb_leb.
              ** intros [|j] u Hjk Hj Hn; cbn in Hj.
                 --- now injection Hj as <-.
                 --- apply (Hfirst j); auto; lia.
      * right. destruct (Hnew _ eq_refl)
          as (k & v & Hr & Hk & Hv & Hvw & Hle & Hfirst).
        exists k, v. do 3 (split; [assumption|]).
        split; [exact I | split; assumption].
Qed.

(** [idxmin] returns the first position of a least value among the
    entries that are not NaN. *)
Lemma idxmin_ok (s : list float) (i : nat) :
  idxmin s = Ok (Some i) ->
  exists v,
    nth_error s i = Some v
    /\ is_nan v = false
    /\ (forall j u, nth_error s j = Some u -> is_nan u = false ->
                    leb v u = true)
    /\ (forall j u, j < i -> nth_error s j = Some u -> is_nan u = false ->
                    ltb v u = true).
Proof.
  destruct s as [|w s]; [discriminate|]. unfold idxmin.
  destruct (@idxmin_from_spec (w :: s) None 0 I)
    as [[Hr Hall] | (k & v & Hr & Hk & Hv & _ & Hle & Hfirst)].
  - rewrite Hr. discriminate.
  - rewrite Hr. cbn [Nat.add]. intros [= <-]. exists v. auto.
Qed.

Lemma idxmin_returns (s : list float) :
  s <> [] -> Forall (fun u => is_nan u = false) s ->
  exists i, idxmin s = Ok (Some i) /\ i < length s.
Proof.
  intros Hne Hs. destruct s as [|w s]; [congruence|]. unfold idxmin.
  destruct (@idxmin_from_spec (w :: s) None 0 I)
    as [[Hr Hall] | (k & v & Hr & Hk & _)].
  - exfalso. apply (Hall w); [now left|]. now inversion Hs.
  - exists k. rewrite Hr. split; [reflexivity|].
    apply nth_error_Some. congruence.
Qed.

Lemma idxmin_all_nan (s : list float) (i : nat) :
  Forall (fun u => is_nan u = true) s -> idxmin s <> Ok (Some i).
Proof.
  intros Hs H. destruct (idxmin_ok _ H) as (v & Hv & Hn & _).
  apply nth_error_In in Hv. rewrite Forall_forall in Hs.
  specialize (Hs v Hv). congruence.
Qed.

(** *** Seconds and distances *)

Lemma int64_bound (z : Z) :
  int64 z = true -> (Qabs (inject_Z z) <= pow2 63)%Q.
Proof.
  unfold int64. rewrite andb_true_iff, !Z.ltb_lt. intros [H1 H2].
  rewrite pow2_inject_Z by lia. apply Qabs_Qle_condition.
  rewrite <- inject_Z_opp, <- !Zle_Qle. lia.
Qed.

(** The seconds of a timedelta are a finite float. *)
Lemma total_seconds_finite (z : Z) :
  int64 z = true -> exists q, total_seconds z = fin q.
Proof.
  intro H. unfold total_seconds, of_Z.
  destruct (@round_bounded 63 (inject_Z z)) as (q1 & -> & Hq1);
    [lia | now apply int64_bound|].
  cbn [div]. change (Qeq_bool 1000000000 0) with false. cbv iota.
  destruct (@round_bounded 63 (q1 / 1000000000)%Q) as (q & Hq & _);
    [lia | | eauto].
  unfold Qdiv. rewrite Qabs_Qmult.
  assert (E : (Qabs (/ 1000000000) == 1 # 1000000000)%Q) by reflexivity.
  rewrite E. pose proof (Qabs_nonneg q1). lra.
Qed.

Lemma total_seconds_0 : total_seconds 0 = fin 0.
Proof. reflexivity. Qed.

Lemma leb_inf_r (x : float) : is_nan x = false -> leb x (inf false) = true.
Proof. intros. float_order. Qed.

Lemma leb_inf_l (x : float) : is_nan x = false -> leb (inf true) x = true.
Proof. intros. float_order. Qed.

Lemma div_pos_le (x y : float) (c : Q) :
  (0 < c)%Q -> leb x y = true -> leb (div x (fin c)) (div y (fin c)) = true.
Proof.
  intros Hc H.
  assert (E : Qeq_bool c 0 = false).
  { destruct (Qeq_bool c 0) eqn:E; [|reflexivity].
    apply Qeq_bool_iff in E. lra. }
  assert (E' : Qle_bool 0 c = true) by (apply Qle_bool_iff; lra).
  destruct x as [a|[]|], y as [b|[]|]; cbn in *; try discriminate;
    rewrite ?E, ?E'; cbn; try reflexivity.
  - apply round_le. apply Qle_bool_iff in H. unfold Qdiv.
    apply Qmult_le_compat_r; [assumption|].
    apply Qinv_le_0_compat. lra.
  - apply leb_inf_r, round_not_nan.
  - apply leb_inf_l, round_not_nan.
Qed.

Lemma total_seconds_le (a b : Z) :
  (a <= b)%Z -> leb (total_seconds a) (total_seconds b) = true.
Proof.
  intro H. unfold total_seconds. apply div_pos_le; [reflexivity|].
  unfold of_Z. apply round_le. now rewrite <- Zle_Qle.
Qed.

Lemma sub_le_l (a b : Q) (t : float) :
  is_nan t = false -> (a <= b)%Q ->
  leb (sub (fin a) t) (sub (fin b) t) = true.
Proof.
  intros Ht H. destruct t as [c|[]|]; try discriminate; cbn;
    try reflexivity.
  apply round_le. lra.
Qed.

Lemma sub_fin_not_nan (a : Q) (t : float) :
  is_nan t = false -> is_nan (sub (fin a) t) = false.
Proof.
  intro Ht. destruct t as [c|[]|]; try discriminate; cbn;
    try reflexivity.
  apply round_not_nan.
Qed.

Lemma abs_not_nan (x : float) : is_nan (abs x) = is_nan x.
Proof. now destruct x. Qed.

Lemma abs_le_nonneg (x y : float) :
  leb (fin 0) x = true -> leb x y = true -> leb (abs x) (abs y) = true.
Proof.
  intros H0 H. destruct x as [a|[]|], y as [b|[]|]; cbn in *;
    try discriminate; try reflexivity.
  apply Qle_bool_iff in H0, H. apply Qle_bool_iff.
  rewrite !Qabs_pos by lra. assumption.
Qed.

Lemma abs_le_nonpos (x y : float) :
  leb x y = true -> leb y (fin 0) = true -> leb (abs y) (abs x) = true.
Proof.
  intros H H0. destruct x as [a|[]|], y as [b|[]|]; cbn in *;
    try discriminate; try reflexivity.
  apply Qle_bool_iff in H0, H. apply Qle_bool_iff.
  rewrite !Qabs_neg by lra. lra.
Qed.

Lemma distance_not_nan (origin a : Z) (t : float) :
  int64 (a - origin) = true -> is_nan t = false ->
  is_nan (distance origin t a) = false.
Proof.
  intros Hfit Ht. unfold distance. rewrite abs_not_nan.
  destruct (total_seconds_finite _ Hfit) as (q & ->).
  now apply sub_fin_not_nan.
Qed.

Lemma distance_nan (origin a : Z) :
  distance origin nan a = nan.
Proof.
  unfold distance, sub. cbn [opp]. now destruct (total_seconds _) as [?|?|].
Qed.

(** With times counted from [origin], for a query at or before 0 a
    later sample is not nearer than the sample at [origin]. *)
Lemma distance_before_first (origin a : Z) (t : float) :
  int64 (a - origin) = true -> (origin <= a)%Z -> leb t (fin 0) = true ->
  leb (distance origin t origin) (distance origin t a) = true.
Proof.
  intros Hfit Hle Ht. unfold distance.
  assert (Hn : is_nan t = false) by (now destruct t).
  pose proof (@total_seconds_le 0 (a - origin) ltac:(lia)) as Hmono.
  rewrite Z.sub_diag. rewrite total_seconds_0 in *.
  destruct (total_seconds_finite _ Hfit) as (q & Hq). rewrite Hq in *.
  apply leb_fin in Hmono.
  apply abs_le_nonneg; [|now apply sub_le_l].
  destruct t as [c|[]|]; try discriminate; [|reflexivity].
  apply leb_fin in Ht.
  change (leb (fin 0) (round (0 + - c)) = true).
  apply leb_trans with (round 0); [reflexivity | apply round_le; lra].
Qed.

(** For a query at or after the time of the sample [last], an earlier
    sample is not nearer than [last]. *)
Lemma distance_after_last (origin a last : Z) (t : float) :
  int64 (a - origin) = true -> int64 (last - origin) = true ->
  (a <= last)%Z -> leb (total_seconds (last - origin)) t = true ->
  leb (distance origin t last) (distance origin t a) = true.
Proof.
  intros Hfa Hfl Hle Ht. unfold distance.
  assert (Hn : is_nan t = false)
    by (apply leb_not_nan in Ht; tauto).
  pose proof (@total_seconds_le (a - origin) (last - origin) ltac:(lia))
    as Hmono.
  destruct (total_seconds_finite _ Hfa) as (q & Hq).
  destruct (total_seconds_finite _ Hfl) as (ql & Hql).
  rewrite Hq, Hql in *. apply leb_fin in Hmono.
  apply abs_le_nonpos; [now apply sub_le_l|].
  destruct t as [c|[]|]; try discriminate; [|reflexivity].
  apply leb_fin in Ht.
  change (leb (round (ql + - c)) (fin 0) = true).
  apply leb_trans with (round 0); [apply round_le; lra | reflexivity].
Qed.

(** *** The lookup *)

(** What a lookup that returns has done. *)
Lemma get_accel_at_time_ok (df df' : DataFrame) (s : Series) (t : float) :
  get_accel_at_time df t = Ok (df', s) ->
  exists adjusted origin r a,
    adjusted_timestamp df = Some adjusted
    /\ series_min adjusted = Some origin
    /\ Forall (fun a => int64 (a - origin) = true) adjusted
    /\ df' = mkDataFrame
               (readings df) (Some adjusted)
               (Some (map (fun a => total_seconds (a - origin)) adjusted))
    /\ nth_error (readings df) (name s) = Some r
    /\ nth_error adjusted (name s) = Some a
    /\ values s = mkRow r (Some a) (Some (total_seconds (a - origin)))
    /\ is_nan t = false
    /\ (forall j aj, nth_error adjusted j = Some aj ->
          leb (distance origin t a) (distance origin t aj) = true)
    /\ (forall j aj, j < name s -> nth_error adjusted j = Some aj ->
          ltb (distance origin t a) (distance origin t aj) = true).
Proof.
  unfold get_accel_at_time.
  destruct (adjusted_timestamp df) as [adj|] eqn:Hadj; cbn [column bind];
    [|discriminate].
  destruct (series_min adj) as [origin|] eqn:Hmin.
  - destruct (mapM _ adj) as [deltas|] eqn:Hd; cbn [bind]; [|discriminate].
    apply mapM_checked in Hd. destruct Hd as [-> Hfit].
    rewrite !map_map. fold (distance origin t).
    destruct (idxmin _) as [[i|]|] eqn:Hidx; cbn [bind loc]; try discriminate.
    cbn [readings adjusted_timestamp relative_sec cell].
    destruct (nth_error (readings df) i) as [r|] eqn:Hr; [|discriminate].
    cbn [bind]. intros [= <- <-]. cbn [name values].
    destruct (idxmin_ok _ Hidx) as (v & Hv & Hn & Hle & Hlt).
    rewrite nth_error_map in Hv.
    destruct (nth_error adj i) as [a|] eqn:Ha; [|discriminate].
    cbn in Hv. injection Hv as <-.
    assert (Ht : is_nan t = false).
    { destruct t as [c|[]|]; try reflexivity.
      now rewrite distance_nan in Hn. }
    assert (Hd : forall j aj, nth_error adj j = Some aj ->
                              is_nan (distance origin t aj) = false).
    { intros j aj Hj. apply distance_not_nan; [|assumption].
      rewrite Forall_forall in Hfit. apply Hfit.
      eapply nth_error_In; eauto. }
    exists adj, origin, r, a.
    split; [reflexivity|]. split; [exact Hmin|]. split; [exact Hfit|].
    split; [reflexivity|]. split; [exact Hr|]. split; [exact Ha|].
    split.
    { rewrite nth_error_map, ?Ha. reflexivity. }
    split; [assumption|]. split.
    + intros j aj Hj. apply (Hle j); [|eauto].
      rewrite nth_error_map, Hj. reflexivity.
    + intros j aj Hlt' Hj. apply (Hlt j); [assumption| |eauto].
      rewrite nth_error_map, Hj. reflexivity.
  - cbn [bind map idxmin]. discriminate.
Qed.

(** When a lookup returns. *)
Lemma get_accel_at_time_returns (df : DataFrame) (adjusted : list Z)
      (t : float) :
  adjusted_timestamp df = Some adjusted ->
  adjusted <> [] ->
  length adjusted = length (readings df) ->
  span_fits adjusted ->
  is_nan t = false ->
  exists df' s, get_accel_at_time df t = Ok (df', s).
Proof.
  intros Hadj Hne Hlen Hspan Ht.
  destruct (series_min_spec Hne) as (origin & Hmin & Hin & _).
  assert (Hfit : Forall (fun a => int64 (a - origin) = true) adjusted).
  { apply Forall_forall. intros a Ha. now apply Hspan. }
  unfold get_accel_at_time. rewrite Hadj. cbn [column bind]. rewrite Hmin.
  rewrite (mapM_checked_ok _ Hfit). cbn [bind].
  rewrite !map_map. fold (distance origin t).
  destruct (@idxmin_returns (map (distance origin t) adjusted))
    as (i & Hi & Hlt).
  { destruct adjusted; [congruence | discriminate]. }
  { apply Forall_map. eapply Forall_impl; [|exact Hfit].
    intros a Ha. now apply distance_not_nan. }
  rewrite Hi. cbn [bind loc readings].
  rewrite length_map, Hlen in Hlt.
  destruct (nth_error (readings df) i) as [r|] eqn:Hr.
  - cbn [bind]. eauto.
  - apply nth_error_None in Hr. lia.
Qed.

(** C1 (amended).  For every table whose column 'adjusted_timestamp' is
    not empty and spans less than 2^63 ns, sorted or not, and every query
    time [t] that is not NaN, [get_accel_at_time] returns a row of the
    table, and that row minimises the distance between [t] and the row's
    adjusted timestamp counted from the earliest adjusted timestamp of
    the table ([origin]); the distance is the one the code computes in
    binary64, [distance].  Among the rows at that least distance it is
    the one of lowest index. *)
Theorem get_accel_at_time_nearest_relative (df : DataFrame)
        (adjusted : list Z) (t : float) :
  adjusted_timestamp df = Some adjusted ->
  adjusted <> [] ->
  length adjusted = length (readings df) ->
  span_fits adjusted ->
  is_nan t = false ->
  exists origin df' s r a,
    get_accel_at_time df t = Ok (df', s)
    /\ series_min adjusted = Some origin
    /\ In origin adjusted
    /\ (forall aj, In aj adjusted -> (origin <= aj)%Z)
    /\ nth_error (readings df) (name s) = Some r
    /\ sample (values s) = r
    /\ nth_error adjusted (name s) = Some a
    /\ row_adjusted_timestamp (values s) = Some a
    /\ forall j aj, nth_error adjusted j = Some aj ->
         leb (distance origin t a) (distance origin t aj) = true
         /\ (j < name s ->
             ltb (distance origin t a) (distance origin t aj) = true).
Proof.
  intros Hadj Hne Hlen Hspan Ht.
  destruct (get_accel_at_time_returns df t Hadj Hne Hlen Hspan Ht)
    as (df' & s & Hget).
  destruct (get_accel_at_time_ok _ _ Hget)
    as (adj & origin & r & a & Hadj' & Hmin & _ & _ & Hr & Ha & Hv & _
        & Hle & Hlt).
  assert (adj = adjusted) by congruence. subst adj.
  destruct (series_min_spec Hne) as (m & Hm & Hin & Hleast).
  assert (m = origin) by congruence. subst m.
  exists origin, df', s, r, a. rewrite Hv. cbn [sample row_reading
    row_adjusted_timestamp].
  repeat (split; [assumption || reflexivity|]).
  intros j aj Hj. split; [eapply Hle; eauto | intro; eapply Hlt; eauto].
Qed.

(** *** Synchronisation *)

Lemma synchronize_timestamps_ok (df dfx : DataFrame) (x : float) :
  synchronize_timestamps df x = Ok dfx ->
  exists td,
    to_timedelta x = Ok td
    /\ Forall (fun r => int64 (Timestamp r + td) = true) (readings df)
    /\ dfx = mkDataFrame (readings df)
               (Some (map (fun r => (Timestamp r + td)%Z) (readings df)))
               (relative_sec df).
Proof.
  unfold synchronize_timestamps.
  destruct (to_timedelta x) as [td|]; [|discriminate]. cbn [bind].
  destruct (mapM _ _) as [adj|] eqn:E; [|discriminate]. cbn [bind].
  apply mapM_checked in E. destruct E as [-> Hfit].
  intros [= <-]. eauto.
Qed.

Lemma synchronize_timestamps_returns (df : DataFrame) (x : float) (td : Z) :
  to_timedelta x = Ok td ->
  Forall (fun r => int64 (Timestamp r + td) = true) (readings df) ->
  synchronize_timestamps df x
  = Ok (mkDataFrame (readings df)
          (Some (map (fun r => (Timestamp r + td)%Z) (readings df)))
          (relative_sec df)).
Proof.
  intros Htd Hfit. unfold synchronize_timestamps. rewrite Htd. cbn [bind].
  rewrite (mapM_checked_ok _ Hfit). reflexivity.
Qed.

(** An offset that pandas cannot convert, or that moves a timestamp out
    of the range of [datetime64[ns]], makes the synchronisation raise. *)
Lemma synchronize_timestamps_raises (df : DataFrame) (x : float) :
  (forall e, to_timedelta x = Raise e ->
             synchronize_timestamps df x = Raise e)
  /\ (forall td, to_timedelta x = Ok td ->
                 Exists (fun r => int64 (Timestamp r + td) = false)
                        (readings df) ->
                 synchronize_timestamps df x = Raise OverflowError).
Proof.
  unfold synchronize_timestamps. split.
  - intros e ->. reflexivity.
  - intros td -> H. cbn [bind].
    induction H as [r rs Hr | r rs _ IH]; cbn [mapM].
    + unfold checked at 1. now rewrite Hr.
    + unfold checked at 1. destruct (int64 _); [|reflexivity]. cbn [bind].
      destruct (mapM _ rs); [discriminate | cbn [bind] in *].
      now injection IH as ->.
Qed.

(** The lookup on a table synchronised with the Timedelta [d] gives, the
    column 'adjusted_timestamp' put aside, what it gives with the
    Timedelta 0. *)
Lemma lookup_shift (rs : list Reading) (rel : option (list float)) (d : Z)
      (t : float) :
  drop_adjusted
    (get_accel_at_time
       (mkDataFrame rs (Some (map (fun r => (Timestamp r + d)%Z) rs)) rel) t)
  = drop_adjusted
      (get_accel_at_time
         (mkDataFrame rs (Some (map (fun r => (Timestamp r + 0)%Z) rs)) rel) t).
Proof.
  assert (H : forall d,
             drop_adjusted
               (get_accel_at_time
                  (mkDataFrame rs (Some (map (fun r => (Timestamp r + d)%Z) rs))
                               rel) t)
             = match series_min (map Timestamp rs) with
               | None => Raise ValueError
               | Some m =>
                   deltas <- mapM (fun r => checked (Timestamp r - m)%Z) rs ;;
                   let rel' := map total_seconds deltas in
                   idx <- idxmin (map (fun r => abs (sub r t)) rel') ;;
                   match idx with
                   | None => Raise KeyError
                   | Some i =>
                       match nth_error rs i with
                       | Some r => Ok (rs, Some rel', i, r, nth_error rel' i)
                       | None => Raise KeyError
                       end
                   end
               end).
  { intro d'. unfold get_accel_at_time.
    cbn [adjusted_timestamp column bind readings].
    rewrite <- (map_map Timestamp (fun v => (v + d')%Z)), series_min_shift.
    destruct (series_min (map Timestamp rs)) as [m|]; cbn [option_map].
    - rewrite !mapM_map.
      rewrite (@mapM_ext _ _
                 (fun r => checked (Timestamp r + d' - (m + d'))%Z)
                 (fun r => checked (Timestamp r - m)%Z))
        by (intros; f_equal; lia).
      destruct (mapM _ rs) as [deltas|]; cbn [bind]; [|reflexivity].
      destruct (idxmin _) as [[i|]|]; cbn [bind loc]; try reflexivity.
      cbn [readings]. destruct (nth_error rs i); reflexivity.
    - reflexivity. }
  now rewrite !H.
Qed.

(** C2 (amended).  For every table, every query time [t] and every two
    offsets [x] and [y] with which [synchronize_timestamps] returns, the
    lookups after the two synchronisations either raise the same
    exception or return the row of the same label: the two returned rows,
    and the two tables, agree on every column except
    'adjusted_timestamp', which in each returned row holds the timestamp
    shifted by the offset applied. *)
Theorem lookup_independent_of_offset (df dfx dfy : DataFrame)
        (t x y : float) :
  synchronize_timestamps df x = Ok dfx ->
  synchronize_timestamps df y = Ok dfy ->
  drop_adjusted (get_accel_at_time dfx t)
  = drop_adjusted (get_accel_at_time dfy t)
  /\ (forall df' s,
         get_accel_at_time dfx t = Ok (df', s) ->
         exists td,
           to_timedelta x = Ok td
           /\ row_adjusted_timestamp (values s)
              = Some (Timestamp (sample (values s)) + td)%Z)
  /\ (forall df' s,
         get_accel_at_time dfy t = Ok (df', s) ->
         exists td,
           to_timedelta y = Ok td
           /\ row_adjusted_timestamp (values s)
              = Some (Timestamp (sample (values s)) + td)%Z).
Proof.
  intros Hx Hy.
  apply synchronize_timestamps_ok in Hx, Hy.
  destruct Hx as (tx & Hx & _ & ->). destruct Hy as (ty & Hy & _ & ->).
  assert (Hcell : forall td df' s,
             get_accel_at_time
               (mkDataFrame (readings df)
                  (Some (map (fun r => (Timestamp r + td)%Z) (readings df)))
                  (relative_sec df)) t = Ok (df', s) ->
             row_adjusted_timestamp (values s)
             = Some (Timestamp (sample (values s)) + td)%Z).
  { intros td df' s Hget.
    destruct (get_accel_at_time_ok _ _ Hget)
      as (adj & origin & r & a & Hadj & _ & _ & _ & Hr & Ha & -> & _).
    cbn in Hadj, Hr. injection Hadj as <-.
    rewrite nth_error_map, Hr in Ha. cbn in Ha. injection Ha as <-.
    reflexivity. }
  split; [|split].
  - rewrite (lookup_shift _ _ tx), (lookup_shift _ _ ty). reflexivity.
  - intros df' s Hget. exists tx. split; [assumption | eauto].
  - intros df' s Hget. exists ty. split; [assumption | eauto].
Qed.

(** C8 (amended).  For every offset [x] that pandas converts to a
    Timedelta [td] which keeps every shifted timestamp in the range of
    [datetime64[ns]], [synchronize_timestamps] returns; it does not change
    TIME_COL and computes 'adjusted_timestamp' from TIME_COL: the column
    holds every timestamp shifted by [td] (so subtracting the shift gives
    the timestamps back), and applying any offset [y] afterwards gives
    what [y] alone gives.  With [y = -x] the adjusted timestamps are
    therefore the timestamps shifted by [-x], not the timestamps. *)
Theorem synchronize_timestamps_last_offset_wins (df : DataFrame)
        (x y : float) (td : Z) :
  to_timedelta x = Ok td ->
  Forall (fun r => int64 (Timestamp r + td) = true) (readings df) ->
  exists dfx,
    synchronize_timestamps df x = Ok dfx
    /\ readings dfx = readings df
    /\ adjusted_timestamp dfx
       = Some (map (fun r => (Timestamp r + td)%Z) (readings df))
    /\ map (fun a => (a - td)%Z)
           (map (fun r => (Timestamp r + td)%Z) (readings df))
       = map Timestamp (readings df)
    /\ synchronize_timestamps dfx y = synchronize_timestamps df y.
Proof.
  intros Htd Hfit. eexists. split.
  - now apply synchronize_timestamps_returns with (td := td).
  - cbn [readings adjusted_timestamp]. repeat split.
    rewrite map_map. apply map_ext. intro r. lia.
Qed.

(** *** Edge cases of the lookup *)

Lemma sorted_series_min (first : Z) (rest : list Z) :
  sorted (first :: rest) -> series_min (first :: rest) = Some first.
Proof.
  intro Hs. apply StronglySorted_inv in Hs. destruct Hs as [_ Hall].
  cbn. f_equal.
  destruct (fold_min_le rest first) as [H1 H2].
  destruct (fold_min_in rest first) as [H | H]; [assumption|].
  rewrite Forall_forall in Hall. specialize (Hall _ H). lia.
Qed.

Lemma last_In {A : Type} (l : list A) (a d : A) :
  In (last (a :: l) d) (a :: l).
Proof.
  revert a. induction l as [|b l IH]; intro a; [now left|].
  right. exact (IH b).
Qed.

Lemma sorted_last (l : list Z) :
  sorted l -> forall d a, In a l -> (a <= last l d)%Z.
Proof.
  induction 1 as [|x l Hs IH Hall]; intros d a; [intros []|].
  intros [Hx | Ha].
  - subst a. destruct l as [|y l]; [cbn; lia|].
    rewrite Forall_forall in Hall. apply Hall. exact (last_In l y d).
  - destruct l as [|y l]; [destruct Ha|]. exact (IH d a Ha).
Qed.

Lemma last_cons {A : Type} (l : list A) (a d : A) :
  last (a :: l) d = last l a.
Proof.
  revert a d. induction l as [|b l IH]; intros a d; [reflexivity|].
  change (last (a :: b :: l) d) with (last (b :: l) d).
  rewrite (IH b d), (IH b a). reflexivity.
Qed.

Lemma nth_error_last {A : Type} (l : list A) (a : A) :
  nth_error (a :: l) (length l) = Some (last l a).
Proof.
  revert a. induction l as [|b l IH]; intro a; [reflexivity|].
  cbn [length nth_error]. rewrite IH.
  f_equal. symmetry. apply last_cons.
Qed.


Lemma lookup_table_stable (df df1 : DataFrame) (s1 : Series)
      (t1 t2 : float) :
  get_accel_at_time df t1 = Ok (df1, s1) ->
  get_accel_at_time df1 t2 = get_accel_at_time df t2
  /\ forall df2 s2, get_accel_at_time df t2 = Ok (df2, s2) -> df2 = df1.
Proof.
  intro H1.
  destruct (get_accel_at_time_ok _ _ H1)
    as (adj & origin & _ & _ & Hadj & Hmin & _ & -> & _).
  split.
  - unfold get_accel_at_time. cbn [adjusted_timestamp readings].
    rewrite Hadj. reflexivity.
  - intros df2 s2 H2.
    destruct (get_accel_at_time_ok _ _ H2)
      as (adj' & origin' & _ & _ & Hadj' & Hmin' & _ & -> & _).
    assert (adj' = adj) by congruence. subst adj'.
    assert (origin' = origin) by congruence. subst origin'.
    reflexivity.
Qed.

(** The table is shared between the lookups and each lookup rewrites its
    column 'relative_sec'; a lookup on the table that an earlier lookup
    left behind nevertheless gives what it gives on the table as it was,
    and every lookup leaves the same table behind. *)
Theorem lookup_after_lookup (df df1 : DataFrame) (s1 : Series)
        (t1 t2 : float) :
  get_accel_at_time df t1 = Ok (df1, s1) ->
  get_accel_at_time df1 t2 = get_accel_at_time df t2
  /\ forall df2 s2, get_accel_at_time df t2 = Ok (df2, s2) -> df2 = df1.
Proof. apply lookup_table_stable. Qed.

End MainProofs.

(** *** main.py on concrete tables *)

Section MainExamples.
Import Main MainSpec.
#[local] Existing Instance pandas_ns.

(** The three-sample series of the specification: timestamps 0 s, 1 s
    and 2 s, values 1, 2 and 3. *)
Definition series_0_1_2 : DataFrame := loaded [raw 0 1; raw 1 2; raw 2 3].

(** Timestamps 10 s and 20 s. *)
Definition series_10_20 : DataFrame := loaded [raw 10 1; raw 20 2].

(** Two samples share the last timestamp. *)
Definition series_0_1_1 : DataFrame := loaded [raw 0 1; raw 1 2; raw 1 3].

(** Timestamps 0 s, 0.3 s and 0.7 s. *)
Definition series_0_03_07 : DataFrame :=
  loaded [raw 0 1;
          mkReading 300000000 (fin 2) (fin 0) (fin 0);
          mkReading 700000000 (fin 3) (fin 0) (fin 0)].

(** No row, and no column but those of the file. *)
Definition no_rows : DataFrame := loaded [].

(** A table after [synchronize_timestamps] with the offset 0. *)
Definition synchronized (df : DataFrame) : DataFrame :=
  mkDataFrame (readings df) (Some (map Timestamp (readings df)))
              (relative_sec df).

Lemma synchronized_0 :
  synchronize_timestamps series_0_1_2 (fin 0) = Ok (synchronized series_0_1_2)
  /\ synchronize_timestamps series_10_20 (fin 0)
     = Ok (synchronized series_10_20)
  /\ synchronize_timestamps series_0_1_1 (fin 0)
     = Ok (synchronized series_0_1_1)
  /\ synchronize_timestamps series_0_03_07 (fin 0)
     = Ok (synchronized series_0_03_07)
  /\ synchronize_timestamps no_rows (fin 0) = Ok (synchronized no_rows).
Proof. repeat split. Qed.

(** The label and the sample that main.py matches to the time [t] after
    the manual offset [x]. *)
Definition matched (df : DataFrame) (x t : float) : result (nat * Reading) :=
  df <- synchronize_timestamps df x ;;
  ' (_, s) <- get_accel_at_time df t ;;
  Ok (name s, sample (values s)).

(** The scenario of the specification: 0.49 s matches the first sample,
    0.51 s the second, 5.0 s the third. *)
Example scenario_nearest_sample :
  matched series_0_1_2 (fin 0) (of_Q (49 # 100)) = Ok (0, raw 0 1)
  /\ matched series_0_1_2 (fin 0) (of_Q (51 # 100)) = Ok (1, raw 1 2)
  /\ matched series_0_1_2 (fin 0) (fin 5) = Ok (2, raw 2 3).
Proof. repeat split; vm_compute; reflexivity. Qed.

(** Distances are compared as the code computes them.  The query time
    0.5 s is as far from 0.3 s as from 0.7 s, and the sample of lower
    index is the one at 0.3 s; in binary64 the two distances are 0.2 and
    0.19999999999999996, and the lookup returns the sample at 0.7 s. *)
Example nearest_sample_in_binary64 :
  matched series_0_03_07 (fin 0) (of_Q (1 # 2))
  = Ok (2, mkReading 700000000 (fin 3) (fin 0) (fin 0))
  /\ ((1 # 2) - (3 # 10) == (7 # 10) - (1 # 2))%Q
  /\ ltb (distance 0 (of_Q (1 # 2)) 700000000)
         (distance 0 (of_Q (1 # 2)) 300000000) = true.
Proof. repeat split; vm_compute; reflexivity. Qed.

(** A lookup on a table that [synchronize_timestamps] has not been
    applied to raises [KeyError], with or without rows; after the
    synchronisation a table without rows gives [ValueError]. *)
Example lookup_without_samples :
  get_accel_at_time no_rows (fin 0) = Raise KeyError
  /\ get_accel_at_time series_0_1_2 (fin 0) = Raise KeyError
  /\ matched no_rows (fin 0) (fin 0) = Raise ValueError.
Proof. repeat split. Qed.

(** An offset of 10^10 s is more than a Timedelta can hold. *)
Example offset_out_of_bounds :
  synchronize_timestamps series_0_1_2 (of_Q 10000000000)
  = Raise OutOfBoundsTimedelta.
Proof. vm_compute. reflexivity. Qed.

Lemma series_sorted :
  sorted [0; 1000000000; 2000000000]%Z
  /\ sorted [10000000000; 20000000000]%Z
  /\ sorted [0; 1000000000; 1000000000]%Z.
Proof.
  unfold sorted.
  repeat split; repeat (constructor; [|repeat constructor; lia]); constructor.
Qed.

Lemma span_fits_0_1_2 : span_fits [0; 1000000000; 2000000000]%Z.
Proof.
  intros a b Ha Hb. cbn in Ha, Hb.
  repeat match goal with
         | H : _ \/ _ |- _ => destruct H as [<- | H]
         | H : False |- _ => destruct H
         end; reflexivity.
Qed.

Lemma get_accel_at_time_nearest_relative_witness :
  adjusted_timestamp (synchronized series_0_1_2)
  = Some [0; 1000000000; 2000000000]%Z
  /\ [0; 1000000000; 2000000000]%Z <> []
  /\ length [0; 1000000000; 2000000000]%Z
     = length (readings (synchronized series_0_1_2))
  /\ span_fits [0; 1000000000; 2000000000]%Z
  /\ is_nan (of_Q (49 # 100)) = false
  /\ exists df' s,
      get_accel_at_time (synchronized series_0_1_2) (of_Q (49 # 100))
      = Ok (df', s)
      /\ name s = 0
      /\ row_adjusted_timestamp (values s) = Some 0%Z.
Proof.
  assert (H1 : adjusted_timestamp (synchronized series_0_1_2)
               = Some [0; 1000000000; 2000000000]%Z) by reflexivity.
  assert (H2 : [0; 1000000000; 2000000000]%Z <> []) by discriminate.
  assert (H3 : length [0; 1000000000; 2000000000]%Z
               = length (readings (synchronized series_0_1_2)))
    by reflexivity.
  pose proof span_fits_0_1_2 as H4.
  assert (H5 : is_nan (of_Q (49 # 100)) = false) by reflexivity.
  do 5 (split; [assumption|]).
  destruct (get_accel_at_time_nearest_relative _ _ H1 H2 H3 H4 H5)
    as (origin & df' & s & r & a & Hget & _).
  exists df', s. split; [exact Hget|].
  eassert (Hc : get_accel_at_time (synchronized series_0_1_2)
                                  (of_Q (49 # 100)) = Ok _)
    by (vm_compute; reflexivity).
  rewrite Hc in Hget. injection Hget as _ <-. split; reflexivity.
Defined.

(** C1 as stated fails: in the sorted series with timestamps 10 s and
    20 s the query time 12 s is matched to the sample at 20 s, which is
    8 s away, although the sample at 10 s is 2 s away. *)
Lemma nearest_by_absolute_timestamp_fails :
  sorted (map Timestamp (readings series_10_20))
  /\ exists df' s,
      get_accel_at_time (synchronized series_10_20) (fin 12) = Ok (df', s)
      /\ name s = 1
      /\ Timestamp (sample (values s)) = 20000000000%Z
      /\ row_adjusted_timestamp (values s) = Some 20000000000%Z
      /\ abs (sub (total_seconds (Timestamp (sample (values s)))) (fin 12))
         = fin 8
      /\ abs (sub (total_seconds (Timestamp (raw 10 1))) (fin 12)) = fin 2.
Proof.
  split; [apply series_sorted|].
  do 2 eexists. split; [vm_compute; reflexivity|].
  cbn [name values sample row_reading row_adjusted_timestamp Timestamp].
  repeat split; vm_compute; reflexivity.
Qed.

Lemma lookup_independent_of_offset_witness :
  synchronize_timestamps series_0_1_2 (fin 0)
  = Ok (synchronized series_0_1_2)
  /\ synchronize_timestamps series_0_1_2 (fin 1)
     = Ok (mkDataFrame (readings series_0_1_2)
             (Some [1000000000; 2000000000; 3000000000]%Z) None)
  /\ drop_adjusted
       (get_accel_at_time (synchronized series_0_1_2) (of_Q (51 # 100)))
     = drop_adjusted
         (get_accel_at_time
            (mkDataFrame (readings series_0_1_2)
               (Some [1000000000; 2000000000; 3000000000]%Z) None)
            (of_Q (51 # 100))).
Proof.
  assert (H1 : synchronize_timestamps series_0_1_2 (fin 0)
               = Ok (synchronized series_0_1_2)) by reflexivity.
  assert (H2 : synchronize_timestamps series_0_1_2 (fin 1)
               = Ok (mkDataFrame (readings series_0_1_2)
                       (Some [1000000000; 2000000000; 3000000000]%Z) None))
    by reflexivity.
  do 2 (split; [assumption|]).
  exact (proj1 (@lookup_independent_of_offset
                  pandas_ns series_0_1_2 _ _ (of_Q (51 # 100)) (fin 0) (fin 1)
                  H1 H2)).
Defined.

(** C2 as stated fails: the rows returned after the offsets 0 s and 1 s
    are not equal, their 'adjusted_timestamp' differs. *)
Lemma returned_row_depends_on_offset :
  exists dfx dfy dfx' sx dfy' sy,
    synchronize_timestamps series_0_1_2 (fin 0) = Ok dfx
    /\ synchronize_timestamps series_0_1_2 (fin 1) = Ok dfy
    /\ get_accel_at_time dfx (fin 0) = Ok (dfx', sx)
    /\ get_accel_at_time dfy (fin 0) = Ok (dfy', sy)
    /\ row_adjusted_timestamp (values sx) = Some 0%Z
    /\ row_adjusted_timestamp (values sy) = Some 1000000000%Z
    /\ values sx <> values sy.
Proof.
  do 6 eexists. split; [reflexivity|]. split; [reflexivity|].
  split; [vm_compute; reflexivity|]. split; [vm_compute; reflexivity|].
  cbn. repeat split. discriminate.
Qed.

Lemma synchronize_timestamps_last_offset_wins_witness :
  @to_timedelta pandas_ns (fin 1) = Ok 1000000000%Z
  /\ Forall (fun r => int64 (Timestamp r + 1000000000) = true)
            (readings series_0_1_2)
  /\ exists dfx,
      synchronize_timestamps series_0_1_2 (fin 1) = Ok dfx
      /\ adjusted_timestamp dfx
         = Some [1000000000; 2000000000; 3000000000]%Z
      /\ synchronize_timestamps dfx (fin (-1))
         = synchronize_timestamps series_0_1_2 (fin (-1)).
Proof.
  assert (H1 : @to_timedelta pandas_ns (fin 1) = Ok 1000000000%Z)
    by reflexivity.
  assert (H2 : Forall (fun r => int64 (Timestamp r + 1000000000) = true)
                      (readings series_0_1_2))
    by (repeat constructor).
  do 2 (split; [assumption|]).
  destruct (@synchronize_timestamps_last_offset_wins
              pandas_ns series_0_1_2 (fin 1) (fin (-1)) _ H1 H2)
    as (dfx & Hx & _ & Hadj & _ & Hy).
  exists dfx. split; [exact Hx|]. split; [exact Hadj | exact Hy].
Defined.

(** C8 as stated fails: after the offset 1 s and then the offset -1 s the
    adjusted timestamps are the timestamps moved back by one second. *)
Lemma offset_round_trip_fails :
  exists dfx dfy,
    synchronize_timestamps series_0_1_2 (fin 1) = Ok dfx
    /\ synchronize_timestamps dfx (fin (-1)) = Ok dfy
    /\ adjusted_timestamp dfy = Some [-1000000000; 0; 1000000000]%Z
    /\ map Timestamp (readings series_0_1_2)
       = [0; 1000000000; 2000000000]%Z
    /\ map Timestamp (readings dfy) = [0; 1000000000; 2000000000]%Z.
Proof.
  do 2 eexists. split; [reflexivity|]. split; [reflexivity|].
  repeat split.
Qed.



End MainExamples.

(** ** Geometry: resize_to_height and the inline height matching *)

Section ResizeProofs.
Import cv2 VideoSpec.
Import CombineThreeVideos.
Context {opencv : OpenCV}.

Lemma Qeq_bool_false (a b : Q) : Qeq_bool a b = false <-> ~ (a == b)%Q.
Proof.
  split.
  - intros H E. apply Qeq_bool_iff in E. congruence.
  - intro H. destruct (Qeq_bool a b) eqn:E; [|reflexivity].
    apply Qeq_bool_iff in E. contradiction.
Qed.

Lemma Qabs_inject_Z (z : Z) : Qabs (inject_Z z) = inject_Z (Z.abs z).
Proof. reflexivity. Qed.

Lemma inject_Z_nonzero (z : Z) : z <> 0%Z -> ~ (inject_Z z == 0)%Q.
Proof.
  intros Hz E. apply Hz. unfold Qeq in E. cbn in E. lia.
Qed.

(** The quotient of two exact ints rounds to a finite float. *)
Lemma ratio_finite (t h : Z) :
  exact_int t -> h <> 0%Z ->
  exists ratio,
    round (inject_Z t / inject_Z h) = fin ratio
    /\ (Qabs ratio <= pow2 53)%Q.
Proof.
  intros Ht Hh. apply round_bounded; [lia|].
  unfold Qdiv. rewrite Qabs_Qmult, Qabs_Qinv, !Qabs_inject_Z.
  assert (H1 : (0 < inject_Z (Z.abs h))%Q).
  { change 0%Q with (inject_Z 0). rewrite <- Zlt_Qlt. lia. }
  apply Qle_shift_div_r; [assumption|].
  rewrite pow2_inject_Z by lia. rewrite <- inject_Z_mult, <- Zle_Qle.
  unfold exact_int in Ht. nia.
Qed.

Lemma product_finite (w : Z) (ratio : Q) :
  exact_int w -> (Qabs ratio <= pow2 53)%Q ->
  exists product, round (inject_Z w * ratio) = fin product.
Proof.
  intros Hw Hr.
  destruct (@round_bounded 106 (inject_Z w * ratio)) as (p & Hp & _);
    [lia | | eauto].
  rewrite Qabs_Qmult, Qabs_inject_Z.
  replace 106%Z with (53 + 53)%Z by reflexivity. rewrite pow2_plus.
  assert (H1 : (inject_Z (Z.abs w) <= pow2 53)%Q).
  { rewrite pow2_inject_Z by lia. rewrite <- Zle_Qle.
    unfold exact_int in Hw. lia. }
  assert (H2 : (0 <= inject_Z (Z.abs w))%Q).
  { change 0%Q with (inject_Z 0). rewrite <- Zle_Qle. lia. }
  pose proof (Qabs_nonneg ratio) as H3.
  pose proof (pow2_pos 53) as H4.
  generalize dependent (inject_Z (Z.abs w)). intros a H1 H2.
  generalize dependent (Qabs ratio). intros r Hr H3.
  generalize dependent (pow2 53). intros p Hr H1 H4.
  nra.
Qed.

(** What [resize_to_height] computes when the height has to change:
    [ratio] is the float quotient of the heights, [product] the float
    product of the width and [ratio], and the new width is [product]
    truncated. *)
Lemma resize_to_height_float (frame : Frame) (target_height : Z) :
  exact_int (width frame) -> exact_int (height frame) ->
  exact_int target_height ->
  height frame <> target_height -> height frame <> 0%Z ->
  exists ratio product,
    round (inject_Z target_height / inject_Z (height frame)) = fin ratio
    /\ round (inject_Z (width frame) * ratio) = fin product
    /\ resize_to_height frame target_height
       = resize frame (Py.int product, target_height).
Proof.
  intros Hw Hh Ht Hne H0.
  destruct (@ratio_finite _ _ Ht H0) as (ratio & Hratio & Hb).
  destruct (@product_finite _ _ Hw Hb) as (product & Hproduct).
  exists ratio, product. split; [assumption|]. split; [assumption|].
  unfold resize_to_height. apply Z.eqb_neq in Hne. rewrite Hne.
  rewrite !of_int_small by assumption. cbn [bind].
  assert (E : Qeq_bool (Qred (inject_Z (height frame))) 0 = false).
  { apply Qeq_bool_false. rewrite Qred_correct. now apply inject_Z_nonzero. }
  unfold PyFloat.truediv. cbn [eqb]. rewrite E. cbn [bind div]. rewrite E.
  rewrite (@round_comp _ (inject_Z target_height / inject_Z (height frame)))
    by (now rewrite !Qred_correct).
  rewrite Hratio. cbn [mul].
  rewrite (@round_comp _ (inject_Z (width frame) * ratio))
    by (now rewrite !Qred_correct).
  rewrite Hproduct. reflexivity.
Qed.

Lemma resize_to_height_zero (frame : Frame) (target_height : Z) :
  exact_int target_height ->
  height frame <> target_height -> height frame = 0%Z ->
  resize_to_height frame target_height = Raise ZeroDivisionError.
Proof.
  intros Ht Hne H0. unfold resize_to_height.
  apply Z.eqb_neq in Hne. rewrite Hne, H0.
  rewrite !of_int_small by first [assumption | reflexivity]. reflexivity.
Qed.

(** The block of create_side_by_side_video_offset.py is
    [resize_to_height] with the height of the first frame as target. *)
Lemma match_heights_resize_to_height (frame1 frame : Frame) :
  CreateSideBySideVideoOffset.match_heights frame1 frame
  = resize_to_height frame (height frame1).
Proof.
  unfold CreateSideBySideVideoOffset.match_heights, resize_to_height.
  rewrite (Z.eqb_sym (height frame1)).
  destruct (height frame =? height frame1)%Z; reflexivity.
Qed.

(** C5 (amended).  For every frame and every target height that
    [float()] represents exactly, [resize_to_height] returns the frame
    unchanged when its height is the target height; otherwise it raises
    [ZeroDivisionError] when the height of the frame is 0, and else calls
    [cv2.resize] with the target height and the width
    [int(width * (target / float(height)))]: the quotient is rounded to a
    float, the product with the width is rounded to a float, and the
    result is truncated toward zero, not rounded.  [cv2.resize] raises
    unless the frame and the new size are not empty.  The inline height
    matching of create_side_by_side_video_offset.py is the same function.
    A 200x50 frame brought to height 100 becomes 400x100. *)
Theorem resize_to_height_truncates (frame frame1 : Frame) (target_height : Z) :
  exact_int (width frame) -> exact_int (height frame) ->
  exact_int target_height ->
  (height frame = target_height ->
   resize_to_height frame target_height = Ok frame)
  /\ (height frame <> target_height ->
      (height frame = 0%Z ->
       resize_to_height frame target_height = Raise ZeroDivisionError)
      /\ (height frame <> 0%Z ->
          exists ratio product,
            round (inject_Z target_height / inject_Z (height frame))
            = fin ratio
            /\ round (inject_Z (width frame) * ratio) = fin product
            /\ (forall frame',
                   resize_to_height frame target_height = Ok frame' ->
                   height frame' = target_height
                   /\ width frame' = Py.int product)
            /\ (is_ok (resize_to_height frame target_height) = true <->
                (0 < width frame /\ 0 < height frame /\ 0 < target_height
                 /\ 0 < Py.int product)%Z)
            /\ (is_ok (resize_to_height frame target_height) = false ->
                resize_to_height frame target_height = Raise cv2_error)))
  /\ CreateSideBySideVideoOffset.match_heights frame1 frame
     = resize_to_height frame (height frame1)
  /\ (forall px,
         resize_to_height (mkFrame 50 200 px) 100
         = Ok (mkFrame 100 400 (resize_pixels px (400, 100)%Z))).
Proof.
  intros Hw Hh Ht. split; [|split; [|split]].
  - intro E. unfold resize_to_height. apply Z.eqb_eq in E. now rewrite E.
  - intro Hne. split; [now apply resize_to_height_zero|].
    intro H0.
    destruct (@resize_to_height_float _ _ Hw Hh Ht Hne H0)
      as (ratio & product & Hr & Hp & ->).
    exists ratio, product. split; [assumption|]. split; [assumption|].
    unfold resize.
    destruct (0 <? width frame)%Z eqn:E1;
      destruct (0 <? height frame)%Z eqn:E2;
      destruct (0 <? Py.int product)%Z eqn:E3;
      destruct (0 <? target_height)%Z eqn:E4; cbn;
      rewrite ?Z.ltb_lt, ?Z.ltb_ge in *;
      (split; [first [discriminate
                     | intros ? [= <-]; cbn; split; reflexivity]
              | split; [split; [first [discriminate | lia] | lia]
                       | first [discriminate | reflexivity]]]).
  - apply match_heights_resize_to_height.
  - intro px. vm_compute. reflexivity.
Qed.

(** C9.  For every frame and every target height, resizing twice to the
    same height is resizing once: the second call finds the height
    already equal and returns its argument; an exception of the first
    call is the exception of the composition. *)
Theorem resize_to_height_idempotent (frame : Frame) (target_height : Z) :
  (frame' <- resize_to_height frame target_height ;;
   resize_to_height frame' target_height)
  = resize_to_height frame target_height.
Proof.
  unfold resize_to_height at 1 3.
  destruct (height frame =? target_height)%Z eqn:E.
  - cbn [bind]. unfold resize_to_height. now rewrite E.
  - destruct (PyFloat.of_int (height frame)); [|reflexivity]. cbn [bind].
    destruct (PyFloat.of_int target_height); [|reflexivity]. cbn [bind].
    destruct (PyFloat.truediv _ _) as [ratio|e]; [|reflexivity]. cbn [bind].
    destruct (PyFloat.of_int (width frame)); [|reflexivity]. cbn [bind].
    destruct (PyFloat.int _) as [new_width|e]; [|reflexivity]. cbn [bind].
    unfold resize.
    destruct (_ && _ && _ && _)%bool; [|reflexivity].
    cbn [bind]. unfold resize_to_height. cbn [height].
    now rewrite Z.eqb_refl.
Qed.

Lemma resize_to_height_height (frame frame' : Frame) (target_height : Z) :
  resize_to_height frame target_height = Ok frame' ->
  height frame' = target_height.
Proof.
  unfold resize_to_height.
  destruct (height frame =? target_height)%Z eqn:E.
  - intros [= <-]. now apply Z.eqb_eq.
  - destruct (PyFloat.of_int (height frame)); [|discriminate]. cbn [bind].
    destruct (PyFloat.of_int target_height); [|discriminate]. cbn [bind].
    destruct (PyFloat.truediv _ _) as [ratio|e]; [|discriminate]. cbn [bind].
    destruct (PyFloat.of_int (width frame)); [|discriminate]. cbn [bind].
    destruct (PyFloat.int _) as [new_width|e]; [|discriminate]. cbn [bind].
    unfold resize. destruct (_ && _ && _ && _)%bool; [|discriminate].
    now intros [= <-].
Qed.

(** The size of the resized frame depends on the size of the frame
    only. *)
Lemma resize_to_height_size (f g f' g' : Frame) (target_height : Z) :
  size f = size g ->
  resize_to_height f target_height = Ok f' ->
  resize_to_height g target_height = Ok g' ->
  size f' = size g'.
Proof.
  unfold size. intros [= Hw Hh]. unfold resize_to_height.
  rewrite Hh, Hw.
  destruct (height g =? target_height)%Z.
  - intros [= <-] [= <-]. now rewrite Hw, Hh.
  - destruct (PyFloat.of_int (height g)); [|discriminate]. cbn [bind].
    destruct (PyFloat.of_int target_height); [|discriminate]. cbn [bind].
    destruct (PyFloat.truediv _ _) as [ratio|e]; [|discriminate]. cbn [bind].
    destruct (PyFloat.of_int (width g)); [|discriminate]. cbn [bind].
    destruct (PyFloat.int _) as [new_width|e]; [|discriminate]. cbn [bind].
    unfold resize. rewrite Hh, Hw.
    destruct (_ && _ && _ && _)%bool; [|discriminate].
    intros [= <-] [= <-]. reflexivity.
Qed.

End ResizeProofs.

(** ** The compositors *)

Section CompositeProofs.
Import cv2 VideoSpec CompositeSpec.
Context {opencv : OpenCV}.

Lemma skipn_nth_error {A : Type} (l : list A) :
  forall n,
    match skipn n l with
    | [] => nth_error l n = None
    | a :: _ => nth_error l n = Some a
    end.
Proof.
  induction l as [|a l IH]; intros [|n]; cbn; try reflexivity. apply IH.
Qed.

Lemma skipn_S_tl {A : Type} (l : list A) :
  forall n, skipn (S n) l = tl (skipn n l).
Proof.
  induction l as [|a l IH]; intros [|n]; try reflexivity.
  change (skipn (S (S n)) (a :: l)) with (skipn (S n) l).
  change (skipn (S n) (a :: l)) with (skipn n l). apply IH.
Qed.

Lemma read_rest (cap : VideoCapture) :
  read cap
  = match rest cap with
    | [] => (None, cap)
    | frame :: _ => (Some frame, advance cap)
    end.
Proof.
  unfold read, rest.
  pose proof (skipn_nth_error (video_frames (source cap))
                (CAP_PROP_POS_FRAMES cap)) as H.
  destruct (skipn _ _); rewrite H; reflexivity.
Qed.

Lemma rest_advance (cap : VideoCapture) : rest (advance cap) = tl (rest cap).
Proof. unfold rest, advance. cbn. apply skipn_S_tl. Qed.

Lemma append_frames_nil (out : VideoWriter) : append_frames out [] = out.
Proof. destruct out. unfold append_frames. cbn. now rewrite app_nil_r. Qed.

Lemma append_frames_write (out : VideoWriter) (c : Frame) (fs : list Frame) :
  append_frames (write out c) fs = append_frames out (c :: fs).
Proof. unfold append_frames, write. cbn. now rewrite <- app_assoc. Qed.

(** *** combine_three_videos.py *)

Section Three.
Import CombineThreeVideos.

Lemma three_main_loop_step (target_height : Z) (s : LoopState) :
  main_loop target_height s
  = match loop_body target_height s with
    | Raise e => Raise e
    | Ok None => Ok (out s)
    | Ok (Some s') => main_loop target_height s'
    end.
Proof.
  funelim (main_loop target_height s);
    match goal with H : loop_body _ _ = _ |- _ => rewrite H end;
    reflexivity.
Qed.

Lemma three_loop_body_zip (target_height : Z) (s : LoopState) :
  loop_body target_height s
  = match zip3 (rest (cap1 s)) (rest (cap2 s)) (rest (cap3 s)) with
    | [] => Ok None
    | p :: _ =>
        c <- compose3 target_height p ;;
        Ok (Some (mkState (advance (cap1 s)) (advance (cap2 s))
                          (advance (cap3 s)) (write (out s) c)))
    end.
Proof.
  unfold loop_body. rewrite !read_rest. unfold zip3.
  destruct (rest (cap1 s)) as [|p1 l1];
    destruct (rest (cap2 s)) as [|p2 l2];
    destruct (rest (cap3 s)) as [|p3 l3]; try reflexivity.
  cbn [combine compose3].
  destruct (resize_to_height p2 target_height); [|reflexivity]. cbn [bind].
  destruct (resize_to_height p3 target_height); [|reflexivity]. cbn [bind].
  destruct (hconcat _); reflexivity.
Qed.

(** The main loop writes the composites of the frames left in the
    three captures, taken in lock-step, until one capture is
    exhausted. *)
Lemma three_main_loop_run (target_height : Z) (s : LoopState) :
  main_loop target_height s
  = (fs <- mapM (compose3 target_height)
                (zip3 (rest (cap1 s)) (rest (cap2 s)) (rest (cap3 s))) ;;
     Ok (append_frames (out s) fs)).
Proof.
  remember (rest (cap1 s)) as l1 eqn:Hl1. revert s Hl1.
  induction l1 as [|p1 l1 IH]; intros s Hl1;
    rewrite three_main_loop_step, three_loop_body_zip, <- Hl1.
  - cbn. now rewrite append_frames_nil.
  - unfold zip3.
    destruct (rest (cap2 s)) as [|p2 l2] eqn:Hl2;
      [cbn; now rewrite append_frames_nil|].
    destruct (rest (cap3 s)) as [|p3 l3] eqn:Hl3;
      [cbn; now rewrite append_frames_nil|].
    cbn [combine mapM].
    destruct (compose3 _ _) as [c|e]; [|reflexivity]. cbn [bind].
    rewrite IH by (cbn [cap1]; now rewrite rest_advance, <- Hl1).
    cbn [cap1 cap2 cap3 out].
    rewrite !rest_advance, Hl2, Hl3. cbn [tl]. fold (zip3 l1 l2 l3).
    destruct (mapM _ _) as [fs|e]; [|reflexivity]. cbn [bind].
    now rewrite append_frames_write.
Qed.

(** The whole run, on the frames left after the start offsets. *)
Lemma create_three_video_composite_run
      (v1 v2 v3 : Video) (o1 o2 o3 : float) :
  let c1 := VideoCapture_open v1 in
  let c2 := VideoCapture_open v2 in
  let c3 := VideoCapture_open v3 in
  create_three_video_composite v1 v2 v3 o1 o2 o3
  = (k1 <- skip_offset c1 o1 (fps_or_30 c1) ;;
     k2 <- skip_offset c2 o2 (fps_or_30 c2) ;;
     k3 <- skip_offset c3 o3 (fps_or_30 c3) ;;
     composite3
       (PyFloat.min2 (PyFloat.min2 (fps_or_30 c1) (fps_or_30 c2))
                     (fps_or_30 c3))
       (rest k1) (rest k2) (rest k3)).
Proof.
  intros c1 c2 c3. unfold create_three_video_composite.
  fold c1 c2 c3.
  destruct (skip_offset c1 _ _) as [k1|]; [|reflexivity]. cbn [bind].
  destruct (skip_offset c2 _ _) as [k2|]; [|reflexivity]. cbn [bind].
  destruct (skip_offset c3 _ _) as [k3|]; [|reflexivity]. cbn [bind].
  rewrite !read_rest. unfold composite3, composite, zip3.
  destruct (rest k1) as [|p1 l1] eqn:Hl1;
    destruct (rest k2) as [|p2 l2] eqn:Hl2;
    destruct (rest k3) as [|p3 l3] eqn:Hl3;
    try reflexivity.
  cbn [combine mapM compose3 target_height].
  destruct (resize_to_height p2 (height p1)) as [f2|e];
    [|reflexivity]. cbn [bind].
  destruct (resize_to_height p3 (height p1)) as [f3|e];
    [|reflexivity]. cbn [bind].
  destruct (hconcat _) as [c|e] eqn:Hc; [|reflexivity]. cbn [bind].
  rewrite three_main_loop_run. cbn [cap1 cap2 cap3 out].
  rewrite !rest_advance, Hl1, Hl2, Hl3. cbn [tl].
  destruct (mapM _ _) as [fs|e]; [|reflexivity]. cbn [bind].
  unfold append_frames, write, VideoWriter_open. cbn.
  unfold hconcat in Hc.
  destruct (forallb _ _); [|discriminate]. injection Hc as <-.
  reflexivity.
Qed.

End Three.

(** *** create_side_by_side_video_offset.py *)

Section Two.
Import CreateSideBySideVideoOffset.

Lemma two_main_loop_step (s : LoopState) :
  main_loop s
  = match loop_body s with
    | Raise e => Raise e
    | Ok None => Ok (out s)
    | Ok (Some s') => main_loop s'
    end.
Proof.
  funelim (main_loop s);
    match goal with H : loop_body _ = _ |- _ => rewrite H end;
    reflexivity.
Qed.

Lemma two_loop_body_zip (s : LoopState) :
  loop_body s
  = match combine (rest (cap1 s)) (rest (cap2 s)) with
    | [] => Ok None
    | p :: _ =>
        c <- compose2 p ;;
        Ok (Some (mkState (advance (cap1 s)) (advance (cap2 s))
                          (write (out s) c)))
    end.
Proof.
  unfold loop_body. rewrite !read_rest.
  destruct (rest (cap1 s)) as [|p1 l1];
    destruct (rest (cap2 s)) as [|p2 l2]; try reflexivity.
  cbn [combine compose2].
  destruct (match_heights _ _); [|reflexivity]. cbn [bind].
  destruct (hconcat _); reflexivity.
Qed.

Lemma two_main_loop_run (s : LoopState) :
  main_loop s
  = (fs <- mapM compose2 (combine (rest (cap1 s)) (rest (cap2 s))) ;;
     Ok (append_frames (out s) fs)).
Proof.
  remember (rest (cap1 s)) as l1 eqn:Hl1. revert s Hl1.
  induction l1 as [|p1 l1 IH]; intros s Hl1;
    rewrite two_main_loop_step, two_loop_body_zip, <- Hl1.
  - cbn. now rewrite append_frames_nil.
  - destruct (rest (cap2 s)) as [|p2 l2] eqn:Hl2;
      [cbn; now rewrite append_frames_nil|].
    cbn [combine mapM].
    destruct (compose2 _) as [c|e]; [|reflexivity]. cbn [bind].
    rewrite IH by (cbn [cap1]; now rewrite rest_advance, <- Hl1).
    cbn [cap1 cap2 out].
    rewrite !rest_advance, Hl2. cbn [tl].
    destruct (mapM _ _) as [fs|e]; [|reflexivity]. cbn [bind].
    now rewrite append_frames_write.
Qed.

(** The whole run, on the frames left after the start offsets. *)
Lemma create_side_by_side_video_run (v1 v2 : Video) (o1 o2 : float) :
  let c1 := VideoCapture_open v1 in
  let c2 := VideoCapture_open v2 in
  create_side_by_side_video v1 v2 o1 o2
  = (k1 <- skip_offset c1 o1 (fps_or_30 c1) ;;
     k2 <- skip_offset c2 o2 (fps_or_30 c2) ;;
     composite2 (PyFloat.min2 (fps_or_30 c1) (fps_or_30 c2))
                (rest k1) (rest k2)).
Proof.
  intros c1 c2. unfold create_side_by_side_video. fold c1 c2.
  destruct (skip_offset c1 _ _) as [k1|]; [|reflexivity]. cbn [bind].
  destruct (skip_offset c2 _ _) as [k2|]; [|reflexivity]. cbn [bind].
  rewrite !read_rest. unfold composite2, composite.
  destruct (rest k1) as [|p1 l1] eqn:Hl1;
    destruct (rest k2) as [|p2 l2] eqn:Hl2;
    try reflexivity.
  cbn [combine mapM compose2].
  destruct (match_heights p1 p2) as [f2|e]; [|reflexivity]. cbn [bind].
  destruct (hconcat _) as [c|e] eqn:Hc; [|reflexivity]. cbn [bind].
  rewrite two_main_loop_run. cbn [cap1 cap2 out].
  rewrite !rest_advance, Hl1, Hl2. cbn [tl].
  destruct (mapM _ _) as [fs|e]; [|reflexivity]. cbn [bind].
  unfold append_frames, write, VideoWriter_open. cbn.
  unfold hconcat in Hc. cbn [forallb] in Hc.
  destruct (height f2 =? height p1)%Z eqn:Eh; [|discriminate].
  apply Z.eqb_eq in Eh. cbn [andb] in Hc. injection Hc as <-.
  cbn in *. rewrite Eh. unfold Py.max2. rewrite Z.ltb_irrefl.
  reflexivity.
Qed.

End Two.

(** *** Start offsets *)

(** The two scripts skip in the same way. *)
Lemma two_skip_offset (cap : VideoCapture) (o fps : float) :
  CreateSideBySideVideoOffset.skip_offset cap o fps
  = CombineThreeVideos.skip_offset cap o fps.
Proof. reflexivity. Qed.

Lemma skip_offset_rest (v : Video) (o fps : float) (k : VideoCapture) :
  CombineThreeVideos.skip_offset (VideoCapture_open v) o fps = Ok k ->
  rest k = skipn (offset_frames o fps) (video_frames v).
Proof.
  unfold CombineThreeVideos.skip_offset, offset_frames.
  destruct (ltb (fin 0) o); [|now intros [= <-]].
  destruct (PyFloat.int _) as [n|]; [|discriminate]. cbn [bind].
  now intros [= <-].
Qed.

Lemma skip_offset_returns (cap : VideoCapture) (o fps : float) :
  skippable o fps ->
  exists k, CombineThreeVideos.skip_offset cap o fps = Ok k.
Proof.
  unfold skippable, CombineThreeVideos.skip_offset. intro H.
  destruct (ltb (fin 0) o); [|eauto].
  specialize (H eq_refl). destruct (mul o fps); try discriminate.
  cbn. eauto.
Qed.

(** *** Outcome of a run *)

Lemma composite_frames_written {A : Type} (compose : A -> result Frame)
      (fps : float) (ps : list A) (r : option VideoWriter) :
  composite compose fps ps = Ok r -> frames_written r = length ps.
Proof.
  unfold composite. destruct ps as [|p ps]; [now intros [= <-]|].
  destruct (mapM compose (p :: ps)) as [fs|e] eqn:E; [|discriminate].
  cbn [bind]. intros [= <-]. cbn [frames_written written].
  now apply mapM_length in E.
Qed.

Lemma composite_returns {A : Type} (compose : A -> result Frame)
      (fps : float) (ps : list A) :
  Forall (fun p => is_ok (compose p) = true) ps ->
  exists r, composite compose fps ps = Ok r
            /\ (ps <> [] -> exists out, r = Some out).
Proof.
  intro H. unfold composite. destruct ps as [|p ps].
  - exists None. split; [reflexivity | congruence].
  - destruct (mapM_ok _ H) as [fs ->]. cbn [bind].
    eexists. split; [reflexivity|]. eauto.
Qed.

Lemma composite_fps {A : Type} (compose : A -> result Frame)
      (fps : float) (ps : list A) (out : VideoWriter) :
  composite compose fps ps = Ok (Some out) -> writer_fps out = fps.
Proof.
  unfold composite. destruct ps as [|p ps]; [discriminate|].
  destruct (mapM compose (p :: ps)); [|discriminate].
  cbn [bind]. now intros [= <-].
Qed.

Lemma composite_nth_error {A : Type} (compose : A -> result Frame)
      (fps : float) (ps : list A) (out : VideoWriter) (k : nat) (c : Frame) :
  composite compose fps ps = Ok (Some out) ->
  nth_error (written out) k = Some c ->
  exists p, nth_error ps k = Some p /\ compose p = Ok c.
Proof.
  unfold composite. destruct ps as [|p ps]; [discriminate|].
  destruct (mapM compose (p :: ps)) as [fs|] eqn:E; [|discriminate].
  cbn [bind]. intros [= <-]. cbn [written]. intro Hk.
  exact (mapM_nth_error _ _ _ E Hk).
Qed.

Lemma compose3_ok (target : Z) (p : Frame * Frame * Frame) :
  height (fst (fst p)) = target ->
  is_ok (CombineThreeVideos.resize_to_height (snd (fst p)) target) = true ->
  is_ok (CombineThreeVideos.resize_to_height (snd p) target) = true ->
  is_ok (compose3 target p) = true.
Proof.
  destruct p as [[p1 p2] p3]. cbn [fst snd]. intros H1 H2 H3.
  unfold compose3.
  destruct (CombineThreeVideos.resize_to_height p2 _)
    as [f2|] eqn:E2; [|discriminate].
  destruct (CombineThreeVideos.resize_to_height p3 _)
    as [f3|] eqn:E3; [|discriminate].
  apply resize_to_height_height in E2, E3. cbn [bind].
  unfold hconcat. cbn. rewrite E2, E3, H1, Z.eqb_refl. reflexivity.
Qed.

Lemma compose2_ok (p : Frame * Frame) :
  is_ok (CombineThreeVideos.resize_to_height (snd p) (height (fst p))) = true ->
  is_ok (compose2 p) = true.
Proof.
  destruct p as [p1 p2]. cbn [fst snd]. intros H2. unfold compose2.
  rewrite match_heights_resize_to_height.
  destruct (CombineThreeVideos.resize_to_height p2 _)
    as [f2|] eqn:E2; [|discriminate].
  apply resize_to_height_height in E2. cbn [bind].
  unfold hconcat. cbn. rewrite E2, Z.eqb_refl. reflexivity.
Qed.

Lemma Forall_skipn {A : Type} (P : A -> Prop) (l : list A) (n : nat) :
  Forall P l -> Forall P (skipn n l).
Proof.
  intro H. apply Forall_forall. intros a Ha.
  rewrite Forall_forall in H. apply H.
  rewrite <- (firstn_skipn n l). apply in_or_app. now right.
Qed.

(** On videos whose frames have the sizes that the containers report,
    the first of which is the reference, every composite of a run can be
    built when the frames of the other videos can be brought to the
    height of the reference. *)
Lemma zip3_composable (v1 v2 v3 : Video) (n1 n2 n3 : nat) :
  uniform v1 ->
  resizable (video_height v1) (video_frames v2) ->
  resizable (video_height v1) (video_frames v3) ->
  let l1 := skipn n1 (video_frames v1) in
  Forall (fun p => is_ok (compose3 (target_height l1) p) = true)
         (zip3 l1 (skipn n2 (video_frames v2)) (skipn n3 (video_frames v3))).
Proof.
  intros U R2 R3 l1. apply Forall_forall. intros [[p1 p2] p3] Hp.
  unfold zip3 in Hp.
  pose proof (in_combine_r _ _ _ _ Hp) as H3.
  apply in_combine_l in Hp.
  pose proof (in_combine_r _ _ _ _ Hp) as H2.
  apply in_combine_l in Hp.
  pose proof (Forall_skipn n1 U) as U1. fold l1 in U1.
  pose proof (Forall_skipn n2 R2) as R2'.
  pose proof (Forall_skipn n3 R3) as R3'.
  rewrite Forall_forall in U1, R2', R3'.
  assert (Ht : target_height l1 = video_height v1).
  { destruct l1 as [|f l]; [destruct Hp|].
    cbn. specialize (U1 f (or_introl eq_refl)). unfold size in U1.
    now injection U1. }
  rewrite Ht. apply compose3_ok; cbn [fst snd]; auto.
  specialize (U1 p1 Hp). unfold size in U1. now injection U1.
Qed.

Lemma combine_composable (v1 v2 : Video) (n1 n2 : nat) :
  uniform v1 ->
  resizable (video_height v1) (video_frames v2) ->
  Forall (fun p => is_ok (compose2 p) = true)
         (combine (skipn n1 (video_frames v1)) (skipn n2 (video_frames v2))).
Proof.
  intros U R2. apply Forall_forall. intros [p1 p2] Hp.
  pose proof (in_combine_r _ _ _ _ Hp) as H2.
  apply in_combine_l in Hp.
  pose proof (Forall_skipn n1 U) as U1.
  pose proof (Forall_skipn n2 R2) as R2'.
  rewrite Forall_forall in U1, R2'.
  apply compose2_ok. cbn [fst snd].
  specialize (U1 p1 Hp). unfold size in U1. injection U1 as _ ->.
  now apply R2'.
Qed.

(** A run, when every start offset can be turned into a number of
    frames: the composite of the frames left in each video. *)
Lemma three_run_skipped (v1 v2 v3 : Video) (o1 o2 o3 : float) :
  let own v := CombineThreeVideos.fps_or_30 (VideoCapture_open v) in
  skippable o1 (own v1) -> skippable o2 (own v2) -> skippable o3 (own v3) ->
  CombineThreeVideos.create_three_video_composite v1 v2 v3 o1 o2 o3
  = composite3
      (PyFloat.min2 (PyFloat.min2 (own v1) (own v2)) (own v3))
      (skipn (offset_frames o1 (own v1)) (video_frames v1))
      (skipn (offset_frames o2 (own v2)) (video_frames v2))
      (skipn (offset_frames o3 (own v3)) (video_frames v3)).
Proof.
  intros own S1 S2 S3. rewrite create_three_video_composite_run. cbv zeta.
  fold (own v1) (own v2) (own v3).
  destruct (skip_offset_returns (VideoCapture_open v1) S1) as [k1 E1].
  destruct (skip_offset_returns (VideoCapture_open v2) S2) as [k2 E2].
  destruct (skip_offset_returns (VideoCapture_open v3) S3) as [k3 E3].
  rewrite E1, E2, E3. cbn [bind].
  now rewrite (skip_offset_rest _ _ _ E1), (skip_offset_rest _ _ _ E2),
    (skip_offset_rest _ _ _ E3).
Qed.

Lemma two_run_skipped (v1 v2 : Video) (o1 o2 : float) :
  let own v := CreateSideBySideVideoOffset.fps_or_30 (VideoCapture_open v) in
  skippable o1 (own v1) -> skippable o2 (own v2) ->
  CreateSideBySideVideoOffset.create_side_by_side_video v1 v2 o1 o2
  = composite2
      (PyFloat.min2 (own v1) (own v2))
      (skipn (offset_frames o1 (own v1)) (video_frames v1))
      (skipn (offset_frames o2 (own v2)) (video_frames v2)).
Proof.
  intros own S1 S2. rewrite create_side_by_side_video_run. cbv zeta.
  fold (own v1) (own v2).
  destruct (skip_offset_returns (VideoCapture_open v1) S1) as [k1 E1].
  destruct (skip_offset_returns (VideoCapture_open v2) S2) as [k2 E2].
  change (CreateSideBySideVideoOffset.skip_offset
            (VideoCapture_open v1) o1 (own v1) = Ok k1) in E1.
  change (CreateSideBySideVideoOffset.skip_offset
            (VideoCapture_open v2) o2 (own v2) = Ok k2) in E2.
  rewrite E1, E2. cbn [bind].
  now rewrite (skip_offset_rest _ _ _ E1), (skip_offset_rest _ _ _ E2).
Qed.

(** A run that returns has turned every start offset into a number of
    frames. *)
Lemma three_run_returned (v1 v2 v3 : Video) (o1 o2 o3 : float)
      (r : option VideoWriter) :
  let own v := CombineThreeVideos.fps_or_30 (VideoCapture_open v) in
  CombineThreeVideos.create_three_video_composite v1 v2 v3 o1 o2 o3 = Ok r ->
  composite3
    (PyFloat.min2 (PyFloat.min2 (own v1) (own v2)) (own v3))
    (skipn (offset_frames o1 (own v1)) (video_frames v1))
    (skipn (offset_frames o2 (own v2)) (video_frames v2))
    (skipn (offset_frames o3 (own v3)) (video_frames v3))
  = Ok r.
Proof.
  intros own. rewrite create_three_video_composite_run. cbv zeta.
  fold (own v1) (own v2) (own v3).
  destruct (CombineThreeVideos.skip_offset _ o1 _) as [k1|] eqn:E1;
    [|discriminate].
  destruct (CombineThreeVideos.skip_offset _ o2 _) as [k2|] eqn:E2;
    [|discriminate].
  destruct (CombineThreeVideos.skip_offset _ o3 _) as [k3|] eqn:E3;
    [|discriminate].
  cbn [bind].
  now rewrite (skip_offset_rest _ _ _ E1), (skip_offset_rest _ _ _ E2),
    (skip_offset_rest _ _ _ E3).
Qed.

Lemma two_run_returned (v1 v2 : Video) (o1 o2 : float)
      (r : option VideoWriter) :
  let own v := CreateSideBySideVideoOffset.fps_or_30 (VideoCapture_open v) in
  CreateSideBySideVideoOffset.create_side_by_side_video v1 v2 o1 o2 = Ok r ->
  composite2
    (PyFloat.min2 (own v1) (own v2))
    (skipn (offset_frames o1 (own v1)) (video_frames v1))
    (skipn (offset_frames o2 (own v2)) (video_frames v2))
  = Ok r.
Proof.
  intros own. rewrite create_side_by_side_video_run. cbv zeta.
  fold (own v1) (own v2).
  destruct (CreateSideBySideVideoOffset.skip_offset _ o1 _) as [k1|] eqn:E1;
    [|discriminate].
  destruct (CreateSideBySideVideoOffset.skip_offset _ o2 _) as [k2|] eqn:E2;
    [|discriminate].
  cbn [bind].
  now rewrite (skip_offset_rest _ _ _ E1), (skip_offset_rest _ _ _ E2).
Qed.

(** C3 (amended).  For every three (two) videos and start offsets, a
    run that ends without an exception writes as many composite frames as
    the shortest video has left after its skip: the minimum over the
    videos of [frame_count - offset_frames], and 0 when that minimum is
    negative (a video skipped past its end: no output is written).
    [offset_frames] is the number of frames the code skips,
    [int(offset * fps)] in binary64.  The run ends without an exception
    when every start offset can be turned into a number of frames, the
    frames of the first video have one height and the frames of the other
    videos can be resized to it. *)
Theorem composite_frame_count :
  (forall v1 v2 v3 o1 o2 o3,
      let own v := CombineThreeVideos.fps_or_30 (VideoCapture_open v) in
      let left v o :=
        (Z.of_nat (frame_count v) - Z.of_nat (offset_frames o (own v)))%Z in
      (forall r,
          CombineThreeVideos.create_three_video_composite v1 v2 v3 o1 o2 o3
          = Ok r ->
          Z.of_nat (frames_written r)
          = Z.max 0 (Z.min (Z.min (left v1 o1) (left v2 o2)) (left v3 o3)))
      /\ (skippable o1 (own v1) -> skippable o2 (own v2) ->
          skippable o3 (own v3) ->
          uniform v1 ->
          resizable (video_height v1) (video_frames v2) ->
          resizable (video_height v1) (video_frames v3) ->
          exists r,
            CombineThreeVideos.create_three_video_composite v1 v2 v3 o1 o2 o3
            = Ok r))
  /\ (forall v1 v2 o1 o2,
         let own v :=
           CreateSideBySideVideoOffset.fps_or_30 (VideoCapture_open v) in
         let left v o :=
           (Z.of_nat (frame_count v) - Z.of_nat (offset_frames o (own v)))%Z in
         (forall r,
             CreateSideBySideVideoOffset.create_side_by_side_video v1 v2 o1 o2
             = Ok r ->
             Z.of_nat (frames_written r)
             = Z.max 0 (Z.min (left v1 o1) (left v2 o2)))
         /\ (skippable o1 (own v1) -> skippable o2 (own v2) ->
             uniform v1 ->
             resizable (video_height v1) (video_frames v2) ->
             exists r,
               CreateSideBySideVideoOffset.create_side_by_side_video v1 v2 o1 o2
               = Ok r)).
Proof.
  split.
  - intros v1 v2 v3 o1 o2 o3 own left. split.
    + intros r Hr. apply three_run_returned in Hr. unfold composite3 in Hr.
      apply composite_frames_written in Hr. rewrite Hr.
      unfold zip3. rewrite !length_combine, !length_skipn.
      unfold left, frame_count, own. lia.
    + intros S1 S2 S3 U R2 R3.
      rewrite (three_run_skipped _ _ _ S1 S2 S3). unfold composite3.
      edestruct @composite_returns as (r & Hr & _);
        [eapply (@zip3_composable v1 v2 v3); eassumption | exists r; exact Hr].
  - intros v1 v2 o1 o2 own left. split.
    + intros r Hr. apply two_run_returned in Hr. unfold composite2 in Hr.
      apply composite_frames_written in Hr. rewrite Hr.
      rewrite !length_combine, !length_skipn.
      unfold left, frame_count, own. lia.
    + intros S1 S2 U R2.
      rewrite (two_run_skipped _ _ S1 S2). unfold composite2.
      edestruct @composite_returns as (r & Hr & _);
        [eapply (@combine_composable v1 v2); eassumption | exists r; exact Hr].
Qed.


Lemma fps_or_30_three (v : Video) :
  CombineThreeVideos.fps_or_30 (VideoCapture_open v) = video_fps v
  \/ (eqb (video_fps v) (fin 0) = true
      /\ CombineThreeVideos.fps_or_30 (VideoCapture_open v) = fin 30).
Proof.
  unfold CombineThreeVideos.fps_or_30, CAP_PROP_FPS.
  cbn [source VideoCapture_open].
  destruct (eqb (video_fps v) (fin 0)); auto.
Qed.

Lemma fps_or_30_two (v : Video) :
  CreateSideBySideVideoOffset.fps_or_30 (VideoCapture_open v) = video_fps v
  \/ (leb (video_fps v) (fin 0) = true
      /\ CreateSideBySideVideoOffset.fps_or_30 (VideoCapture_open v) = fin 30).
Proof.
  unfold CreateSideBySideVideoOffset.fps_or_30, CAP_PROP_FPS.
  cbn [source VideoCapture_open].
  destruct (leb (video_fps v) (fin 0)); auto.
Qed.

(** C6 (amended).  The rate of the writer that a run opens is the
    minimum of the effective rates of the videos, where the effective
    rate of a video is the rate its container reports, or 30 when that
    rate is 0 (not positive, in create_side_by_side_video_offset.py): it
    is one of the effective rates and, NaN apart, none is smaller.  So
    for videos that all report a positive rate it is the minimum of the
    reported rates, and not otherwise.  A run opens a writer when the
    start offsets leave a frame in every video, the frames of the first
    video have the height that its container reports and the frames of
    the other videos can be resized to it. *)
Theorem output_fps_is_minimum :
  (forall v1 v2 v3 o1 o2 o3,
      let own v := CombineThreeVideos.fps_or_30 (VideoCapture_open v) in
      let fps := PyFloat.min2 (PyFloat.min2 (own v1) (own v2)) (own v3) in
      (forall out,
          CombineThreeVideos.create_three_video_composite v1 v2 v3 o1 o2 o3
          = Ok (Some out) ->
          writer_fps out = fps)
      /\ (skippable o1 (own v1) -> skippable o2 (own v2) ->
          skippable o3 (own v3) ->
          offset_frames o1 (own v1) < frame_count v1 ->
          offset_frames o2 (own v2) < frame_count v2 ->
          offset_frames o3 (own v3) < frame_count v3 ->
          uniform v1 ->
          resizable (video_height v1) (video_frames v2) ->
          resizable (video_height v1) (video_frames v3) ->
          exists out,
            CombineThreeVideos.create_three_video_composite v1 v2 v3 o1 o2 o3
            = Ok (Some out)
            /\ writer_fps out = fps)
      /\ (fps = own v1 \/ fps = own v2 \/ fps = own v3)
      /\ (is_nan (own v1) = false -> is_nan (own v2) = false ->
          is_nan (own v3) = false ->
          leb fps (own v1) = true /\ leb fps (own v2) = true
          /\ leb fps (own v3) = true)
      /\ (ltb (fin 0) (video_fps v1) = true ->
          ltb (fin 0) (video_fps v2) = true ->
          ltb (fin 0) (video_fps v3) = true ->
          fps = PyFloat.min2 (PyFloat.min2 (video_fps v1) (video_fps v2))
                             (video_fps v3)))
  /\ (forall v1 v2 o1 o2,
         let own v :=
           CreateSideBySideVideoOffset.fps_or_30 (VideoCapture_open v) in
         let fps := PyFloat.min2 (own v1) (own v2) in
         (forall out,
             CreateSideBySideVideoOffset.create_side_by_side_video v1 v2 o1 o2
             = Ok (Some out) ->
             writer_fps out = fps)
         /\ (skippable o1 (own v1) -> skippable o2 (own v2) ->
             offset_frames o1 (own v1) < frame_count v1 ->
             offset_frames o2 (own v2) < frame_count v2 ->
             uniform v1 ->
             resizable (video_height v1) (video_frames v2) ->
             exists out,
               CreateSideBySideVideoOffset.create_side_by_side_video
                 v1 v2 o1 o2
               = Ok (Some out)
               /\ writer_fps out = fps)
         /\ (fps = own v1 \/ fps = own v2)
         /\ (is_nan (own v1) = false -> is_nan (own v2) = false ->
             leb fps (own v1) = true /\ leb fps (own v2) = true)
         /\ (ltb (fin 0) (video_fps v1) = true ->
             ltb (fin 0) (video_fps v2) = true ->
             fps = PyFloat.min2 (video_fps v1) (video_fps v2))).
Proof.
  assert (Hskip : forall A (l : list A) n, n < length l -> skipn n l <> []).
  { intros A l n Hn E. apply (f_equal (@length A)) in E.
    rewrite length_skipn in E. cbn in E. lia. }
  split.
  - intros v1 v2 v3 o1 o2 o3 own fps.
    split; [|split; [|split; [|split]]].
    + intros out Hr. apply three_run_returned in Hr. unfold composite3 in Hr.
      now apply composite_fps in Hr.
    + intros S1 S2 S3 L1 L2 L3 U R2 R3.
      rewrite (three_run_skipped _ _ _ S1 S2 S3). unfold composite3.
      pose proof (@zip3_composable
                    v1 v2 v3 (offset_frames o1 (own v1))
                    (offset_frames o2 (own v2)) (offset_frames o3 (own v3))
                    U R2 R3) as Hc.
      cbv zeta in Hc.
      destruct (@composite_returns _ _ fps _ Hc) as (r & Hr & Hsome).
      destruct Hsome as [out ->].
      { unfold zip3. intro E. apply (f_equal (@length _)) in E.
        rewrite !length_combine, !length_skipn in E. cbn in E.
        unfold frame_count in *. fold (own v1) (own v2) (own v3) in E. lia. }
      exists out. split; [exact Hr|]. now apply composite_fps in Hr.
    + unfold fps.
      destruct (float_min2_cases (PyFloat.min2 (own v1) (own v2)) (own v3))
        as [-> | ->]; [|auto].
      destruct (float_min2_cases (own v1) (own v2)) as [-> | ->]; auto.
    + intros N1 N2 N3. unfold fps.
      assert (N12 : is_nan (PyFloat.min2 (own v1) (own v2)) = false).
      { destruct (float_min2_cases (own v1) (own v2)) as [-> | ->]; assumption. }
      pose proof (min2_leb_l _ _ N12 N3) as H12.
      pose proof (min2_leb_r _ _ N12 N3) as H3.
      pose proof (min2_leb_l _ _ N1 N2) as H1.
      pose proof (min2_leb_r _ _ N1 N2) as H2.
      split; [exact (leb_trans _ _ _ H12 H1)|].
      split; [exact (leb_trans _ _ _ H12 H2) | exact H3].
    + intros P1 P2 P3. unfold fps, own.
      destruct (fps_or_30_three v1) as [-> | [E _]];
        [|destruct (video_fps v1) as [q|[]|]; try discriminate;
          apply ltb_fin in P1; cbn in E; apply Qeq_bool_iff in E; lra].
      destruct (fps_or_30_three v2) as [-> | [E _]];
        [|destruct (video_fps v2) as [q|[]|]; try discriminate;
          apply ltb_fin in P2; cbn in E; apply Qeq_bool_iff in E; lra].
      destruct (fps_or_30_three v3) as [-> | [E _]];
        [|destruct (video_fps v3) as [q|[]|]; try discriminate;
          apply ltb_fin in P3; cbn in E; apply Qeq_bool_iff in E; lra].
      reflexivity.
  - intros v1 v2 o1 o2 own fps.
    split; [|split; [|split; [|split]]].
    + intros out Hr. apply two_run_returned in Hr. unfold composite2 in Hr.
      now apply composite_fps in Hr.
    + intros S1 S2 L1 L2 U R2.
      rewrite (two_run_skipped _ _ S1 S2). unfold composite2.
      pose proof (@combine_composable
                    v1 v2 (offset_frames o1 (own v1))
                    (offset_frames o2 (own v2)) U R2) as Hc.
      destruct (@composite_returns _ _ fps _ Hc) as (r & Hr & Hsome).
      destruct Hsome as [out ->].
      { intro E. apply (f_equal (@length _)) in E.
        rewrite !length_combine, !length_skipn in E. cbn in E.
        unfold frame_count in *. fold (own v1) (own v2) in E. lia. }
      exists out. split; [exact Hr|]. now apply composite_fps in Hr.
    + unfold fps. apply float_min2_cases.
    + intros N1 N2. unfold fps.
      split; [now apply min2_leb_l | now apply min2_leb_r].
    + intros P1 P2. unfold fps, own.
      destruct (fps_or_30_two v1) as [-> | [E _]];
        [|apply ltb_not_leb in P1; congruence].
      destruct (fps_or_30_two v2) as [-> | [E _]];
        [|apply ltb_not_leb in P2; congruence].
      reflexivity.
Qed.

End CompositeProofs.

(** *** The compositors on concrete videos *)

Section CompositeExamples.
Import cv2 VideoSpec CompositeSpec.
#[local] Existing Instance opencv_tags.

(** A video of [n] frames of size [w] x [h] at [fps] frames per second;
    frame [i] carries the tag [i]. *)
Definition clip (fps : Q) (w h : Z) (n : nat) : Video :=
  mkVideo (of_Q fps) w h (Z.of_nat n)
          (map (fun i => mkFrame h w [i]) (seq 0 n)).

Lemma uniform_clip (fps : Q) (w h : Z) (n : nat) : uniform (clip fps w h n).
Proof.
  unfold uniform, clip. cbn. apply Forall_forall. intros f Hf.
  apply in_map_iff in Hf. destruct Hf as (i & <- & _). reflexivity.
Qed.

Lemma same_height_resizable (fps : Q) (w h : Z) (n : nat) :
  resizable h (video_frames (clip fps w h n)).
Proof.
  unfold resizable, clip. cbn. apply Forall_forall. intros f Hf.
  apply in_map_iff in Hf. destruct Hf as (i & <- & _).
  unfold CombineThreeVideos.resize_to_height. cbn.
  now rewrite Z.eqb_refl.
Qed.

Lemma zero_offset_skippable (fps : float) : skippable (fin 0) fps.
Proof. intro H. discriminate H. Qed.

(** The scenario of the specification: 10, 8 and 12 frames at 30 fps,
    the third video skipped by two frames (0.07 s): 8 composite frames,
    the first made of the frames 0, 0 and 2. *)
Example scenario_three_streams :
  exists out,
    CombineThreeVideos.create_three_video_composite
      (clip 30 4 2 10) (clip 30 4 2 8) (clip 30 4 2 12)
      (fin 0) (fin 0) (of_Q (7 # 100))
    = Ok (Some out)
    /\ length (written out) = 8
    /\ option_map (@data opencv_tags) (hd_error (written out)) = Some [0; 0; 2]
    /\ writer_fps out = fin 30.
Proof. eexists. split; [vm_compute; reflexivity|]. repeat split. Qed.

(** C3 as stated fails: with 10, 8 and 12 frames at 30 fps and the
    second video skipped by 0.5 s, that is 15 frames, the minimum of
    [frame_count - offset_frames] is -7, and the run writes nothing. *)
Lemma frame_count_not_negative_difference :
  CombineThreeVideos.create_three_video_composite
    (clip 30 4 2 10) (clip 30 4 2 8) (clip 30 4 2 12)
    (fin 0) (of_Q (1 # 2)) (fin 0)
  = Ok None
  /\ offset_frames (of_Q (1 # 2)) (fin 30) = 15
  /\ frames_written None = 0
  /\ Z.of_nat (frames_written None)
     <> Z.min (Z.min (10 - 0) (8 - 15)) (12 - 0).
Proof.
  split; [vm_compute; reflexivity|]. split; [vm_compute; reflexivity|].
  split; [reflexivity | discriminate].
Qed.

Lemma composite_frame_count_witness :
  (exists r,
      CombineThreeVideos.create_three_video_composite
        (clip 30 4 2 10) (clip 30 4 2 8) (clip 30 4 2 12)
        (fin 0) (fin 0) (of_Q (7 # 100))
      = Ok r
      /\ Z.of_nat (frames_written r) = 8%Z)
  /\ (exists r,
         CreateSideBySideVideoOffset.create_side_by_side_video
           (clip 30 4 2 10) (clip 25 6 2 40) (fin 0) (of_Q (116 # 100))
         = Ok r
         /\ Z.of_nat (frames_written r) = 10%Z).
Proof.
  split.
  - destruct (proj1 (@composite_frame_count opencv_tags)
                (clip 30 4 2 10) (clip 30 4 2 8) (clip 30 4 2 12)
                (fin 0) (fin 0) (of_Q (7 # 100))) as [Hcount Hret].
    destruct Hret as [r Hr].
    + apply zero_offset_skippable.
    + apply zero_offset_skippable.
    + intros _. vm_compute. reflexivity.
    + apply uniform_clip.
    + apply same_height_resizable.
    + apply same_height_resizable.
    + exists r. split; [exact Hr|]. rewrite (Hcount r Hr).
      vm_compute. reflexivity.
  - destruct (proj2 (@composite_frame_count opencv_tags)
                (clip 30 4 2 10) (clip 25 6 2 40)
                (fin 0) (of_Q (116 # 100))) as [Hcount Hret].
    destruct Hret as [r Hr].
    + apply zero_offset_skippable.
    + intros _. vm_compute. reflexivity.
    + apply uniform_clip.
    + apply same_height_resizable.
    + exists r. split; [exact Hr|]. rewrite (Hcount r Hr).
      vm_compute. reflexivity.
Defined.


(** The product is the binary64 product.  The float 0.7 is less than
    7/10 and its exact product with 30 is less than 21, yet the rounded
    product is 21 and 21 frames are skipped; 1.16 * 25 is 29 in exact
    arithmetic, the float product is less and 28 frames are skipped. *)
Example start_offset_in_binary64 :
  offset_frames (of_Q (7 # 10)) (fin 30) = 21
  /\ (exists q, of_Q (7 # 10) = fin q /\ Qfloor (q * 30) = 20%Z)
  /\ offset_frames (of_Q (116 # 100)) (fin 25) = 28
  /\ Qfloor ((116 # 100) * 25) = 29%Z.
Proof.
  split; [vm_compute; reflexivity|].
  split; [eexists; split; [vm_compute; reflexivity | vm_compute; reflexivity]|].
  split; vm_compute; reflexivity.
Qed.


(** C5 as stated fails: a frame 10 wide and 3 high brought to height 2
    gets the width 6; 10 * 2 / 3 rounds to 7. *)
Lemma resized_width_not_rounded :
  CombineThreeVideos.resize_to_height (mkFrame 3 10 [0]) 2
  = Ok (mkFrame 2 6 [0])
  /\ py_round (10 * 2 / 3) = 7%Z.
Proof. split; vm_compute; reflexivity. Qed.

(** The width is computed in binary64.  27 * 13 / 3 is 117; the float
    quotient 13 / 3.0 is less than 13/3, the float product is less than
    117 and the new width is 116.  A frame 49 x 49 brought to height 1
    would get the width 1; the float product is less than 1, the new
    width is 0 and [cv2.resize] raises. *)
Example resized_width_in_binary64 :
  CombineThreeVideos.resize_to_height (mkFrame 3 27 [0]) 13
  = Ok (mkFrame 13 116 [0])
  /\ (27 * 13 / 3 = 117)%Z
  /\ CombineThreeVideos.resize_to_height (mkFrame 49 49 [0]) 1
     = Raise cv2_error
  /\ (49 * 1 / 49 = 1)%Z.
Proof. repeat split; vm_compute; reflexivity. Qed.

Definition frame_10x3 : @Frame opencv_tags := mkFrame 3 10 [0].

Lemma resize_to_height_truncates_witness :
  exact_int (width frame_10x3) /\ exact_int (height frame_10x3)
  /\ exact_int 2
  /\ CombineThreeVideos.resize_to_height frame_10x3 3
     = Ok frame_10x3
  /\ exists ratio product,
      round (inject_Z 2 / inject_Z 3) = fin ratio
      /\ round (inject_Z 10 * ratio) = fin product
      /\ Py.int product = 6%Z
      /\ is_ok (CombineThreeVideos.resize_to_height frame_10x3 2)
         = true.
Proof.
  assert (Hw : exact_int (width frame_10x3)) by reflexivity.
  assert (Hh : exact_int (height frame_10x3)) by reflexivity.
  assert (Ht : exact_int 2) by reflexivity.
  do 3 (split; [assumption|]).
  split.
  - exact (proj1 (@resize_to_height_truncates opencv_tags
                    frame_10x3 frame_10x3 3%Z Hw Hh Hh)
                 eq_refl).
  - destruct (proj2 (proj1 (proj2 (@resize_to_height_truncates opencv_tags
                                     frame_10x3 frame_10x3 2%Z
                                     Hw Hh Ht))
                       ltac:(discriminate))
                ltac:(discriminate))
      as (ratio & product & Hr & Hp & Hsize & Hok & _).
    exists ratio, product. split; [exact Hr|]. split; [exact Hp|].
    assert (E : is_ok (CombineThreeVideos.resize_to_height
                         frame_10x3 2) = true)
      by (vm_compute; reflexivity).
    split; [|exact E].
    destruct (CombineThreeVideos.resize_to_height frame_10x3 2)
      as [frame'|] eqn:Eres; [|discriminate].
    destruct (Hsize frame' eq_refl) as [_ <-].
    vm_compute in Eres. injection Eres as <-. reflexivity.
Defined.

(** C6 as stated fails: a video that reports the rate 0 counts as a
    video of 30 frames per second.  With the rates 0, 24 and 60 the
    output rate is 24, and with the rates 0 and 60 it is 30, the rate of
    neither video; the minimum of the rates is 0. *)
Lemma output_fps_not_minimum_of_inputs :
  (exists out,
      CombineThreeVideos.create_three_video_composite
        (clip 0 4 2 3) (clip 24 4 2 3) (clip 60 4 2 3) (fin 0) (fin 0) (fin 0)
      = Ok (Some out)
      /\ writer_fps out = fin 24)
  /\ (exists out,
         CreateSideBySideVideoOffset.create_side_by_side_video
           (clip 0 4 2 3) (clip 60 4 2 3) (fin 0) (fin 0)
         = Ok (Some out)
         /\ writer_fps out = fin 30)
  /\ PyFloat.min2 (PyFloat.min2 (fin 0) (fin 24)) (fin 60) = fin 0
  /\ PyFloat.min2 (fin 0) (fin 60) = fin 0.
Proof.
  split; [eexists; split; [vm_compute; reflexivity | reflexivity]|].
  split; [eexists; split; [vm_compute; reflexivity | reflexivity]|].
  split; reflexivity.
Qed.

Lemma output_fps_is_minimum_witness :
  (exists out,
      CombineThreeVideos.create_three_video_composite
        (clip 30 4 2 3) (clip 24 4 2 3) (clip 60 4 2 3) (fin 0) (fin 0) (fin 0)
      = Ok (Some out)
      /\ writer_fps out = fin 24)
  /\ (exists out,
         CreateSideBySideVideoOffset.create_side_by_side_video
           (clip 30 4 2 3) (clip 24 4 2 3) (fin 0) (fin 0)
         = Ok (Some out)
         /\ writer_fps out = fin 24).
Proof.
  split.
  - destruct (proj1 (@output_fps_is_minimum opencv_tags)
                (clip 30 4 2 3) (clip 24 4 2 3) (clip 60 4 2 3)
                (fin 0) (fin 0) (fin 0)) as (_ & Hret & _).
    destruct Hret as (out & Hout & Hfps);
      try apply zero_offset_skippable;
      try apply uniform_clip; try apply same_height_resizable;
      try (vm_compute; lia).
    exists out. split; [exact Hout|]. rewrite Hfps. vm_compute. reflexivity.
  - destruct (proj2 (@output_fps_is_minimum opencv_tags)
                (clip 30 4 2 3) (clip 24 4 2 3) (fin 0) (fin 0))
      as (_ & Hret & _).
    destruct Hret as (out & Hout & Hfps);
      try apply zero_offset_skippable;
      try apply uniform_clip; try apply same_height_resizable;
      try (vm_compute; lia).
    exists out. split; [exact Hout|]. rewrite Hfps. vm_compute. reflexivity.
Defined.

End CompositeExamples.

(** ** The render clock of the two animation scripts *)

Section RenderClock.

Lemma getitem_0 {A : Type} (a : A) (l : list A) : Py.getitem (a :: l) 0 = Ok a.
Proof. reflexivity. Qed.

Lemma getlast_cons {A : Type} (a : A) (l : list A) :
  Py.getlast (a :: l) = Ok (last l a).
Proof.
  unfold Py.getlast. revert a.
  induction l as [|b l IH] using rev_ind; intro a; [reflexivity|].
  cbn [rev]. rewrite rev_app_distr. cbn.
  rewrite last_last. reflexivity.
Qed.

(** animate_single_axis_data.py guards the division: [update] returns
    for every frame count, the first time when there is one frame. *)
Lemma single_axis_update_total (first : Q) (time_data : list Q)
      (num_frames frame_idx : Z) :
  AnimateSingleAxisData.update (first :: time_data) num_frames frame_idx
  = if (1 <? num_frames)%Z
    then Ok (first + (last time_data first - first)
                     * (inject_Z frame_idx / inject_Z (num_frames - 1)))%Q
    else Ok first.
Proof.
  unfold AnimateSingleAxisData.update.
  destruct (1 <? num_frames)%Z eqn:E; [|reflexivity].
  rewrite getitem_0, getlast_cons, truediv_inject_Z. cbn [bind].
  apply Z.ltb_lt in E.
  destruct (num_frames - 1 =? 0)%Z eqn:E0; [|reflexivity].
  apply Z.eqb_eq in E0. lia.
Qed.

(** animate_sensor_data.py does the same computation without the guard:
    with more than one frame it agrees with the other script, with one
    frame it divides by zero. *)
Lemma sensor_update_unguarded (first : Q) (time_data : list Q)
      (num_frames frame_idx : Z) :
  AnimateSensorData.update (first :: time_data) num_frames frame_idx
  = if (num_frames =? 1)%Z then Raise ZeroDivisionError
    else Ok (first + (last time_data first - first)
                     * (inject_Z frame_idx / inject_Z (num_frames - 1)))%Q.
Proof.
  unfold AnimateSensorData.update.
  rewrite getitem_0, getlast_cons, truediv_inject_Z. cbn [bind].
  destruct (num_frames =? 1)%Z eqn:E.
  - apply Z.eqb_eq in E. subst. reflexivity.
  - apply Z.eqb_neq in E.
    destruct (num_frames - 1 =? 0)%Z eqn:E0; [|reflexivity].
    apply Z.eqb_eq in E0. lia.
Qed.

(** C7, the failing input.  With the two samples 0 s and 0.0625 s,
    animate_sensor_data.py computes [num_frames = int(30 * 0.0625) = 1],
    and [update(0)] raises [ZeroDivisionError]; on the same data
    animate_single_axis_data.py returns the start time. *)
Theorem sensor_update_divides_by_zero :
  AnimateSensorData.num_frames [0; 1 # 16]%Q = Ok 1%Z
  /\ AnimateSensorData.update [0; 1 # 16]%Q 1 0 = Raise ZeroDivisionError
  /\ AnimateSingleAxisData.num_frames [0; 1 # 16]%Q = Ok 1%Z
  /\ AnimateSingleAxisData.update [0; 1 # 16]%Q 1 0 = Ok 0%Q.
Proof. repeat split. Qed.

End RenderClock.


(** ** The animation scripts: frame count, render clock, axis limits *)

Section AnimationFurther.
Import AnimationSpec.

Lemma num_frames_sensor_cons (first : Q) (data : list Q) :
  AnimateSensorData.num_frames (first :: data)
  = AnimateSingleAxisData.num_frames (first :: data).
Proof.
  unfold AnimateSensorData.num_frames, AnimateSingleAxisData.num_frames.
  rewrite getitem_0, getlast_cons.
  destruct data as [|b data]; [|reflexivity].
  cbn [length Nat.ltb Nat.leb bind last].
  assert (E : Qle_bool (first - first) 0 = true).
  { apply Qle_bool_iff. ring_simplify (first - first)%Q. apply Qle_refl. }
  rewrite E. reflexivity.
Qed.

Lemma num_frames_single_cons (first : Q) (data : list Q) :
  exists n, AnimateSingleAxisData.num_frames (first :: data) = Ok n
            /\ (1 <= n)%Z.
Proof.
  unfold AnimateSingleAxisData.num_frames.
  destruct (1 <? length (first :: data)).
  - rewrite getitem_0, getlast_cons. cbn [bind].
    match goal with |- exists n, Ok (if (?a <? 1)%Z then _ else _) = _ /\ _ =>
      destruct (a <? 1)%Z eqn:E end.
    + eexists; split; [reflexivity|]. cbn [length]. lia.
    + eexists; split; [reflexivity|]. apply Z.ltb_ge in E. exact E.
  - cbn [bind].
    match goal with |- exists n, Ok (if (?a <? 1)%Z then _ else _) = _ /\ _ =>
      destruct (a <? 1)%Z eqn:E end.
    + eexists; split; [reflexivity|]. cbn [length]. lia.
    + eexists; split; [reflexivity|]. apply Z.ltb_ge in E. exact E.
Qed.



Lemma frame_fraction_le (i j m : Z) :
  (0 < m)%Z -> (i <= j)%Z ->
  (inject_Z i / inject_Z m <= inject_Z j / inject_Z m)%Q.
Proof.
  intros Hm Hij. unfold Qdiv. apply Qmult_le_compat_r.
  - rewrite <- Zle_Qle. exact Hij.
  - apply Qinv_le_0_compat. change 0%Q with (inject_Z 0).
    rewrite <- Zle_Qle. lia.
Qed.

Lemma frame_fraction_0 (m : Z) : (inject_Z 0 / inject_Z m == 0)%Q.
Proof. unfold Qdiv. change (inject_Z 0) with 0%Q. ring. Qed.

Lemma frame_fraction_1 (m : Z) :
  (0 < m)%Z -> (inject_Z m / inject_Z m == 1)%Q.
Proof.
  intro Hm. unfold Qdiv. apply Qmult_inv_r.
  intro H. unfold Qeq in H. cbn in H. lia.
Qed.

Lemma clock_le (first final f g : Q) :
  (first <= final)%Q -> (f <= g)%Q ->
  (first + (final - first) * f <= first + (final - first) * g)%Q.
Proof.
  intros Hd Hfg.
  apply Qplus_le_r.
  rewrite (Qmult_comm _ f), (Qmult_comm _ g).
  apply Qmult_le_compat_r; [exact Hfg|].
  apply (Qplus_le_l _ _ first). ring_simplify. exact Hd.
Qed.

(** The render clock of animate_single_axis_data.py at frame [i] of
    [n], for data whose last time is not before the first. *)
Lemma single_axis_clock (first : Q) (data : list Q) (n i : Z) :
  (first <= last data first)%Q ->
  (0 <= i < n)%Z ->
  exists t,
    AnimateSingleAxisData.update (first :: data) n i = Ok t
    /\ (first <= t)%Q
    /\ (i = 0%Z -> t == first)%Q
    /\ ((1 < n)%Z -> AnimateSensorData.update (first :: data) n i = Ok t).
Proof.
  intros Hd Hi.
  rewrite single_axis_update_total, sensor_update_unguarded.
  destruct (1 <? n)%Z eqn:En.
  - apply Z.ltb_lt in En.
    eexists; split; [reflexivity|].
    assert (H0 : (first + (last data first - first)
                          * (inject_Z 0 / inject_Z (n - 1)) == first)%Q).
    { rewrite frame_fraction_0. ring. }
    split; [|split].
    + eapply Qle_trans; [|apply clock_le;
                            [exact Hd|apply (@frame_fraction_le 0 i); lia]].
      rewrite H0. apply Qle_refl.
    + intro E. subst i. exact H0.
    + intros _. destruct (n =? 1)%Z eqn:E1; [|reflexivity].
      apply Z.eqb_eq in E1. lia.
  - apply Z.ltb_ge in En.
    exists first. split; [reflexivity|].
    split; [apply Qle_refl|].
    split; [intros _; apply Qeq_refl|].
    intro; lia.
Qed.


Lemma single_axis_clock_monotone (first : Q) (data : list Q) (n i j : Z) :
  (first <= last data first)%Q ->
  (i <= j)%Z ->
  exists ti tj,
    AnimateSingleAxisData.update (first :: data) n i = Ok ti
    /\ AnimateSingleAxisData.update (first :: data) n j = Ok tj
    /\ (ti <= tj)%Q.
Proof.
  intros Hd Hij. rewrite !single_axis_update_total.
  destruct (1 <? n)%Z eqn:En.
  - apply Z.ltb_lt in En.
    do 2 eexists. split; [reflexivity|]. split; [reflexivity|].
    apply clock_le; [exact Hd|]. apply frame_fraction_le; lia.
  - exists first, first. split; [reflexivity|]. split; [reflexivity|].
    apply Qle_refl.
Qed.


Lemma last_cons_default {A : Type} (l : list A) (b d : A) :
  last (b :: l) d = last l b.
Proof.
  revert b d. induction l as [|c l IH]; intros b d; [reflexivity|].
  change (last (b :: c :: l) d) with (last (c :: l) d).
  rewrite (IH c d), (IH c b). reflexivity.
Qed.

Lemma ascending_le_last (data : list Q) (first : Q) :
  ascending (first :: data) ->
  (first <= last data first)%Q
  /\ forall y, In y data -> (y <= last data first)%Q.
Proof.
  revert first. induction data as [|b data IH]; intros first Hs.
  - split; [apply Qle_refl|intros y []].
  - apply StronglySorted_inv in Hs. destruct Hs as [Hs Hall].
    destruct (IH b Hs) as [Hb Hin].
    rewrite last_cons_default.
    assert (Hfb : (first <= b)%Q) by (inversion Hall; assumption).
    split; [exact (Qle_trans _ _ _ Hfb Hb)|].
    intros y [->|Hy]; [exact Hb|exact (Hin y Hy)].
Qed.

Lemma ascending_first_le_last (data : list Q) (first : Q) :
  ascending (first :: data) -> (first <= last data first)%Q.
Proof. intro Hs. exact (proj1 (ascending_le_last Hs)). Qed.

Section Cut.
Variable search : list Q -> Q -> nat.
Hypothesis search_spec : searchsorted_right_spec search.

Lemma cut_index (first : Q) (data : list Q) (t : Q) :
  ascending (first :: data) ->
  (first <= t)%Q ->
  1 <= search (first :: data) t <= length (first :: data)
  /\ (forall x, In x (firstn (search (first :: data) t) (first :: data)) ->
                (x <= t)%Q)
  /\ (forall x, In x (skipn (search (first :: data) t) (first :: data)) ->
                (t < x)%Q).
Proof.
  intros Hs Ht.
  destruct (search_spec t Hs) as [Hlen [Hle Hgt]].
  set (k := search (first :: data) t) in *.
  assert (Hk : 1 <= k).
  { destruct k as [|k]; [|lia]. exfalso.
    apply (Qlt_not_le _ _ (Hgt 0 first (le_n 0) eq_refl) Ht). }
  split; [split; assumption|].
  split.
  - intros x Hx. apply In_nth_error in Hx. destruct Hx as [j Hj].
    rewrite nth_error_firstn in Hj.
    destruct (j <? k) eqn:E; [|discriminate].
    apply Nat.ltb_lt in E. exact (Hle j x E Hj).
  - intros x Hx. apply In_nth_error in Hx. destruct Hx as [j Hj].
    rewrite nth_error_skipn in Hj.
    apply (Hgt (k + j) x); [lia|exact Hj].
Qed.

Lemma cut_index_monotone (a : list Q) (t t' : Q) :
  ascending a -> (t <= t')%Q -> search a t <= search a t'.
Proof.
  intros Hs Htt.
  destruct (search_spec t Hs) as [Hlen [Hle _]].
  destruct (search_spec t' Hs) as [_ [_ Hgt']].
  destruct (Nat.le_gt_cases (search a t) (search a t')) as [H|H];
    [exact H|exfalso].
  assert (Hlt : search a t' < length a) by lia.
  apply nth_error_Some in Hlt.
  destruct (nth_error a (search a t')) as [x|] eqn:Ex; [|congruence].
  pose proof (Hle _ x H Ex) as H1.
  pose proof (Hgt' _ x (le_n _) Ex) as H2.
  apply (Qlt_not_le _ _ H2). exact (Qle_trans _ _ _ H1 Htt).
Qed.

End Cut.

Section Shown.
Context {numpy : NumPy}.
Hypothesis numpy_spec : searchsorted_right_spec searchsorted_right.



End Shown.

Lemma max2_ge_l (a b : Q) : (a <= Np.max2 a b)%Q.
Proof.
  unfold Np.max2. destruct (Py.Qltb a b) eqn:E.
  - apply Qltb_lt in E. now apply Qlt_le_weak.
  - apply Qle_refl.
Qed.

Lemma max2_ge_r (a b : Q) : (b <= Np.max2 a b)%Q.
Proof.
  unfold Np.max2. destruct (Py.Qltb a b) eqn:E.
  - apply Qle_refl.
  - now apply Qltb_ge in E.
Qed.

Lemma max2_cases (a b : Q) : Np.max2 a b = a \/ Np.max2 a b = b.
Proof. unfold Np.max2. destruct (Py.Qltb a b); auto. Qed.

Lemma fold_min2_spec (l : list Q) (a : Q) :
  In (fold_left Py.min2 l a) (a :: l)
  /\ forall v, In v (a :: l) -> (fold_left Py.min2 l a <= v)%Q.
Proof.
  revert a. induction l as [|b l IH]; intro a; cbn [fold_left].
  - split; [left; reflexivity|].
    intros v [<-|[]]. apply Qle_refl.
  - destruct (IH (Py.min2 a b)) as [Hin Hle]. split.
    + destruct Hin as [Hin|Hin]; [|right; right; exact Hin].
      rewrite <- Hin.
      destruct (min2_cases a b) as [->| ->]; [left|right; left]; reflexivity.
    + pose proof (Hle _ (or_introl eq_refl)) as H0.
      intros v [<-|[<-|Hv]].
      * exact (Qle_trans _ _ _ H0 (min2_le_l a b)).
      * exact (Qle_trans _ _ _ H0 (min2_le_r a b)).
      * apply Hle. right. exact Hv.
Qed.

Lemma fold_max2_spec (l : list Q) (a : Q) :
  In (fold_left Np.max2 l a) (a :: l)
  /\ forall v, In v (a :: l) -> (v <= fold_left Np.max2 l a)%Q.
Proof.
  revert a. induction l as [|b l IH]; intro a; cbn [fold_left].
  - split; [left; reflexivity|].
    intros v [<-|[]]. apply Qle_refl.
  - destruct (IH (Np.max2 a b)) as [Hin Hle]. split.
    + destruct Hin as [Hin|Hin]; [|right; right; exact Hin].
      rewrite <- Hin.
      destruct (max2_cases a b) as [->| ->]; [left|right; left]; reflexivity.
    + pose proof (Hle _ (or_introl eq_refl)) as H0.
      intros v [<-|[<-|Hv]].
      * exact (Qle_trans _ _ _ (max2_ge_l a b) H0).
      * exact (Qle_trans _ _ _ (max2_ge_r a b) H0).
      * apply Hle. right. exact Hv.
Qed.

Lemma amin_cons (a : Q) (l : list Q) :
  exists m, Np.amin (a :: l) = Ok m
            /\ In m (a :: l)
            /\ forall v, In v (a :: l) -> (m <= v)%Q.
Proof.
  exists (fold_left Py.min2 l a). split; [reflexivity|].
  apply fold_min2_spec.
Qed.

Lemma amax_cons (a : Q) (l : list Q) :
  exists m, Np.amax (a :: l) = Ok m
            /\ In m (a :: l)
            /\ forall v, In v (a :: l) -> (v <= m)%Q.
Proof.
  exists (fold_left Np.max2 l a). split; [reflexivity|].
  apply fold_max2_spec.
Qed.



(** The scan from the left meets the documented behaviour of
    [searchsorted(side='right')] on arrays in ascending order. *)
Lemma scan_right_spec : searchsorted_right_spec scan_right.
Proof.
  intros a v Hs. induction a as [|x a IH]; cbn [scan_right length].
  - split; [lia|]. split; intros j y Hj E; destruct j; discriminate.
  - apply StronglySorted_inv in Hs. destruct Hs as [Hs Hall].
    destruct (IH Hs) as [Hlen [Hle Hgt]].
    destruct (Qle_bool x v) eqn:E.
    + apply Qle_bool_iff in E. split; [lia|]. split.
      * intros [|j] y Hj Ey; cbn in Ey.
        -- injection Ey as <-. exact E.
        -- apply (Hle j y); [lia|exact Ey].
      * intros [|j] y Hj Ey; [lia|]. cbn in Ey.
        apply (Hgt j y); [lia|exact Ey].
    + assert (Hx : (v < x)%Q).
      { apply Qnot_le_lt. intro H. apply Qle_bool_iff in H. congruence. }
      split; [lia|]. split; [intros j y Hj; lia|].
      intros [|j] y _ Ey; cbn in Ey.
      * injection Ey as <-. exact Hx.
      * apply nth_error_In in Ey.
        rewrite Forall_forall in Hall.
        exact (Qlt_le_trans _ _ _ Hx (Hall y Ey)).
Qed.

End AnimationFurther.


(** ** The compositors: further properties *)

Section CompositeFurther.
Import cv2 VideoSpec CompositeSpec CompositeVocabulary.
Context {opencv : OpenCV}.

Lemma nth_error_combine {A B : Type} (l : list A) (l' : list B) :
  forall k a b,
    nth_error (combine l l') k = Some (a, b) ->
    nth_error l k = Some a /\ nth_error l' k = Some b.
Proof.
  revert l'. induction l as [|x l IH]; intros [|y l'] [|k] a b; cbn;
    try discriminate.
  - intros [= <- <-]. auto.
  - apply IH.
Qed.

Lemma target_height_skipn (l : list Frame) (n k : nat) (p : Frame) :
  nth_error (skipn n l) k = Some p ->
  exists first,
    nth_error l n = Some first /\ target_height (skipn n l) = height first.
Proof.
  intro Hp. pose proof (skipn_nth_error l n) as H.
  destruct (skipn n l) as [|f l']; [destruct k; discriminate|].
  exists f. split; [exact H | reflexivity].
Qed.

(** The k-th composite frame is made of the k-th frame after the start
    offset of each video: the videos advance in lock-step, no frame of
    the part read is left out or used twice.  In combine_three_videos.py
    the frames of the second and third video are brought to the height
    of the first frame read from the first video. *)
Theorem composite_frames_in_lock_step :
  (forall v1 v2 v3 o1 o2 o3 out k c,
      CombineThreeVideos.create_three_video_composite v1 v2 v3 o1 o2 o3
      = Ok (Some out) ->
      nth_error (written out) k = Some c ->
      let skip v o :=
        offset_frames o (CombineThreeVideos.fps_or_30 (VideoCapture_open v)) in
      exists first p1 p2 p3,
        nth_error (video_frames v1) (skip v1 o1) = Some first
        /\ nth_error (video_frames v1) (skip v1 o1 + k) = Some p1
        /\ nth_error (video_frames v2) (skip v2 o2 + k) = Some p2
        /\ nth_error (video_frames v3) (skip v3 o3 + k) = Some p3
        /\ compose3 (height first) (p1, p2, p3) = Ok c)
  /\ (forall v1 v2 o1 o2 out k c,
         CreateSideBySideVideoOffset.create_side_by_side_video v1 v2 o1 o2
         = Ok (Some out) ->
         nth_error (written out) k = Some c ->
         let skip v o :=
           offset_frames
             o (CreateSideBySideVideoOffset.fps_or_30 (VideoCapture_open v)) in
         exists p1 p2,
           nth_error (video_frames v1) (skip v1 o1 + k) = Some p1
           /\ nth_error (video_frames v2) (skip v2 o2 + k) = Some p2
           /\ compose2 (p1, p2) = Ok c).
Proof.
  split.
  - intros v1 v2 v3 o1 o2 o3 out k c Hrun Hk skip.
    apply three_run_returned in Hrun. unfold composite3 in Hrun.
    destruct (composite_nth_error _ _ _ _ Hrun Hk) as ([[p1 p2] p3] & Hp & Hc).
    unfold zip3 in Hp.
    apply nth_error_combine in Hp. destruct Hp as [Hp Hp3].
    apply nth_error_combine in Hp. destruct Hp as [Hp1 Hp2].
    destruct (target_height_skipn _ _ _ Hp1) as (first & Hfirst & Ht).
    rewrite Ht in Hc.
    rewrite nth_error_skipn in Hp1, Hp2, Hp3.
    exists first, p1, p2, p3. auto.
  - intros v1 v2 o1 o2 out k c Hrun Hk skip.
    apply two_run_returned in Hrun. unfold composite2 in Hrun.
    destruct (composite_nth_error _ _ _ _ Hrun Hk) as ([p1 p2] & Hp & Hc).
    apply nth_error_combine in Hp. destruct Hp as [Hp1 Hp2].
    rewrite nth_error_skipn in Hp1, Hp2.
    exists p1, p2. auto.
Qed.

Lemma mapM_Forall {A B : Type} (f : A -> result B) (P : B -> Prop)
      (l : list A) :
  (forall a b, In a l -> f a = Ok b -> P b) ->
  forall bs, mapM f l = Ok bs -> Forall P bs.
Proof.
  induction l as [|a l IH]; cbn; intros H bs.
  - intros [= <-]. constructor.
  - destruct (f a) as [b|] eqn:Ea; [|discriminate]. cbn [bind].
    destruct (mapM f l) as [bs'|]; [|discriminate]. cbn [bind].
    intros [= <-]. constructor; [eapply H; eauto|].
    apply IH; auto.
    intros a' b' Hin. apply H. now right.
Qed.

(** Every frame handed to the writer has a property that every
    composite has and that fixes the size the writer was opened with. *)
Lemma composite_frames_fit {A : Type} (compose : A -> result Frame)
      (fps : float) (ps : list A) (out : VideoWriter)
      (P : Frame -> Z * Z -> Prop) :
  (forall p q c d, In p ps -> In q ps ->
                   compose p = Ok c -> compose q = Ok d -> P c (size d)) ->
  composite compose fps ps = Ok (Some out) ->
  Forall (fun f => P f (frameSize out)) (written out).
Proof.
  intros Hsize. unfold composite. destruct ps as [|p ps]; [discriminate|].
  destruct (mapM compose (p :: ps)) as [fs|] eqn:E; [|discriminate].
  cbn [bind]. intros [= <-]. cbn [written frameSize].
  pose proof E as E'. cbn [mapM] in E'.
  destruct (compose p) as [c|] eqn:Ec; [|discriminate]. cbn [bind] in E'.
  destruct (mapM compose ps) as [cs|]; [|discriminate]. cbn [bind] in E'.
  injection E' as <-. cbn [first_size].
  eapply mapM_Forall; [|exact E].
  intros a b Ha Hb. cbn beta.
  exact (Hsize a p b c Ha (or_introl eq_refl) Hb Ec).
Qed.

Lemma compose3_height (target : Z) (p : Frame * Frame * Frame) (c : Frame) :
  compose3 target p = Ok c -> height c = target.
Proof.
  destruct p as [[p1 p2] p3]. unfold compose3.
  destruct (CombineThreeVideos.resize_to_height p2 _)
    as [f2|] eqn:E2; [|discriminate].
  destruct (CombineThreeVideos.resize_to_height p3 _)
    as [f3|] eqn:E3; [|discriminate].
  cbn [bind]. unfold hconcat. cbn [forallb].
  destruct (height f2 =? height p1)%Z eqn:E; [|discriminate].
  destruct (_ && _)%bool; [|discriminate].
  intros [= <-]. cbn [height].
  apply resize_to_height_height in E2. apply Z.eqb_eq in E. congruence.
Qed.

(** Composites of frames of the same sizes have the same size. *)
Lemma compose3_size (target : Z) (p q : Frame * Frame * Frame) (c d : Frame) :
  size (fst (fst p)) = size (fst (fst q)) ->
  size (snd (fst p)) = size (snd (fst q)) ->
  size (snd p) = size (snd q) ->
  compose3 target p = Ok c ->
  compose3 target q = Ok d ->
  size c = size d.
Proof.
  destruct p as [[p1 p2] p3], q as [[q1 q2] q3]. cbn [fst snd].
  intros S1 S2 S3. unfold compose3.
  destruct (CombineThreeVideos.resize_to_height p2 _)
    as [f2|] eqn:Ep2; [|discriminate].
  destruct (CombineThreeVideos.resize_to_height p3 _)
    as [f3|] eqn:Ep3; [|discriminate].
  destruct (CombineThreeVideos.resize_to_height q2 _)
    as [g2|] eqn:Eq2; [|discriminate].
  destruct (CombineThreeVideos.resize_to_height q3 _)
    as [g3|] eqn:Eq3; [|discriminate].
  cbn [bind]. unfold hconcat.
  destruct (forallb _ _); [|discriminate].
  destruct (forallb _ _); [|discriminate].
  intros [= <-] [= <-].
  assert (T2 : size f2 = size g2)
    by (eapply resize_to_height_size; [|exact Ep2|exact Eq2]; exact S2).
  assert (T3 : size f3 = size g3)
    by (eapply resize_to_height_size; [|exact Ep3|exact Eq3]; exact S3).
  unfold size in *. cbn.
  injection S1 as -> ->. injection T2 as -> _. injection T3 as -> _.
  reflexivity.
Qed.

Lemma compose2_size (p q : Frame * Frame) (c d : Frame) :
  size (fst p) = size (fst q) ->
  size (snd p) = size (snd q) ->
  compose2 p = Ok c ->
  compose2 q = Ok d ->
  size c = size d.
Proof.
  destruct p as [p1 p2], q as [q1 q2]. cbn [fst snd].
  intros S1 S2. unfold compose2.
  rewrite !match_heights_resize_to_height.
  assert (Hh : height p1 = height q1)
    by (unfold size in S1; now injection S1).
  rewrite Hh.
  destruct (CombineThreeVideos.resize_to_height p2 _)
    as [f2|] eqn:Ep2; [|discriminate].
  destruct (CombineThreeVideos.resize_to_height q2 _)
    as [g2|] eqn:Eq2; [|discriminate].
  cbn [bind]. unfold hconcat.
  destruct (forallb _ _); [|discriminate].
  destruct (forallb _ _); [|discriminate].
  intros [= <-] [= <-].
  assert (T2 : size f2 = size g2)
    by (eapply resize_to_height_size; [|exact Ep2|exact Eq2]; exact S2).
  unfold size in *. cbn.
  injection S1 as -> ->. injection T2 as -> _.
  reflexivity.
Qed.

Lemma uniform_skipn_size (v : Video) (n : nat) (p q : Frame) :
  uniform v ->
  In p (skipn n (video_frames v)) -> In q (skipn n (video_frames v)) ->
  size p = size q.
Proof.
  intros U Hp Hq. pose proof (Forall_skipn n U) as U'.
  rewrite Forall_forall in U'.
  now rewrite (U' p Hp), (U' q Hq).
Qed.

(** In combine_three_videos.py every frame handed to the writer has the
    height the writer was opened with, whatever the sizes of the decoded
    frames are.  When the frames of each video have one size, every frame
    handed to the writer has exactly the frame size the writer was opened
    with, in both scripts. *)
Theorem written_frames_have_writer_size :
  (forall v1 v2 v3 o1 o2 o3 out,
      CombineThreeVideos.create_three_video_composite v1 v2 v3 o1 o2 o3
      = Ok (Some out) ->
      Forall (fun f => height f = snd (frameSize out)) (written out)
      /\ (uniform v1 -> uniform v2 -> uniform v3 ->
          Forall (fun f => size f = frameSize out) (written out)))
  /\ (forall v1 v2 o1 o2 out,
         CreateSideBySideVideoOffset.create_side_by_side_video v1 v2 o1 o2
         = Ok (Some out) ->
         uniform v1 -> uniform v2 ->
         Forall (fun f => size f = frameSize out) (written out)).
Proof.
  split.
  - intros v1 v2 v3 o1 o2 o3 out Hrun.
    apply three_run_returned in Hrun. unfold composite3 in Hrun. split.
    + refine (@composite_frames_fit _ _ _ _ _
                (fun f (s : Z * Z) => height f = snd s) _ Hrun).
      intros p q c d _ _ Hc Hd. cbn [size snd].
      apply compose3_height in Hc, Hd. congruence.
    + intros U1 U2 U3.
      refine (@composite_frames_fit _ _ _ _ _
                (fun f (s : Z * Z) => size f = s) _ Hrun).
      intros [[p1 p2] p3] [[q1 q2] q3] c d Hp Hq. unfold zip3 in Hp, Hq.
      pose proof (in_combine_r _ _ _ _ Hp) as Hp3.
      apply in_combine_l in Hp.
      pose proof (in_combine_r _ _ _ _ Hp) as Hp2.
      apply in_combine_l in Hp.
      pose proof (in_combine_r _ _ _ _ Hq) as Hq3.
      apply in_combine_l in Hq.
      pose proof (in_combine_r _ _ _ _ Hq) as Hq2.
      apply in_combine_l in Hq.
      intros Hc Hd.
      eapply compose3_size; [| | |exact Hc|exact Hd]; cbn [fst snd];
        [eapply (@uniform_skipn_size v1); eassumption
        |eapply (@uniform_skipn_size v2); eassumption
        |eapply (@uniform_skipn_size v3); eassumption].
  - intros v1 v2 o1 o2 out Hrun U1 U2.
    apply two_run_returned in Hrun. unfold composite2 in Hrun.
    refine (@composite_frames_fit _ _ _ _ _
              (fun f (s : Z * Z) => size f = s) _ Hrun).
    intros [p1 p2] [q1 q2] c d Hp Hq.
    pose proof (in_combine_r _ _ _ _ Hp) as Hp2.
    apply in_combine_l in Hp.
    pose proof (in_combine_r _ _ _ _ Hq) as Hq2.
    apply in_combine_l in Hq.
    intros Hc Hd.
    eapply compose2_size; [| |exact Hc|exact Hd]; cbn [fst snd];
      [eapply (@uniform_skipn_size v1); eassumption
      |eapply (@uniform_skipn_size v2); eassumption].
Qed.

Lemma skip_clamped_offset (cap : VideoCapture) (o fps : float) :
  CombineThreeVideos.skip_offset cap (clamp_offset o) fps
  = CombineThreeVideos.skip_offset cap o fps.
Proof.
  unfold CombineThreeVideos.skip_offset, clamp_offset.
  destruct (ltb (fin 0) o) eqn:E; [now rewrite E | reflexivity].
Qed.

(** A start offset that is not positive is no offset: a run with the
    offsets [o] is the run with every such offset replaced by 0. *)
Theorem negative_offset_is_no_offset :
  (forall v1 v2 v3 o1 o2 o3,
      CombineThreeVideos.create_three_video_composite v1 v2 v3 o1 o2 o3
      = CombineThreeVideos.create_three_video_composite
          v1 v2 v3 (clamp_offset o1) (clamp_offset o2) (clamp_offset o3))
  /\ (forall v1 v2 o1 o2,
         CreateSideBySideVideoOffset.create_side_by_side_video v1 v2 o1 o2
         = CreateSideBySideVideoOffset.create_side_by_side_video
             v1 v2 (clamp_offset o1) (clamp_offset o2)).
Proof.
  split.
  - intros. rewrite !create_three_video_composite_run. cbv zeta.
    now rewrite !skip_clamped_offset.
  - intros. rewrite !create_side_by_side_video_run. cbv zeta.
    change (@CreateSideBySideVideoOffset.skip_offset opencv)
      with (@CombineThreeVideos.skip_offset opencv).
    now rewrite !skip_clamped_offset.
Qed.

(** Skipping depends on the frames of the video only. *)
Lemma skip_offset_same_frames (v v' : Video) (o fps : float) :
  video_frames v = video_frames v' ->
  match CombineThreeVideos.skip_offset (VideoCapture_open v) o fps,
        CombineThreeVideos.skip_offset (VideoCapture_open v') o fps with
  | Ok k, Ok k' => rest k = rest k'
  | Raise e, Raise e' => e = e'
  | _, _ => False
  end.
Proof.
  intro H. unfold CombineThreeVideos.skip_offset.
  destruct (ltb (fin 0) o).
  - destruct (PyFloat.int _); cbn [bind]; [|reflexivity].
    unfold rest, set_POS_FRAMES. cbn. now rewrite H.
  - unfold rest. cbn. now rewrite H.
Qed.

Ltac same_skip va vb o f H :=
  let Hs := fresh "Hs" in
  pose proof (@skip_offset_same_frames va vb o f H) as Hs;
  destruct (CombineThreeVideos.skip_offset (VideoCapture_open va) o f),
           (CombineThreeVideos.skip_offset (VideoCapture_open vb) o f);
  try contradiction; cbn [bind]; [rewrite Hs; clear Hs | congruence].

(** combine_three_videos.py treats a video that reports the frame rate 0
    as a video of 30 frames per second, in the skip and in the output
    rate; create_side_by_side_video_offset.py does so for every rate that
    is not positive. *)
Theorem unknown_fps_is_30 :
  (forall v1 v2 v3 o1 o2 o3,
      let known v :=
        if eqb (video_fps v) (fin 0) then with_fps (fin 30) v else v in
      CombineThreeVideos.create_three_video_composite v1 v2 v3 o1 o2 o3
      = CombineThreeVideos.create_three_video_composite
          (known v1) (known v2) (known v3) o1 o2 o3)
  /\ (forall v1 v2 o1 o2,
         let known v :=
           if leb (video_fps v) (fin 0) then with_fps (fin 30) v else v in
         CreateSideBySideVideoOffset.create_side_by_side_video v1 v2 o1 o2
         = CreateSideBySideVideoOffset.create_side_by_side_video
             (known v1) (known v2) o1 o2).
Proof.
  split.
  - intros v1 v2 v3 o1 o2 o3 known.
    rewrite !create_three_video_composite_run. cbv zeta.
    assert (Hk : forall v,
               CombineThreeVideos.fps_or_30 (VideoCapture_open (known v))
               = CombineThreeVideos.fps_or_30 (VideoCapture_open v)
               /\ video_frames (known v) = video_frames v).
    { intro v. unfold known, CombineThreeVideos.fps_or_30, CAP_PROP_FPS.
      cbn [source VideoCapture_open].
      destruct (eqb (video_fps v) (fin 0)) eqn:E; cbn; [|rewrite E]; auto. }
    rewrite !(proj1 (Hk _)).
    same_skip (known v1) v1 o1
              (CombineThreeVideos.fps_or_30 (VideoCapture_open v1))
              (proj2 (Hk v1)).
    same_skip (known v2) v2 o2
              (CombineThreeVideos.fps_or_30 (VideoCapture_open v2))
              (proj2 (Hk v2)).
    same_skip (known v3) v3 o3
              (CombineThreeVideos.fps_or_30 (VideoCapture_open v3))
              (proj2 (Hk v3)).
    reflexivity.
  - intros v1 v2 o1 o2 known.
    rewrite !create_side_by_side_video_run. cbv zeta.
    assert (Hk : forall v,
               CreateSideBySideVideoOffset.fps_or_30 (VideoCapture_open (known v))
               = CreateSideBySideVideoOffset.fps_or_30 (VideoCapture_open v)
               /\ video_frames (known v) = video_frames v).
    { intro v. unfold known, CreateSideBySideVideoOffset.fps_or_30, CAP_PROP_FPS.
      cbn [source VideoCapture_open].
      destruct (leb (video_fps v) (fin 0)) eqn:E; cbn; [|rewrite E]; auto. }
    rewrite !(proj1 (Hk _)).
    change (@CreateSideBySideVideoOffset.skip_offset opencv)
      with (@CombineThreeVideos.skip_offset opencv).
    same_skip (known v1) v1 o1
              (CreateSideBySideVideoOffset.fps_or_30 (VideoCapture_open v1))
              (proj2 (Hk v1)).
    same_skip (known v2) v2 o2
              (CreateSideBySideVideoOffset.fps_or_30 (VideoCapture_open v2))
              (proj2 (Hk v2)).
    reflexivity.
Qed.

(** The frame size of the output: the height of the first frame read
    from the first video, and the sum of the widths of the first frames
    read once the second (and third) are brought to that height. *)
Theorem composite_output_size :
  (forall v1 v2 v3 o1 o2 o3 out,
      CombineThreeVideos.create_three_video_composite v1 v2 v3 o1 o2 o3
      = Ok (Some out) ->
      let skip v o :=
        offset_frames o (CombineThreeVideos.fps_or_30 (VideoCapture_open v)) in
      exists frame1 frame2 frame3 resized2 resized3,
        nth_error (video_frames v1) (skip v1 o1) = Some frame1
        /\ nth_error (video_frames v2) (skip v2 o2) = Some frame2
        /\ nth_error (video_frames v3) (skip v3 o3) = Some frame3
        /\ CombineThreeVideos.resize_to_height frame2 (height frame1)
           = Ok resized2
        /\ CombineThreeVideos.resize_to_height frame3 (height frame1)
           = Ok resized3
        /\ frameSize out
           = (width frame1 + width resized2 + width resized3,
              height frame1)%Z)
  /\ (forall v1 v2 o1 o2 out,
         CreateSideBySideVideoOffset.create_side_by_side_video v1 v2 o1 o2
         = Ok (Some out) ->
         let skip v o :=
           offset_frames
             o (CreateSideBySideVideoOffset.fps_or_30 (VideoCapture_open v)) in
         exists frame1 frame2 resized2,
           nth_error (video_frames v1) (skip v1 o1) = Some frame1
           /\ nth_error (video_frames v2) (skip v2 o2) = Some frame2
           /\ CombineThreeVideos.resize_to_height frame2 (height frame1)
              = Ok resized2
           /\ frameSize out
              = (width frame1 + width resized2, height frame1)%Z).
Proof.
  split.
  - intros v1 v2 v3 o1 o2 o3 out Hrun skip.
    apply three_run_returned in Hrun. fold (skip v1 o1) in Hrun.
    fold (skip v2 o2) in Hrun. fold (skip v3 o3) in Hrun.
    unfold composite3, composite, zip3 in Hrun.
    pose proof (skipn_nth_error (video_frames v1) (skip v1 o1)) as H1.
    pose proof (skipn_nth_error (video_frames v2) (skip v2 o2)) as H2.
    pose proof (skipn_nth_error (video_frames v3) (skip v3 o3)) as H3.
    destruct (skipn (skip v1 o1) (video_frames v1)) as [|f1 l1];
      [discriminate|].
    destruct (skipn (skip v2 o2) (video_frames v2)) as [|f2 l2];
      [discriminate|].
    destruct (skipn (skip v3 o3) (video_frames v3)) as [|f3 l3];
      [discriminate|].
    cbn [combine mapM target_height] in Hrun. unfold compose3 at 1 in Hrun.
    destruct (CombineThreeVideos.resize_to_height f2 _)
      as [r2|] eqn:E2; [|discriminate]. cbn [bind] in Hrun.
    destruct (CombineThreeVideos.resize_to_height f3 _)
      as [r3|] eqn:E3; [|discriminate]. cbn [bind] in Hrun.
    unfold hconcat in Hrun.
    destruct (forallb _ _); [|discriminate]. cbn [bind] in Hrun.
    destruct (mapM _ _); [|discriminate]. cbn [bind] in Hrun.
    injection Hrun as <-.
    exists f1, f2, f3, r2, r3. cbn. auto 10.
  - intros v1 v2 o1 o2 out Hrun skip.
    apply two_run_returned in Hrun. fold (skip v1 o1) in Hrun.
    fold (skip v2 o2) in Hrun.
    unfold composite2, composite in Hrun.
    pose proof (skipn_nth_error (video_frames v1) (skip v1 o1)) as H1.
    pose proof (skipn_nth_error (video_frames v2) (skip v2 o2)) as H2.
    destruct (skipn (skip v1 o1) (video_frames v1)) as [|f1 l1];
      [discriminate|].
    destruct (skipn (skip v2 o2) (video_frames v2)) as [|f2 l2];
      [discriminate|].
    cbn [combine mapM] in Hrun. unfold compose2 at 1 in Hrun.
    rewrite match_heights_resize_to_height in Hrun.
    destruct (CombineThreeVideos.resize_to_height f2 _)
      as [r2|] eqn:E2; [|discriminate]. cbn [bind] in Hrun.
    unfold hconcat in Hrun.
    destruct (forallb _ _); [|discriminate]. cbn [bind] in Hrun.
    destruct (mapM _ _); [|discriminate]. cbn [bind] in Hrun.
    injection Hrun as <-.
    exists f1, f2, r2. cbn. auto 10.
Qed.

(** Enlarging never fails and never narrows: a frame of positive size
    brought to a height that is not smaller is returned resized, at least
    as wide as it was, as long as [float()] represents the width and the
    target height exactly. *)
Theorem resize_to_height_enlarges (frame : Frame) (target_height : Z) :
  (0 < width frame)%Z -> (0 < height frame)%Z ->
  (height frame <= target_height)%Z ->
  exact_int (width frame) -> exact_int target_height ->
  exists frame',
    CombineThreeVideos.resize_to_height frame target_height = Ok frame'
    /\ height frame' = target_height
    /\ (width frame <= width frame')%Z.
Proof.
  intros Hw Hh Hle Xw Xt.
  assert (Xh : exact_int (height frame)) by (unfold exact_int in *; lia).
  destruct (Z.eq_dec (height frame) target_height) as [E|Hne].
  - exists frame. unfold CombineThreeVideos.resize_to_height.
    apply Z.eqb_eq in E. rewrite E. apply Z.eqb_eq in E.
    repeat split; [assumption | lia].
  - destruct (@resize_to_height_float _ _ _ Xw Xh Xt Hne ltac:(lia))
      as (ratio & product & Hr & Hp & ->).
    assert (Hh' : (0 < inject_Z (height frame))%Q).
    { change 0%Q with (inject_Z 0). rewrite <- Zlt_Qlt. lia. }
    assert (H1 : (1 <= inject_Z target_height / inject_Z (height frame))%Q).
    { apply Qle_shift_div_l; [assumption|].
      rewrite Qmult_1_l, <- Zle_Qle. lia. }
    assert (Hratio : (1 <= ratio)%Q).
    { pose proof (@round_le _ _ H1) as Hm. rewrite Hr in Hm.
      change (round 1) with (fin 1) in Hm. now apply leb_fin in Hm. }
    assert (Hw' : (0 <= inject_Z (width frame))%Q).
    { change 0%Q with (inject_Z 0). rewrite <- Zle_Qle. lia. }
    assert (H2 : (inject_Z (width frame) <= inject_Z (width frame) * ratio)%Q)
      by nra.
    assert (Hproduct : (inject_Z (width frame) <= product)%Q).
    { pose proof (@round_le _ _ H2) as Hm.
      rewrite Hp, (@round_inject_Z _ Xw) in Hm. apply leb_fin in Hm.
      now rewrite Qred_correct in Hm. }
    assert (Hint : (width frame <= Py.int product)%Z)
      by (apply int_ge; [lia | assumption]).
    unfold resize.
    assert (E1 : (0 <? width frame)%Z = true) by (apply Z.ltb_lt; lia).
    assert (E2 : (0 <? height frame)%Z = true) by (apply Z.ltb_lt; lia).
    assert (E3 : (0 <? Py.int product)%Z = true) by (apply Z.ltb_lt; lia).
    assert (E4 : (0 <? target_height)%Z = true) by (apply Z.ltb_lt; lia).
    rewrite E1, E2, E3, E4. cbn [andb]. eexists. repeat split. exact Hint.
Qed.

End CompositeFurther.

(** ** main.py: the annotated video *)

Section AnnotatedVideo.
Import cv2 Main MainSpec VideoSpec CompositeSpec CompositeVocabulary.
Import MainVideo MainVideoSpec.
Context {opencv : OpenCV} {drawing : Drawing} {fmt : PyFormat}.

Lemma annotate_loop_step (video_info : VideoInfo) (s : AnnotateState) :
  annotate_loop video_info s
  = match annotate_body video_info s with
    | Raise e => Raise e
    | Ok None => Ok (df s, out s)
    | Ok (Some s') => annotate_loop video_info s'
    end.
Proof.
  funelim (annotate_loop video_info s);
    match goal with H : annotate_body _ _ = _ |- _ => rewrite H end;
    reflexivity.
Qed.

Lemma annotate_body_rest (video_info : VideoInfo) (s : AnnotateState) :
  annotate_body video_info s
  = match rest (cap s) with
    | [] => Ok None
    | frame :: _ =>
        t <- frame_time (frame_index s) (info_fps video_info) ;;
        ' (df', row) <- get_accel_at_time (df s) t ;;
        frame <- draw_overlay frame t (values row) ;;
        Ok (Some (mkAnnotate (advance (cap s)) (write (out s) frame)
                             (frame_index s + 1)%Z df'))
    end.
Proof.
  unfold annotate_body. rewrite read_rest.
  destruct (rest (cap s)); reflexivity.
Qed.

(** The loop writes the annotated frames of the frames left in the
    capture. *)
Lemma annotate_loop_run (video_info : VideoInfo) (s : AnnotateState) :
  annotate_loop video_info s
  = (' (df', fs) <- annotate_frames video_info (df s)
                      (frame_index s) (rest (cap s)) ;;
     Ok (df', append_frames (out s) fs)).
Proof.
  remember (rest (cap s)) as ps eqn:Hps. revert s Hps.
  induction ps as [|p ps IH]; intros s Hps;
    rewrite annotate_loop_step, annotate_body_rest, <- Hps.
  - cbn. now rewrite append_frames_nil.
  - cbn [annotate_frames].
    destruct (frame_time _ _) as [t|e]; [|reflexivity]. cbn [bind].
    destruct (get_accel_at_time (df s) t) as [[df' row]|e]; [|reflexivity].
    cbn [bind].
    destruct (draw_overlay p t (values row)) as [frame|e]; [|reflexivity].
    cbn [bind].
    rewrite IH by (cbn [cap]; now rewrite rest_advance, <- Hps).
    cbn [cap out frame_index df].
    destruct (annotate_frames _ _ _ _) as [[df'' fs]|e]; [|reflexivity].
    cbn [bind]. now rewrite append_frames_write.
Qed.

Lemma create_annotated_video_run (df0 : DataFrame) (video_info : VideoInfo)
      (v : Video) :
  create_annotated_video df0 video_info v
  = (_ <- column (adjusted_timestamp df0) ;;
     ' (df', fs) <- annotate_frames video_info df0 0 (video_frames v) ;;
     Ok (df', mkWriter (info_fps video_info)
                       (info_width video_info, info_height video_info) fs)).
Proof.
  unfold create_annotated_video.
  destruct (column (adjusted_timestamp df0)); [|reflexivity]. cbn [bind].
  rewrite annotate_loop_run. reflexivity.
Qed.

(** *** The time of a frame *)

Lemma frame_time_ok (i : Z) (fps : float) :
  exact_int i -> eqb fps (fin 0) = false ->
  frame_time i fps = Ok (div (fin (Qred (inject_Z i))) fps).
Proof.
  intros Hi Hfps. unfold frame_time.
  rewrite (@of_int_small i Hi). cbn [bind].
  unfold PyFloat.truediv. now rewrite Hfps.
Qed.

Lemma div_fin_not_nan (a : Q) (fps : float) :
  eqb fps (fin 0) = false -> is_nan fps = false ->
  is_nan (div (fin a) fps) = false.
Proof.
  intros Hz Hn. destruct fps as [b|[]|]; try discriminate; try reflexivity.
  cbn in Hz |- *. rewrite Hz. apply round_not_nan.
Qed.

(** *** The overlay *)

Lemma scaled_finite (a : float) :
  drawable a ->
  (exists n, PyFloat.int (mul a (fin 20)) = Ok n)
  /\ (exists n, PyFloat.int (mul (mul a (fin 20)) (of_Q (7 # 10))) = Ok n).
Proof.
  intros (q & -> & Hq). cbn [mul].
  destruct (@round_bounded 1005 (q * 20)) as (p & Hp & Hb); [lia| |].
  { rewrite Qabs_Qmult. replace 1005%Z with (1000 + 5)%Z by reflexivity.
    rewrite pow2_plus.
    assert (E : (Qabs 20 <= pow2 5)%Q) by (vm_compute; discriminate).
    pose proof (Qabs_nonneg q). pose proof (Qabs_nonneg 20).
    pose proof (pow2_pos 1000).
    generalize dependent (Qabs q). generalize dependent (Qabs 20).
    generalize dependent (pow2 1000). generalize dependent (pow2 5).
    intros. nra. }
  rewrite Hp. split; [cbn; eauto|].
  assert (E : exists c, of_Q (7 # 10) = fin c /\ (Qabs c <= 1)%Q).
  { eexists. split; [vm_compute; reflexivity | vm_compute; discriminate]. }
  destruct E as (c & -> & Hc). cbn [mul].
  destruct (@round_bounded 1005 (p * c)) as (p' & -> & _); [lia| |].
  { rewrite Qabs_Qmult.
    pose proof (Qabs_nonneg p). pose proof (Qabs_nonneg c).
    generalize dependent (Qabs p). generalize dependent (Qabs c).
    generalize dependent (pow2 1005). intros. nra. }
  cbn. eauto.
Qed.

Lemma draw_overlay_ok (frame : Frame) (t : float) (row : Row) :
  drawable_reading (row_reading row) ->
  exists frame', draw_overlay frame t row = Ok frame'.
Proof.
  intros (Hx & Hy & Hz). unfold draw_overlay. cbv zeta.
  destruct (@scaled_finite _ Hx) as [[nx ->] _]. cbn [bind].
  destruct (@scaled_finite _ Hy) as [[ny ->] _]. cbn [bind].
  destruct (@scaled_finite _ Hz) as [_ [nz ->]]. cbn [bind].
  eauto.
Qed.

(** Drawing leaves the size of the frame as it is. *)
Lemma draw_overlay_size (frame frame' : Frame) (t : float) (row : Row) :
  draw_overlay frame t row = Ok frame' -> size frame' = size frame.
Proof.
  unfold draw_overlay. cbv zeta.
  destruct (PyFloat.int _); [|discriminate]. cbn [bind].
  destruct (PyFloat.int _); [|discriminate]. cbn [bind].
  destruct (PyFloat.int _); [|discriminate]. cbn [bind].
  now intros [= <-].
Qed.

(** An acceleration that is NaN or infinite cannot be drawn. *)
Lemma draw_overlay_not_finite (frame : Frame) (t : float) (row : Row) :
  (ACCEL_X (row_reading row) = nan ->
   draw_overlay frame t row = Raise ValueError)
  /\ (forall s, ACCEL_X (row_reading row) = inf s ->
                draw_overlay frame t row = Raise OverflowError).
Proof.
  unfold draw_overlay. cbv zeta. split.
  - intros ->. reflexivity.
  - intros s ->. reflexivity.
Qed.

(** *** The loop *)

(** A table on which every lookup at a time that is not NaN returns a
    row that can be drawn. *)
Definition ready (df0 : DataFrame) (adjusted : list Z) : Prop :=
  adjusted_timestamp df0 = Some adjusted
  /\ adjusted <> []
  /\ length adjusted = length (readings df0)
  /\ span_fits adjusted
  /\ Forall drawable_reading (readings df0).

Lemma lookup_ready (df0 : DataFrame) (adjusted : list Z) (t : float) :
  ready df0 adjusted -> is_nan t = false ->
  exists df1 s,
    get_accel_at_time df0 t = Ok (df1, s)
    /\ ready df1 adjusted
    /\ drawable_reading (row_reading (values s)).
Proof.
  intros (Hadj & Hne & Hlen & Hspan & Hdraw) Ht.
  destruct (get_accel_at_time_returns df0 t Hadj Hne Hlen Hspan Ht)
    as (df1 & s & Hget).
  exists df1, s. split; [exact Hget|].
  destruct (get_accel_at_time_ok _ _ Hget)
    as (adj & origin & r & a & Hadj' & _ & _ & -> & Hr & _ & -> & _).
  assert (adj = adjusted) by congruence. subst adj.
  split.
  - unfold ready. cbn [adjusted_timestamp readings]. auto.
  - cbn [row_reading]. rewrite Forall_forall in Hdraw. apply Hdraw.
    eapply nth_error_In; eauto.
Qed.

(** On a table that is ready, at a frame rate that is neither 0 nor NaN,
    every frame is annotated: frame [n + k] with the row that the lookup
    on the table as it was returns for the time of that frame. *)
Lemma annotate_frames_ok (video_info : VideoInfo) (ps : list Frame) :
  eqb (info_fps video_info) (fin 0) = false ->
  is_nan (info_fps video_info) = false ->
  forall (df0 : DataFrame) (adjusted : list Z) (n : nat),
    ready df0 adjusted ->
    exact_int (Z.of_nat (n + length ps)) ->
    exists dfE fs,
      annotate_frames video_info df0 (Z.of_nat n) ps = Ok (dfE, fs)
      /\ length fs = length ps
      /\ forall k p,
          nth_error ps k = Some p ->
          exists t s frame',
            frame_time (Z.of_nat (n + k)) (info_fps video_info) = Ok t
            /\ get_accel_at_time df0 t = Ok (dfE, s)
            /\ draw_overlay p t (values s) = Ok frame'
            /\ nth_error fs k = Some frame'.
Proof.
  intros Hz Hn. induction ps as [|p ps IH]; intros df0 adjusted n Hready Hex.
  - exists df0, []. repeat split. intros [|k] p'; discriminate.
  - cbn [annotate_frames length] in *.
    assert (Hexn : exact_int (Z.of_nat n)) by (unfold exact_int in *; lia).
    rewrite (@frame_time_ok _ _ Hexn Hz). cbn [bind].
    set (t0 := div (fin (Qred (inject_Z (Z.of_nat n)))) (info_fps video_info)).
    assert (Ht0 : is_nan t0 = false) by (now apply div_fin_not_nan).
    destruct (@lookup_ready _ _ t0 Hready Ht0) as (df1 & s & Hget & Hready1 & Hdraw).
    rewrite Hget. cbn [bind].
    destruct (@draw_overlay_ok p t0 _ Hdraw) as [frame' Hframe].
    rewrite Hframe. cbn [bind].
    destruct (IH df1 adjusted (S n) Hready1) as (dfE & fs & Hrun & Hlen & Hnth).
    { unfold exact_int in *. lia. }
    replace (Z.of_nat n + 1)%Z with (Z.of_nat (S n)) by lia.
    rewrite Hrun. cbn [bind].
    assert (HE : dfE = df1).
    { destruct ps as [|p' ps'].
      - cbn in Hrun. now injection Hrun as <- _.
      - destruct (Hnth 0 p' eq_refl) as (t' & s' & f' & _ & Hget' & _).
        destruct (@lookup_table_stable _ _ _ _ t' Hget) as [Heq Hsame'].
        rewrite Heq in Hget'. exact (Hsame' _ _ Hget'). }
    subst dfE. do 2 eexists. split; [reflexivity|].
    split; [cbn; now rewrite Hlen|].
    intros [|k] p' Hk; cbn in Hk.
    + injection Hk as <-. exists t0, s, frame'. rewrite Nat.add_0_r.
      split; [now apply frame_time_ok|]. split; [exact Hget|].
      split; [exact Hframe | reflexivity].
    + destruct (Hnth k p' Hk) as (t' & s' & f' & Ht' & Hget' & Hf' & Hfs).
      destruct (@lookup_table_stable _ _ _ _ t' Hget) as [Heq _].
      rewrite Heq in Hget'.
      exists t', s', f'. replace (n + S k) with (S n + k) by lia.
      auto.
Qed.

(** One annotated frame per frame of the video, in the order of the video.
    On a table whose column 'adjusted_timestamp' is there, has an entry
    per row, is not empty and spans less than 2^63 ns, whose
    accelerations are finite, for a frame rate that is neither 0 nor NaN,
    [create_annotated_video] returns, the output has as many frames as the
    video delivers, and its frame [i] is frame [i] of the video with the
    overlay of the row that [get_accel_at_time] matches to the time
    [i / fps]. *)
Theorem create_annotated_video_frames
        (df0 : DataFrame) (adjusted : list Z) (video_info : VideoInfo)
        (v : Video) :
  adjusted_timestamp df0 = Some adjusted ->
  adjusted <> [] ->
  length adjusted = length (readings df0) ->
  span_fits adjusted ->
  Forall drawable_reading (readings df0) ->
  eqb (info_fps video_info) (fin 0) = false ->
  is_nan (info_fps video_info) = false ->
  exact_int (Z.of_nat (length (video_frames v))) ->
  exists df' out,
    create_annotated_video df0 video_info v = Ok (df', out)
    /\ writer_fps out = info_fps video_info
    /\ frameSize out = (info_width video_info, info_height video_info)
    /\ length (written out) = length (video_frames v)
    /\ forall i p,
        nth_error (video_frames v) i = Some p ->
        exists t s frame',
          frame_time (Z.of_nat i) (info_fps video_info) = Ok t
          /\ get_accel_at_time df0 t = Ok (df', s)
          /\ draw_overlay p t (values s) = Ok frame'
          /\ nth_error (written out) i = Some frame'.
Proof.
  intros Hadj Hne Hlen Hspan Hdraw Hz Hn Hex.
  rewrite create_annotated_video_run, Hadj. cbn [column bind].
  destruct (@annotate_frames_ok video_info (video_frames v) Hz Hn
              df0 adjusted 0 (conj Hadj (conj Hne (conj Hlen (conj Hspan Hdraw))))
              Hex)
    as (dfE & fs & Hrun & Hlen' & Hnth).
  change (Z.of_nat 0) with 0%Z in Hrun. rewrite Hrun. cbn [bind].
  do 2 eexists. split; [reflexivity|]. cbn [writer_fps frameSize written].
  repeat split; auto.
Qed.

(** How [create_annotated_video] ends otherwise.  Without the column
    'adjusted_timestamp' it raises [KeyError], whatever the table (with
    or without rows) and the video.  With the column, a video without
    frames gives an output without frames and the table untouched; a
    video with frames raises [ZeroDivisionError] at the frame rate 0,
    [ValueError] on a table without rows, and [ValueError] when the row
    matched to the first frame has a NaN acceleration. *)
Theorem create_annotated_video_edge_cases
        (df0 : DataFrame) (video_info : VideoInfo) (v : Video) :
  (adjusted_timestamp df0 = None ->
   create_annotated_video df0 video_info v = Raise KeyError)
  /\ (forall adjusted,
         adjusted_timestamp df0 = Some adjusted ->
         (video_frames v = [] ->
          create_annotated_video df0 video_info v
          = Ok (df0, mkWriter (info_fps video_info)
                              (info_width video_info, info_height video_info)
                              []))
         /\ (video_frames v <> [] ->
             eqb (info_fps video_info) (fin 0) = true ->
             create_annotated_video df0 video_info v = Raise ZeroDivisionError)
         /\ (video_frames v <> [] ->
             eqb (info_fps video_info) (fin 0) = false ->
             adjusted = [] ->
             create_annotated_video df0 video_info v = Raise ValueError)
         /\ (forall t df1 s,
                video_frames v <> [] ->
                frame_time 0 (info_fps video_info) = Ok t ->
                get_accel_at_time df0 t = Ok (df1, s) ->
                ACCEL_X (sample (values s)) = nan ->
                create_annotated_video df0 video_info v = Raise ValueError)).
Proof.
  rewrite create_annotated_video_run. split.
  - intros ->. reflexivity.
  - intros adjusted Hadj. rewrite Hadj. cbn [column bind].
    split; [|split; [|split]].
    + intros ->. reflexivity.
    + intros Hv H0. destruct (video_frames v) as [|p ps]; [congruence|].
      cbn [annotate_frames]. unfold frame_time.
      change (PyFloat.of_int 0) with (@Ok float (fin 0)). cbn [bind].
      unfold PyFloat.truediv. rewrite H0. reflexivity.
    + intros Hv Hfps ->. destruct (video_frames v) as [|p ps]; [congruence|].
      cbn [annotate_frames]. unfold frame_time.
      change (PyFloat.of_int 0) with (@Ok float (fin 0)). cbn [bind].
      unfold PyFloat.truediv. rewrite Hfps. cbn [bind].
      unfold get_accel_at_time. rewrite Hadj. reflexivity.
    + intros t df1 s Hv Ht Hget Hnan.
      destruct (video_frames v) as [|p ps]; [congruence|].
      cbn [annotate_frames]. rewrite Ht. cbn [bind]. rewrite Hget.
      cbn [bind].
      rewrite (proj1 (draw_overlay_not_finite p t (values s)) Hnan).
      reflexivity.
Qed.

Lemma annotate_frames_sizes (video_info : VideoInfo) (ps : list Frame) :
  forall df0 i df' fs,
    annotate_frames video_info df0 i ps = Ok (df', fs) ->
    map size fs = map size ps.
Proof.
  induction ps as [|p ps IH]; cbn [annotate_frames]; intros df0 i df' fs.
  - now intros [= _ <-].
  - destruct (frame_time _ _) as [t|]; [|discriminate]. cbn [bind].
    destruct (get_accel_at_time df0 t) as [[df1 row]|]; [|discriminate].
    cbn [bind].
    destruct (draw_overlay p t (values row)) as [frame|] eqn:Ed;
      [|discriminate]. cbn [bind].
    destruct (annotate_frames _ _ _ _) as [[df2 fs']|] eqn:E; [|discriminate].
    cbn [bind]. intros [= _ <-]. cbn [map].
    rewrite (@draw_overlay_size _ _ _ _ Ed). f_equal. eapply IH; eauto.
Qed.

Lemma of_Z_le (a b : Z) : (a <= b)%Z -> leb (of_Z a) (of_Z b) = true.
Proof. intro H. unfold of_Z. apply round_le. now rewrite <- Zle_Qle. Qed.

(** [get_video_info] never divides by zero: the duration is 0 at the frame
    rate 0, and the float quotient [frame_count / fps] otherwise, where
    the frame count is the one that the container reports.  At a positive
    frame rate the time [i / fps] that [create_annotated_video] gives to a
    frame [i] up to that count lies between 0 and the duration. *)
Theorem video_info_duration (v : Video) :
  exists info,
    get_video_info (VideoAt v) = inr info
    /\ info_fps info = video_fps v
    /\ info_frame_count info = video_frame_count v
    /\ info_width info = video_width v
    /\ info_height info = video_height v
    /\ (eqb (video_fps v) (fin 0) = true -> info_duration info = fin 0)
    /\ (eqb (video_fps v) (fin 0) = false ->
        info_duration info = div (of_Z (video_frame_count v)) (video_fps v))
    /\ (forall q i t,
           video_fps v = fin q -> (0 < q)%Q ->
           (0 <= i <= video_frame_count v)%Z ->
           frame_time i (info_fps info) = Ok t ->
           leb (fin 0) t = true /\ leb t (info_duration info) = true).
Proof.
  eexists. split; [reflexivity|].
  cbn [info_fps info_frame_count info_width info_height info_duration].
  unfold CAP_PROP_FPS. cbn [source VideoCapture_open].
  do 4 (split; [reflexivity|]). split; [|split].
  - intros ->. reflexivity.
  - intros ->. reflexivity.
  - intros q i t Hq Hpos Hi. rewrite Hq.
    assert (E : Qeq_bool q 0 = false) by (apply Qeq_bool_false; lra).
    cbn [eqb]. rewrite E. cbn [negb].
    unfold frame_time, PyFloat.of_int.
    destruct (of_Z i) as [a| |] eqn:Ea; try discriminate. cbn [bind].
    unfold PyFloat.truediv. cbn [eqb]. rewrite E. intro Ht.
    assert (Et : t = div (of_Z i) (fin q)) by (rewrite Ea; congruence).
    clear Ht. subst t. split.
    + apply leb_trans with (div (of_Z 0) (fin q)).
      * change (of_Z 0) with (fin 0). cbn [div]. rewrite E.
        rewrite round_zero by (unfold Qdiv; ring). reflexivity.
      * apply div_pos_le; [assumption | apply of_Z_le; lia].
    + apply div_pos_le; [assumption | apply of_Z_le; lia].
Qed.

(** With the metadata that [get_video_info] reads from the same video,
    the output has the frame rate and the frame size that the container
    reports, and every annotated frame has the size of the frame it is
    made of: the frame size the writer was opened with when the frames
    have the size that the container reports. *)
Theorem annotated_frames_fit_writer
        (df0 df' : DataFrame) (video_info : VideoInfo) (v : Video)
        (out : VideoWriter) :
  get_video_info (VideoAt v) = inr video_info ->
  create_annotated_video df0 video_info v = Ok (df', out) ->
  writer_fps out = video_fps v
  /\ frameSize out = (video_width v, video_height v)
  /\ map size (written out) = map size (video_frames v)
  /\ (uniform v -> Forall (fun f => size f = frameSize out) (written out)).
Proof.
  intros [= <-]. rewrite create_annotated_video_run.
  destruct (column (adjusted_timestamp df0)); [|discriminate]. cbn [bind].
  destruct (annotate_frames _ _ _ _) as [[df1 fs]|] eqn:E; [|discriminate].
  cbn [bind]. intros [= _ <-]. cbn.
  pose proof (@annotate_frames_sizes _ _ _ _ _ _ E) as Hs.
  repeat split; [exact Hs|].
  intro U. unfold uniform in U.
  apply Forall_forall. intros f Hf.
  apply (in_map size) in Hf. rewrite Hs in Hf.
  apply in_map_iff in Hf. destruct Hf as (g & <- & Hg).
  rewrite Forall_forall in U. now apply U.
Qed.

(** Two tables that differ in the column 'adjusted_timestamp' only,
    which holds the timestamps moved by [dx] in the one and by [dy] in
    the other. *)
Definition shifted (dx dy : Z) (dfx dfy : DataFrame) : Prop :=
  readings dfx = readings dfy
  /\ relative_sec dfx = relative_sec dfy
  /\ adjusted_timestamp dfx
     = Some (map (fun r => (Timestamp r + dx)%Z) (readings dfx))
  /\ adjusted_timestamp dfy
     = Some (map (fun r => (Timestamp r + dy)%Z) (readings dfy)).

Lemma lookup_shifted (dx dy : Z) (dfx dfy : DataFrame) (t : float) :
  shifted dx dy dfx dfy ->
  match get_accel_at_time dfx t, get_accel_at_time dfy t with
  | Ok (dfx', sx), Ok (dfy', sy) =>
      shifted dx dy dfx' dfy'
      /\ row_reading (values sx) = row_reading (values sy)
  | Raise e, Raise e' => e = e'
  | _, _ => False
  end.
Proof.
  intros (Hr & Hrel & Hx & Hy).
  assert (Hdrop : drop_adjusted (get_accel_at_time dfx t)
                  = drop_adjusted (get_accel_at_time dfy t)).
  { destruct dfx as [rs ax relx], dfy as [rs' ay rely]. cbn in *.
    subst rs' rely ax ay.
    rewrite (lookup_shift _ _ dx), (lookup_shift _ _ dy). reflexivity. }
  destruct (get_accel_at_time dfx t) as [[dfx' sx]|ex] eqn:Ex;
    destruct (get_accel_at_time dfy t) as [[dfy' sy]|ey] eqn:Ey;
    cbn in Hdrop; try discriminate.
  - injection Hdrop as H1 H2 H3 H4 H5.
    destruct (get_accel_at_time_ok _ _ Ex)
      as (adjx & ox & rx & ax & Hadjx & _ & _ & Hdfx & _).
    destruct (get_accel_at_time_ok _ _ Ey)
      as (adjy & oy & ry & ay & Hadjy & _ & _ & Hdfy & _).
    split; [|assumption].
    unfold shifted. split; [assumption|]. split; [assumption|].
    rewrite Hdfx, Hdfy. cbn [adjusted_timestamp readings].
    rewrite <- Hadjx, <- Hadjy. auto.
  - now injection Hdrop.
Qed.

Lemma draw_overlay_reading (frame : Frame) (t : float) (row row' : Row) :
  row_reading row = row_reading row' ->
  draw_overlay frame t row = draw_overlay frame t row'.
Proof. intro H. unfold draw_overlay. now rewrite H. Qed.

Lemma annotate_frames_shifted (video_info : VideoInfo) (dx dy : Z)
      (ps : list Frame) :
  forall dfx dfy i,
    shifted dx dy dfx dfy ->
    video_of (annotate_frames video_info dfx i ps)
    = video_of (annotate_frames video_info dfy i ps).
Proof.
  induction ps as [|p ps IH]; intros dfx dfy i Hs; cbn [annotate_frames];
    [reflexivity|].
  destruct (frame_time _ _) as [t|]; [|reflexivity]. cbn [bind].
  pose proof (@lookup_shifted _ _ _ _ t Hs) as Hl.
  destruct (get_accel_at_time dfx t) as [[dfx' sx]|ex];
    destruct (get_accel_at_time dfy t) as [[dfy' sy]|ey];
    try contradiction; cbn [bind]; [|now subst].
  destruct Hl as [Hs' Hrow].
  rewrite (@draw_overlay_reading p t _ _ Hrow).
  destruct (draw_overlay p t (values sy)) as [frame|]; [|reflexivity].
  cbn [bind]. specialize (IH dfx' dfy' (i + 1)%Z Hs').
  destruct (annotate_frames video_info dfx' (i + 1) ps) as [[? ?]|];
    destruct (annotate_frames video_info dfy' (i + 1) ps) as [[? ?]|];
    cbn in IH |- *; congruence.
Qed.

(** The manual offset has no effect on the annotated video: after
    [synchronize_timestamps] has returned with each of two offsets,
    [create_annotated_video] writes the same frames into the same writer,
    or raises the same exception. *)
Theorem annotated_video_independent_of_offset {pandas : Pandas}
        (df0 dfx dfy : DataFrame) (video_info : VideoInfo) (v : Video)
        (x y : float) :
  synchronize_timestamps df0 x = Ok dfx ->
  synchronize_timestamps df0 y = Ok dfy ->
  video_of (create_annotated_video dfx video_info v)
  = video_of (create_annotated_video dfy video_info v).
Proof.
  intros Hx Hy.
  apply synchronize_timestamps_ok in Hx, Hy.
  destruct Hx as (tx & _ & _ & ->). destruct Hy as (ty & _ & _ & ->).
  rewrite !create_annotated_video_run. cbn [adjusted_timestamp column bind].
  assert (Hs : shifted tx ty
                 (mkDataFrame (readings df0)
                    (Some (map (fun r => (Timestamp r + tx)%Z) (readings df0)))
                    (relative_sec df0))
                 (mkDataFrame (readings df0)
                    (Some (map (fun r => (Timestamp r + ty)%Z) (readings df0)))
                    (relative_sec df0)))
    by (unfold shifted; cbn; auto).
  pose proof (@annotate_frames_shifted video_info _ _ (video_frames v) _ _ 0%Z Hs)
    as H.
  destruct (annotate_frames video_info _ 0 (video_frames v)) as [[? ?]|];
    destruct (annotate_frames video_info _ 0 (video_frames v)) as [[? ?]|];
    cbn in H |- *; congruence.
Qed.

Lemma span_fits_shift (d : Z) (l : list Z) :
  span_fits l -> span_fits (map (fun a => (a + d)%Z) l).
Proof.
  intros H a b Ha Hb.
  apply in_map_iff in Ha. destruct Ha as (a' & <- & Ha).
  apply in_map_iff in Hb. destruct Hb as (b' & <- & Hb).
  replace (a' + d - (b' + d))%Z with (a' - b')%Z by lia. now apply H.
Qed.


End AnnotatedVideo.

(** ** main.py: the plain side-by-side video *)

Section PlainSideBySide.
Import cv2 VideoSpec CompositeSpec CompositeVocabulary.
Import MainVideo MainVideoSpec.
Context {opencv : OpenCV}.

Lemma pair_loop_step (width1 height1 height2 : Z) (s : PairState) :
  pair_loop width1 height1 height2 s
  = match pair_body width1 height1 height2 s with
    | Raise e => Raise e
    | Ok None => Ok (pair_out s)
    | Ok (Some s') => pair_loop width1 height1 height2 s'
    end.
Proof.
  funelim (pair_loop width1 height1 height2 s);
    match goal with H : pair_body _ _ _ _ = _ |- _ => rewrite H end;
    reflexivity.
Qed.

Lemma pair_body_zip (s : PairState) :
  pair_body (video_width (source (cap1 s))) (video_height (source (cap1 s)))
            (video_height (source (cap2 s))) s
  = match combine (rest (cap1 s)) (rest (cap2 s)) with
    | [] => Ok None
    | p :: _ =>
        c <- compose_pair (source (cap1 s)) (source (cap2 s)) p ;;
        Ok (Some (mkPair (advance (cap1 s)) (advance (cap2 s))
                         (write (pair_out s) c)))
    end.
Proof.
  unfold pair_body. rewrite !read_rest.
  destruct (rest (cap1 s)) as [|p1 l1];
    destruct (rest (cap2 s)) as [|p2 l2]; try reflexivity.
  cbn [combine compose_pair].
  destruct (negb _).
  - destruct (resize _ _); [|reflexivity]. cbn [bind].
    destruct (hconcat _); reflexivity.
  - cbn [bind]. destruct (hconcat _); reflexivity.
Qed.

Lemma pair_loop_run (s : PairState) :
  pair_loop (video_width (source (cap1 s))) (video_height (source (cap1 s)))
            (video_height (source (cap2 s))) s
  = (fs <- mapM (compose_pair (source (cap1 s)) (source (cap2 s)))
                (combine (rest (cap1 s)) (rest (cap2 s))) ;;
     Ok (append_frames (pair_out s) fs)).
Proof.
  remember (rest (cap1 s)) as l1 eqn:Hl1. revert s Hl1.
  induction l1 as [|p1 l1 IH]; intros s Hl1;
    rewrite pair_loop_step, pair_body_zip, <- Hl1.
  - cbn. now rewrite append_frames_nil.
  - destruct (rest (cap2 s)) as [|p2 l2] eqn:Hl2;
      [cbn; now rewrite append_frames_nil|].
    cbn [combine mapM].
    destruct (compose_pair _ _ _) as [c|e]; [|reflexivity]. cbn [bind].
    pose proof (IH (mkPair (advance (cap1 s)) (advance (cap2 s))
                           (write (pair_out s) c))) as IH'.
    cbn [cap1 cap2 pair_out advance source] in IH'.
    rewrite IH' by (now rewrite rest_advance, <- Hl1). clear IH'.
    rewrite !rest_advance, Hl2. cbn [tl].
    destruct (mapM _ _) as [fs|e]; [|reflexivity]. cbn [bind].
    now rewrite append_frames_write.
Qed.

Lemma plain_side_by_side_run (v1 v2 : Video) :
  create_side_by_side_video v1 v2
  = (fs <- mapM (compose_pair v1 v2)
                (combine (video_frames v1) (video_frames v2)) ;;
     Ok (mkWriter (PyFloat.min2 (video_fps v1) (video_fps v2))
                  (video_width v1 + video_width v2,
                   Py.max2 (video_height v1) (video_height v2))%Z
                  fs)).
Proof.
  unfold create_side_by_side_video.
  pose proof (pair_loop_run
                (mkPair (VideoCapture_open v1) (VideoCapture_open v2)
                        (VideoWriter_open
                           (PyFloat.min2 (video_fps v1) (video_fps v2))
                           (video_width v1 + video_width v2,
                            Py.max2 (video_height v1) (video_height v2))%Z)))
    as H.
  cbn [cap1 cap2 pair_out source VideoCapture_open] in H.
  unfold CAP_PROP_FPS. cbn [source VideoCapture_open]. rewrite H.
  reflexivity.
Qed.

(** The size of a combined frame, for frames of the sizes that the
    containers report. *)
Lemma compose_pair_size (v1 v2 : Video) (p : Frame * Frame) (c : Frame) :
  size (fst p) = (video_width v1, video_height v1) ->
  size (snd p) = (video_width v2, video_height v2) ->
  compose_pair v1 v2 p = Ok c ->
  size c
  = (video_width v1
     + (if (video_height v1 =? video_height v2)%Z
        then video_width v2 else video_width v1),
     video_height v1)%Z.
Proof.
  destruct p as [p1 p2]. cbn [fst snd]. unfold size.
  intros [= W1 H1] [= W2 H2]. unfold compose_pair.
  destruct (video_height v1 =? video_height v2)%Z; cbn [negb bind].
  - unfold hconcat. destruct (forallb _ _); [|discriminate].
    intros [= <-]. cbn. now rewrite W1, H1, W2.
  - unfold resize. destruct (_ && _ && _ && _)%bool; [|discriminate].
    cbn [bind]. unfold hconcat. destruct (forallb _ _); [|discriminate].
    intros [= <-]. cbn. now rewrite W1, H1.
Qed.

Lemma compose_pair_ok (v1 v2 : Video) (p : Frame * Frame) :
  size (fst p) = (video_width v1, video_height v1) ->
  size (snd p) = (video_width v2, video_height v2) ->
  (0 < video_width v1)%Z -> (0 < video_height v1)%Z ->
  (0 < video_width v2)%Z -> (0 < video_height v2)%Z ->
  is_ok (compose_pair v1 v2 p) = true.
Proof.
  destruct p as [p1 p2]. cbn [fst snd]. unfold size.
  intros [= Wp1 Hp1] [= Wp2 Hp2] W1 H1 W2 H2. unfold compose_pair.
  destruct (video_height v1 =? video_height v2)%Z eqn:E; cbn [negb bind].
  - unfold hconcat. cbn. apply Z.eqb_eq in E.
    rewrite Hp1, Hp2, E, Z.eqb_refl. reflexivity.
  - unfold resize. rewrite Wp2, Hp2.
    apply Z.ltb_lt in W1, H1, W2, H2. rewrite W1, H1, W2, H2. cbn [andb bind].
    unfold hconcat. cbn. rewrite Hp1, Z.eqb_refl. reflexivity.
Qed.

Lemma uniform_combine (v1 v2 : Video) (p : Frame * Frame) :
  uniform v1 -> uniform v2 ->
  In p (combine (video_frames v1) (video_frames v2)) ->
  size (fst p) = (video_width v1, video_height v1)
  /\ size (snd p) = (video_width v2, video_height v2).
Proof.
  intros U1 U2 Hp. destruct p as [p1 p2].
  pose proof (in_combine_l _ _ _ _ Hp) as H1.
  pose proof (in_combine_r _ _ _ _ Hp) as H2.
  unfold uniform in U1, U2. rewrite Forall_forall in U1, U2.
  split; [now apply U1 | now apply U2].
Qed.

(** main.py's [create_side_by_side_video] opens its writer before it reads
    and stops at the first failed read: the output has as many frames as
    the shorter video, the rate [min(fps1, fps2)] and the declared frame
    size [(width1 + width2, max(height1, height2))].  For videos whose
    frames have the sizes that the containers report, every combined
    frame has the height of the first video.  With equal heights its
    width is [width1 + width2]; with different heights the second frame
    is resized to the size of the first, the combined frame is
    [2 * width1] wide, and it has the declared frame size only if the
    widths are equal too.  With such videos of positive size the run
    never raises. *)
Theorem plain_side_by_side_output (v1 v2 : Video) :
  (forall out,
      create_side_by_side_video v1 v2 = Ok out ->
      length (written out)
      = Nat.min (length (video_frames v1)) (length (video_frames v2))
      /\ writer_fps out = PyFloat.min2 (video_fps v1) (video_fps v2)
      /\ frameSize out
         = (video_width v1 + video_width v2,
            Py.max2 (video_height v1) (video_height v2))%Z
      /\ (uniform v1 -> uniform v2 ->
          (video_height v1 = video_height v2 ->
           Forall (fun f => size f = frameSize out) (written out))
          /\ (video_height v1 <> video_height v2 ->
              Forall (fun f => size f = (2 * video_width v1, video_height v1)%Z)
                     (written out))
          /\ (video_height v1 <> video_height v2 ->
              video_width v1 <> video_width v2 ->
              Forall (fun f => size f <> frameSize out) (written out))))
  /\ (uniform v1 -> uniform v2 ->
      (0 < video_width v1)%Z -> (0 < video_height v1)%Z ->
      (0 < video_width v2)%Z -> (0 < video_height v2)%Z ->
      exists out, create_side_by_side_video v1 v2 = Ok out).
Proof.
  rewrite plain_side_by_side_run. split.
  - intros out.
    destruct (mapM _ _) as [fs|] eqn:E; [|discriminate]. cbn [bind].
    intros [= <-]. cbn [written writer_fps frameSize].
    split; [|split; [reflexivity|split; [reflexivity|]]].
    { rewrite (mapM_length _ _ E). apply length_combine. }
    intros U1 U2.
    assert (Hsize : Forall
                      (fun f =>
                         size f
                         = (video_width v1
                            + (if (video_height v1 =? video_height v2)%Z
                               then video_width v2 else video_width v1),
                            video_height v1)%Z) fs).
    { eapply mapM_Forall; [|exact E]. intros a b Ha.
      destruct (uniform_combine _ U1 U2 Ha) as [S1 S2].
      now apply compose_pair_size. }
    split; [|split].
    + intro Heq. apply Z.eqb_eq in Heq as Heqb. rewrite Heqb in Hsize.
      unfold Py.max2. rewrite <- Heq, Z.ltb_irrefl. exact Hsize.
    + intro Hne. apply Z.eqb_neq in Hne. rewrite Hne in Hsize.
      eapply Forall_impl; [|exact Hsize]. cbn beta. intros f ->.
      f_equal. lia.
    + intros Hne Hw. apply Z.eqb_neq in Hne. rewrite Hne in Hsize.
      eapply Forall_impl; [|exact Hsize]. cbn beta. intros f -> [= H _].
      lia.
  - intros U1 U2 W1 H1 W2 H2.
    destruct (@mapM_ok _ _ (compose_pair v1 v2)
                (combine (video_frames v1) (video_frames v2))) as [fs ->].
    + apply Forall_forall. intros p Hp.
      destruct (uniform_combine _ U1 U2 Hp) as [S1 S2].
      now apply compose_pair_ok.
    + cbn [bind]. eauto.
Qed.

Lemma compose2_equal_heights (v1 v2 : Video) (p : Frame * Frame) :
  size (fst p) = (video_width v1, video_height v1) ->
  size (snd p) = (video_width v2, video_height v2) ->
  video_height v1 = video_height v2 ->
  compose2 p = compose_pair v1 v2 p
  /\ exists c, compose_pair v1 v2 p = Ok c
               /\ size c = (video_width v1 + video_width v2, video_height v1)%Z.
Proof.
  destruct p as [p1 p2]. cbn [fst snd]. unfold size.
  intros [= W1 H1] [= W2 H2] Heq. unfold compose2, compose_pair.
  unfold CreateSideBySideVideoOffset.match_heights.
  apply Z.eqb_eq in Heq as Heqb. rewrite Heqb.
  assert (E : (height p1 =? height p2)%Z = true)
    by (apply Z.eqb_eq; congruence).
  rewrite E. cbn [negb bind].
  split; [reflexivity|].
  unfold hconcat. cbn. rewrite Z.eqb_sym, E. eexists. split; [reflexivity|].
  cbn. now rewrite W1, W2, H1.
Qed.

(** The two side-by-side scripts agree where both apply: for two videos
    of equal frame height and positive frame rate that both have a frame,
    the frames having the sizes that the containers report,
    create_side_by_side_video_offset.py without start offsets writes
    exactly the output of main.py's [create_side_by_side_video]. *)
Theorem side_by_side_scripts_agree (v1 v2 : Video) :
  uniform v1 -> uniform v2 ->
  video_height v1 = video_height v2 ->
  ltb (fin 0) (video_fps v1) = true -> ltb (fin 0) (video_fps v2) = true ->
  video_frames v1 <> [] -> video_frames v2 <> [] ->
  exists out,
    create_side_by_side_video v1 v2 = Ok out
    /\ CreateSideBySideVideoOffset.create_side_by_side_video
         v1 v2 (fin 0) (fin 0)
       = Ok (Some out).
Proof.
  intros U1 U2 Heq F1 F2 N1 N2.
  rewrite plain_side_by_side_run, create_side_by_side_video_run.
  cbv zeta. unfold CreateSideBySideVideoOffset.skip_offset.
  change (ltb (fin 0) (fin 0)) with false. cbv iota. cbn [bind].
  assert (Hown : forall v, ltb (fin 0) (video_fps v) = true ->
                           CreateSideBySideVideoOffset.fps_or_30
                             (VideoCapture_open v) = video_fps v).
  { intros v Hv. destruct (fps_or_30_two v) as [-> | [E _]]; [reflexivity|].
    apply ltb_not_leb in Hv. congruence. }
  rewrite !Hown by assumption.
  unfold rest. cbn [VideoCapture_open CAP_PROP_POS_FRAMES source skipn].
  unfold composite2, composite.
  rewrite (@mapM_ext _ _ compose2 (compose_pair v1 v2))
    by (intros p Hp; destruct (uniform_combine _ U1 U2 Hp) as [S1 S2];
        now apply compose2_equal_heights).
  destruct (video_frames v1) as [|p1 l1] eqn:E1; [congruence|].
  destruct (video_frames v2) as [|p2 l2] eqn:E2; [congruence|].
  cbn [combine].
  assert (Hin : forall p, In p ((p1, p2) :: combine l1 l2) ->
                          size (fst p) = (video_width v1, video_height v1)
                          /\ size (snd p) = (video_width v2, video_height v2)).
  { intros p Hp. apply uniform_combine; try assumption.
    rewrite E1, E2. exact Hp. }
  destruct (mapM (compose_pair v1 v2) ((p1, p2) :: combine l1 l2))
    as [fs|e] eqn:E.
  - cbn [bind]. eexists. split; [reflexivity|]. do 3 f_equal.
    cbn [mapM] in E.
    destruct (Hin (p1, p2) (or_introl eq_refl)) as [S1 S2].
    destruct (@compose2_equal_heights v1 v2 (p1, p2) S1 S2 Heq)
      as [_ (c & Hc & Hsize)].
    rewrite Hc in E. cbn [bind] in E.
    destruct (mapM _ (combine l1 l2)); [|discriminate]. cbn [bind] in E.
    injection E as <-. cbn [first_size].
    rewrite Hsize. unfold Py.max2. now rewrite <- Heq, Z.ltb_irrefl.
  - exfalso.
    destruct (@mapM_ok _ _ (compose_pair v1 v2) ((p1, p2) :: combine l1 l2))
      as [fs Hfs]; [|congruence].
    apply Forall_forall. intros p Hp. destruct (Hin p Hp) as [S1 S2].
    destruct (@compose2_equal_heights v1 v2 p S1 S2 Heq)
      as [_ (c & -> & _)].
    reflexivity.
Qed.

End PlainSideBySide.

(** ** Concrete instances of the further properties *)

Section FurtherExamples.
Import cv2 Main MainSpec VideoSpec CompositeSpec CompositeVocabulary.
Import MainVideo MainVideoSpec AnimationSpec.
#[local] Existing Instance opencv_tags.
#[local] Existing Instance drawing_marks.
#[local] Existing Instance ExampleFormat.format_sign.
#[local] Existing Instance pandas_ns.
#[local] Existing Instance numpy_scan.

(** [Binary64] against the binary64 operations of the Standard Library's
    [SpecFloat], on numbers given as [(m, e)] for [m * 2^e]: ties,
    subnormal numbers, the overflow threshold, and the operands of the
    examples of this file (0.7 and 30, 1.16 and 25, 13 and 3, 27 and
    13/3.0, 49 and 1/49.0, 0.3 and 0.5). *)
Example binary64_agrees_with_SpecFloat :
  forallb Reference.agree_on_round
          [(2 ^ 53 + 1, 0); (2 ^ 53 + 3, 0); (2 ^ 54 + 2, 0); (2 ^ 54 + 6, 0);
           (1, -1075); (3, -1075); (1, -1074); (1, -1076); (5, -1076);
           (2 ^ 53 - 1, 971); (2 ^ 54 - 1, 970); (2 ^ 54 - 2, 970);
           (2 ^ 53, 971); (- (2 ^ 54 - 1), 970); (2 ^ 52 + 1, -1075);
           (7, -3); (-7, -3); (0, 0); (123456789123456789123456789, -40)]%Z
  = true
  /\ forallb Reference.agree_on_operations
             [((6305039478318694, -53), (30, 0));
              ((5224175567749775, -52), (25, 0));
              ((13, 0), (3, 0));
              ((27, 0), (4878899596318037, -50));
              ((49, 0), (5882252574524729, -58));
              ((5404319552844595, -54), (1, -1));
              ((6305039478318694, -53), (1, -1));
              ((1, 1023), (1, 1023));
              ((1, -1074), (1, -1));
              ((-3, 0), (0, 0));
              ((1, 1023), (-1, 1023));
              ((4695945557401669, -49), (8435805052018360, -48))]%Z
     = true.
Proof. split; vm_compute; reflexivity. Qed.

Lemma composite_frames_in_lock_step_witness :
  exists out c,
    CombineThreeVideos.create_three_video_composite
      (clip 30 4 2 10) (clip 30 4 2 8) (clip 30 4 2 12)
      (fin 0) (fin 0) (of_Q (7 # 100))
    = Ok (Some out)
    /\ nth_error (written out) 3 = Some c
    /\ @data opencv_tags c = [3; 3; 5].
Proof.
  do 2 eexists. split; [vm_compute; reflexivity|].
  split; [reflexivity|].
  destruct (proj1 (@composite_frames_in_lock_step opencv_tags)
              (clip 30 4 2 10) (clip 30 4 2 8) (clip 30 4 2 12)
              (fin 0) (fin 0) (of_Q (7 # 100)) _ 3 _
              ltac:(vm_compute; reflexivity) eq_refl)
    as (first & p1 & p2 & p3 & _).
  reflexivity.
Defined.

Lemma written_frames_have_writer_size_witness :
  uniform (clip 25 4 2 20) /\ uniform (clip 30 6 4 20)
  /\ exists out,
      CreateSideBySideVideoOffset.create_side_by_side_video
        (clip 25 4 2 20) (clip 30 6 4 20) (of_Q (3 # 4)) (fin 0)
      = Ok (Some out)
      /\ Forall (fun f => size f = frameSize out) (written out).
Proof.
  pose proof (uniform_clip 25 4 2 20) as U1.
  pose proof (uniform_clip 30 6 4 20) as U2.
  do 2 (split; [assumption|]).
  eexists. split; [vm_compute; reflexivity|].
  refine (proj2 (@written_frames_have_writer_size opencv_tags)
            (clip 25 4 2 20) (clip 30 6 4 20) (of_Q (3 # 4)) (fin 0) _ _
            U1 U2).
  vm_compute. reflexivity.
Defined.

Lemma composite_output_size_witness :
  exists out,
    CreateSideBySideVideoOffset.create_side_by_side_video
      (clip 25 4 2 20) (clip 30 6 4 20) (of_Q (3 # 4)) (fin 0)
    = Ok (Some out)
    /\ frameSize out = (4 + 3, 2)%Z.
Proof.
  eexists. split; [vm_compute; reflexivity|].
  destruct (proj2 (@composite_output_size opencv_tags)
              (clip 25 4 2 20) (clip 30 6 4 20) (of_Q (3 # 4)) (fin 0) _
              ltac:(vm_compute; reflexivity))
    as (frame1 & frame2 & resized2 & H1 & H2 & H3 & Hsize).
  vm_compute in H1, H2. injection H1 as <-. injection H2 as <-.
  vm_compute in H3. injection H3 as <-.
  rewrite Hsize. reflexivity.
Defined.

Definition frame_5x2 : @Frame opencv_tags := mkFrame 2 5 [0].

Lemma resize_to_height_enlarges_witness :
  (0 < width frame_5x2)%Z /\ (0 < height frame_5x2)%Z
  /\ (height frame_5x2 <= 3)%Z
  /\ exact_int (width frame_5x2) /\ exact_int 3
  /\ exists frame',
      CombineThreeVideos.resize_to_height frame_5x2 3 = Ok frame'
      /\ height frame' = 3%Z
      /\ (width frame_5x2 <= width frame')%Z.
Proof.
  assert (Hw : (0 < width frame_5x2)%Z) by reflexivity.
  assert (Hh : (0 < height frame_5x2)%Z) by reflexivity.
  assert (Hle : (height frame_5x2 <= 3)%Z) by discriminate.
  assert (Xw : exact_int (width frame_5x2)) by reflexivity.
  assert (Xt : exact_int 3) by reflexivity.
  do 5 (split; [assumption|]).
  exact (@resize_to_height_enlarges opencv_tags frame_5x2 3%Z
           Hw Hh Hle Xw Xt).
Defined.

Lemma lookup_after_lookup_witness :
  exists df1 s1,
    get_accel_at_time (synchronized series_0_1_2) (of_Q (49 # 100))
    = Ok (df1, s1)
    /\ get_accel_at_time df1 (fin 5)
       = get_accel_at_time (synchronized series_0_1_2) (fin 5).
Proof.
  do 2 eexists. split; [vm_compute; reflexivity|].
  refine (proj1 (@lookup_after_lookup (synchronized series_0_1_2) _ _
                   (of_Q (49 # 100)) (fin 5) _)).
  vm_compute. reflexivity.
Defined.

Lemma drawable_small (q : Q) : (Qabs q <= pow2 2)%Q -> drawable (of_Q q).
Proof.
  intro H. destruct (@round_bounded 2 q ltac:(lia) H) as (p & Hp & Hb).
  exists p. split; [exact Hp|].
  eapply Qle_trans; [exact Hb|]. apply pow2_le. lia.
Qed.

Lemma series_0_1_2_drawable :
  Forall drawable_reading (readings series_0_1_2).
Proof.
  assert (H0 : drawable (fin 0)).
  { exists 0%Q. split; [reflexivity|]. apply Qlt_le_weak, pow2_pos. }
  repeat constructor; try exact H0;
    apply drawable_small; vm_compute; discriminate.
Qed.

(** The metadata of a video of 45 frames 4 x 2 at 30 frames per
    second. *)
Definition info_30_45 : VideoInfo := mkInfo (fin 30) 45 4 2 (of_Q (3 # 2)).

Lemma create_annotated_video_frames_witness :
  adjusted_timestamp (synchronized series_0_1_2)
  = Some [0; 1000000000; 2000000000]%Z
  /\ [0; 1000000000; 2000000000]%Z <> []
  /\ length [0; 1000000000; 2000000000]%Z
     = length (readings (synchronized series_0_1_2))
  /\ span_fits [0; 1000000000; 2000000000]%Z
  /\ Forall drawable_reading (readings (synchronized series_0_1_2))
  /\ eqb (info_fps info_30_45) (fin 0) = false
  /\ is_nan (info_fps info_30_45) = false
  /\ exact_int (Z.of_nat (length (video_frames (clip 30 4 2 45))))
  /\ exists df' out,
      create_annotated_video (synchronized series_0_1_2) info_30_45
                             (clip 30 4 2 45)
      = Ok (df', out)
      /\ length (written out) = 45.
Proof.
  assert (H1 : adjusted_timestamp (synchronized series_0_1_2)
               = Some [0; 1000000000; 2000000000]%Z) by reflexivity.
  assert (H2 : [0; 1000000000; 2000000000]%Z <> []) by discriminate.
  assert (H3 : length [0; 1000000000; 2000000000]%Z
               = length (readings (synchronized series_0_1_2)))
    by reflexivity.
  pose proof span_fits_0_1_2 as H4.
  pose proof series_0_1_2_drawable as H5.
  change (readings series_0_1_2)
    with (readings (synchronized series_0_1_2)) in H5.
  assert (H6 : eqb (info_fps info_30_45) (fin 0) = false) by reflexivity.
  assert (H7 : is_nan (info_fps info_30_45) = false) by reflexivity.
  assert (H8 : exact_int (Z.of_nat (length (video_frames (clip 30 4 2 45)))))
    by (vm_compute; reflexivity).
  do 8 (split; [assumption|]).
  destruct (@create_annotated_video_frames opencv_tags drawing_marks
              ExampleFormat.format_sign (synchronized series_0_1_2) _
              info_30_45 (clip 30 4 2 45) H1 H2 H3 H4 H5 H6 H7 H8)
    as (df' & out & Hrun & _ & _ & Hlen & _).
  exists df', out. split; [exact Hrun|]. rewrite Hlen. reflexivity.
Defined.

(** A table whose second row has no X acceleration. *)
Definition series_nan : DataFrame :=
  mkDataFrame [mkReading 0 nan (fin 0) (fin 0)] (Some [0%Z]) None.

Lemma create_annotated_video_edge_cases_witness :
  create_annotated_video series_0_1_2 info_30_45 (clip 30 4 2 45)
  = Raise KeyError
  /\ create_annotated_video no_rows info_30_45 (clip 30 4 2 45)
     = Raise KeyError
  /\ create_annotated_video (synchronized series_0_1_2)
                            (mkInfo (fin 0) 45 4 2 (fin 0)) (clip 0 4 2 45)
     = Raise ZeroDivisionError
  /\ create_annotated_video (synchronized no_rows) info_30_45
                            (clip 30 4 2 45)
     = Raise ValueError
  /\ create_annotated_video series_nan info_30_45 (clip 30 4 2 45)
     = Raise ValueError.
Proof.
  split; [|split; [|split; [|split]]].
  - exact (proj1 (@create_annotated_video_edge_cases opencv_tags
                    drawing_marks ExampleFormat.format_sign series_0_1_2
                    info_30_45 (clip 30 4 2 45))
             eq_refl).
  - exact (proj1 (@create_annotated_video_edge_cases opencv_tags
                    drawing_marks ExampleFormat.format_sign no_rows
                    info_30_45 (clip 30 4 2 45))
             eq_refl).
  - refine (proj1 (proj2 (proj2 (@create_annotated_video_edge_cases
                                   opencv_tags drawing_marks
                                   ExampleFormat.format_sign
                                   (synchronized series_0_1_2)
                                   (mkInfo (fin 0) 45 4 2 (fin 0))
                                   (clip 0 4 2 45))
                            _ eq_refl))
              _ eq_refl).
    discriminate.
  - refine (proj1 (proj2 (proj2 (proj2 (@create_annotated_video_edge_cases
                                          opencv_tags drawing_marks
                                          ExampleFormat.format_sign
                                          (synchronized no_rows) info_30_45
                                          (clip 30 4 2 45))
                                   _ eq_refl)))
              _ eq_refl eq_refl).
    discriminate.
  - destruct (@create_annotated_video_edge_cases opencv_tags drawing_marks
                ExampleFormat.format_sign series_nan info_30_45
                (clip 30 4 2 45)) as (_ & H).
    destruct (H [0%Z] eq_refl) as (_ & _ & _ & Hnan).
    eapply Hnan;
      [discriminate | vm_compute; reflexivity | vm_compute; reflexivity
       | reflexivity].
Defined.

Lemma video_info_duration_witness :
  exists info,
    get_video_info (VideoAt (clip 30 4 2 45)) = inr info
    /\ info_duration info = of_Q (3 # 2)
    /\ forall t,
        frame_time 44 (info_fps info) = Ok t ->
        leb (fin 0) t = true /\ leb t (info_duration info) = true.
Proof.
  destruct (@video_info_duration opencv_tags (clip 30 4 2 45))
    as (info & Hget & Hfps & _ & _ & _ & _ & Hdur & Htime).
  exists info. split; [exact Hget|].
  split.
  - rewrite (Hdur eq_refl). vm_compute. reflexivity.
  - intros t Ht.
    refine (Htime 30%Q 44%Z t _ _ _ Ht);
      [vm_compute; reflexivity | reflexivity | vm_compute; split; discriminate].
Defined.

Lemma annotated_frames_fit_writer_witness :
  exists info df' out,
    get_video_info (VideoAt (clip 30 4 2 3)) = inr info
    /\ create_annotated_video (synchronized series_0_1_2) info
                              (clip 30 4 2 3)
       = Ok (df', out)
    /\ writer_fps out = video_fps (clip 30 4 2 3)
    /\ frameSize out
       = (video_width (clip 30 4 2 3), video_height (clip 30 4 2 3))
    /\ map size (written out) = map size (video_frames (clip 30 4 2 3))
    /\ (uniform (clip 30 4 2 3) ->
        Forall (fun f => size f = frameSize out) (written out)).
Proof.
  do 3 eexists. split; [reflexivity|].
  split; [vm_compute; reflexivity|].
  refine (@annotated_frames_fit_writer opencv_tags drawing_marks
            ExampleFormat.format_sign (synchronized series_0_1_2) _ _
            (clip 30 4 2 3) _ _ _).
  - reflexivity.
  - vm_compute. reflexivity.
Defined.

Lemma annotated_video_independent_of_offset_witness :
  synchronize_timestamps series_0_1_2 (fin 0)
  = Ok (synchronized series_0_1_2)
  /\ synchronize_timestamps series_0_1_2 (fin 1)
     = Ok (mkDataFrame (readings series_0_1_2)
             (Some [1000000000; 2000000000; 3000000000]%Z) None)
  /\ video_of (create_annotated_video (synchronized series_0_1_2)
                 info_30_45 (clip 30 4 2 45))
     = video_of (create_annotated_video
                   (mkDataFrame (readings series_0_1_2)
                      (Some [1000000000; 2000000000; 3000000000]%Z) None)
                   info_30_45 (clip 30 4 2 45)).
Proof.
  assert (H1 : synchronize_timestamps series_0_1_2 (fin 0)
               = Ok (synchronized series_0_1_2)) by reflexivity.
  assert (H2 : synchronize_timestamps series_0_1_2 (fin 1)
               = Ok (mkDataFrame (readings series_0_1_2)
                       (Some [1000000000; 2000000000; 3000000000]%Z) None))
    by reflexivity.
  do 2 (split; [assumption|]).
  exact (@annotated_video_independent_of_offset opencv_tags drawing_marks
           ExampleFormat.format_sign pandas_ns series_0_1_2 _ _
           info_30_45 (clip 30 4 2 45) (fin 0) (fin 1) H1 H2).
Defined.

Lemma plain_side_by_side_output_witness :
  uniform (clip 30 4 2 10) /\ uniform (clip 24 6 3 8)
  /\ exists out,
      create_side_by_side_video (clip 30 4 2 10) (clip 24 6 3 8) = Ok out
      /\ length (written out) = 8
      /\ Forall (fun f => size f <> frameSize out) (written out).
Proof.
  pose proof (uniform_clip 30 4 2 10) as U1.
  pose proof (uniform_clip 24 6 3 8) as U2.
  do 2 (split; [assumption|]).
  destruct (proj2 (@plain_side_by_side_output opencv_tags
                     (clip 30 4 2 10) (clip 24 6 3 8)) U1 U2)
    as [out Hrun]; try reflexivity.
  exists out. split; [exact Hrun|].
  destruct (proj1 (@plain_side_by_side_output opencv_tags
                     (clip 30 4 2 10) (clip 24 6 3 8)) out Hrun)
    as (Hlen & _ & _ & Hsizes).
  split; [rewrite Hlen; reflexivity|].
  destruct (Hsizes U1 U2) as (_ & _ & Hmis).
  apply Hmis; discriminate.
Defined.

Lemma side_by_side_scripts_agree_witness :
  uniform (clip 30 4 2 10) /\ uniform (clip 24 6 2 8)
  /\ video_height (clip 30 4 2 10) = video_height (clip 24 6 2 8)
  /\ ltb (fin 0) (video_fps (clip 30 4 2 10)) = true
  /\ ltb (fin 0) (video_fps (clip 24 6 2 8)) = true
  /\ video_frames (clip 30 4 2 10) <> []
  /\ video_frames (clip 24 6 2 8) <> []
  /\ exists out,
      create_side_by_side_video (clip 30 4 2 10) (clip 24 6 2 8) = Ok out
      /\ CreateSideBySideVideoOffset.create_side_by_side_video
           (clip 30 4 2 10) (clip 24 6 2 8) (fin 0) (fin 0)
         = Ok (Some out).
Proof.
  pose proof (uniform_clip 30 4 2 10) as U1.
  pose proof (uniform_clip 24 6 2 8) as U2.
  assert (Hh : video_height (clip 30 4 2 10) = video_height (clip 24 6 2 8))
    by reflexivity.
  assert (F1 : ltb (fin 0) (video_fps (clip 30 4 2 10)) = true)
    by reflexivity.
  assert (F2 : ltb (fin 0) (video_fps (clip 24 6 2 8)) = true)
    by reflexivity.
  assert (N1 : video_frames (clip 30 4 2 10) <> []) by discriminate.
  assert (N2 : video_frames (clip 24 6 2 8) <> []) by discriminate.
  do 7 (split; [assumption|]).
  exact (@side_by_side_scripts_agree opencv_tags
           (clip 30 4 2 10) (clip 24 6 2 8) U1 U2 Hh F1 F2 N1 N2).
Defined.

(** Three samples at 0 s, 0.5 s and 1 s. *)
Definition times_0_half_1 : list Q := [0; 1 # 2; 1]%Q.

Lemma times_ascending : ascending times_0_half_1.
Proof.
  unfold ascending, times_0_half_1.
  repeat (constructor; [|repeat constructor; discriminate]). constructor.
Qed.









End FurtherExamples.
